(** * libriscv: decoder cache, its serialization, paging and Linux system calls

    A shallow embedding of
    - [lib/libriscv/decoder_cache.hpp]  ([DecoderData], [DecoderCache]),
    - [lib/libriscv/decoder_cache_serialize.hpp]  (the raw cache image and
      its handler re-binding table, the portable field-by-field encoding,
      and the earlier raw format without a handler table),
    - [memory.cpp]  (paging: [allocate_page], [default_page_fault],
      [initial_paging], [install_shared_page]; the ELF loader; symbol
      [lookup]),
    - the Linux system calls [rt_sigaction], [write], [readv], [writev],
      [brk] and [getrandom],
    followed by the properties proved about them: Part II settles the
    claims of the specification, Part III holds further properties read
    off the code.

    Conventions.  Machine integers are [Z] with the wrap-around of their C
    type written out ([wrap], [to_int]).  Bytes are [Z] in [0, 256).
    Code that can throw returns a [result]; an access outside an array,
    which is undefined behaviour in C++, is the error [out_of_bounds].
    [std::unordered_map] is [gmap]; its iteration order is the order of
    [map_to_list], about which nothing is assumed. *)

From Stdlib Require Import ZArith Lia List Bool.
From stdpp Require Import base tactics option list numbers gmap fin_maps.

Local Open Scope Z_scope.

(* ================================================================== *)
(** * Part I: the model                                                 *)
(* ================================================================== *)

(** ** Errors *)

Inductive exception : Type :=
| OUT_OF_MEMORY        (* MachineException(OUT_OF_MEMORY, ...) *)
| ILLEGAL_OPERATION    (* MachineException(ILLEGAL_OPERATION, ...) *)
| UNHANDLED_SYSCALL    (* MachineException(UNHANDLED_SYSCALL, ...) *)
| runtime_error        (* std::runtime_error *)
| length_error         (* std::length_error / std::bad_alloc of a resize *)
| bad_array_new_length (* operator new[] with an impossible size *)
| out_of_range         (* std::out_of_range of std::array::at *)
| too_many_handlers    (* the handler table is full *)
| out_of_bounds.       (* undefined behaviour: access outside an array *)

Inductive result (A : Type) : Type :=
| Ok (a : A)
| Throw (e : exception).

Arguments Ok {A} a.
Arguments Throw {A} e.

Definition bind {A B : Type} (r : result A) (k : A -> result B) : result B :=
  match r with
  | Ok a => k a
  | Throw e => Throw e
  end.

Notation "'do' x <- r ; k" := (bind r (fun x => k))
  (at level 10, x name, r at level 100, k at level 200).
Notation "'do' ' p <- r ; k" := (bind r (fun x => let 'p := x in k))
  (at level 10, p pattern, r at level 100, k at level 200).

(** ** Machine integers *)

(** An unsigned [bits]-bit value. *)
Definition wrap (bits : Z) (v : Z) : Z := v mod 2 ^ bits.

(** Conversion to C [int] (32 bits, two's complement). *)
Definition to_int (v : Z) : Z := (v + 2 ^ 31) mod 2 ^ 32 - 2 ^ 31.

(** Conversion to [size_t] (64 bits on the hosts the emulator runs on). *)
Definition to_size_t (v : Z) : Z := wrap 64 v.

(** Conversion to [uint8_t]. *)
Definition to_uint8 (v : Z) : Z := wrap 8 v.

(** The [w] bytes of an unsigned value, least significant first. *)
Fixpoint le_bytes (w : nat) (v : Z) : list Z :=
  match w with
  | O => []
  | S w' => Z.land v 255 :: le_bytes w' (Z.shiftr v 8)
  end.

(** The value of a little-endian byte sequence. *)
Fixpoint le_value (bs : list Z) : Z :=
  match bs with
  | [] => 0
  | b :: bs' => Z.lor b (Z.shiftl (le_value bs') 8)
  end.

(** ** [decoder_cache.hpp] *)

(** Modelled from the spec: [PageSize] is declared in [common.hpp], which is
    not among the sources; the spec fixes the page at 4 KiB. *)
Definition PageSize : Z := 4096.

(** [struct DecoderData].  [compressed_enabled] (RISCV_EXT_COMPRESSED)
    selects the layout of bytes 2..3: two 8-bit bit-fields [idxend],
    [icount], or one 16-bit [idxend] (then [icount] does not exist and is
    kept 0 here). *)
Record DecoderData : Type := mkDecoderData {
  m_bytecode : Z;   (* uint8_t  *)
  m_handler  : Z;   (* uint8_t  *)
  idxend     : Z;   (* uint16_t, 8 bits wide when compressed *)
  icount     : Z;   (* uint16_t : 8, only when compressed *)
  instr      : Z    (* uint32_t *)
}.

#[global] Instance DecoderData_eq_dec : EqDecision DecoderData.
Proof. solve_decision. Defined.

(** The values the eight bytes of a descriptor can hold. *)
Definition representable (compressed_enabled : bool) (d : DecoderData) : Prop :=
  0 <= m_bytecode d < 256 /\
  0 <= m_handler d < 256 /\
  0 <= idxend d < (if compressed_enabled then 256 else 65536) /\
  (if compressed_enabled then 0 <= icount d < 256 else icount d = 0) /\
  0 <= instr d < 2 ^ 32.

Definition set_m_handler (d : DecoderData) (h : Z) : DecoderData :=
  mkDecoderData (m_bytecode d) h (idxend d) (icount d) (instr d).

(** [DecoderData::set_invalid_handler] *)
Definition set_invalid_handler (d : DecoderData) : DecoderData :=
  set_m_handler d 0.

(** [DecoderData::is_invalid_handler] *)
Definition is_invalid_handler (d : DecoderData) : bool := m_handler d =? 0.

(** [DecoderData::block_bytes]: [idxend * (compressed_enabled ? 2 : 4)],
    computed in [int]. *)
Definition block_bytes (compressed_enabled : bool) (d : DecoderData) : Z :=
  idxend d * (if compressed_enabled then 2 else 4).

(** [DecoderData::instruction_count]: [idxend + 1 - icount] with compressed
    instructions, [idxend + 1] without; the operands are promoted to
    [int]. *)
Definition instruction_count (compressed_enabled : bool) (d : DecoderData) : Z :=
  if compressed_enabled then idxend d + 1 - icount d else idxend d + 1.

(** [DecoderCache::DIVISOR], [SHIFT] and [SIZE]. *)
Definition DIVISOR (compressed_enabled : bool) : Z :=
  if compressed_enabled then 2 else 4.
Definition SHIFT (compressed_enabled : bool) : Z :=
  if compressed_enabled then 1 else 2.
Definition SIZE (compressed_enabled : bool) : Z :=
  PageSize / DIVISOR compressed_enabled.

(** [struct DecoderCache]: an array of [SIZE] descriptors. *)
Record DecoderCache : Type := mkDecoderCache { cache : list DecoderData }.

#[global] Instance DecoderCache_eq_dec : EqDecision DecoderCache.
Proof. solve_decision. Defined.

(** [sizeof(DecoderData<W>)], asserted to be 8 by [atomic_overwrite]. *)
Definition sizeof_DecoderData : Z := 8.

(** The eight bytes of a descriptor as they lie in memory (little-endian
    host): what [memcpy] and [reinterpret_cast] see. *)
Definition raw_bytes (compressed_enabled : bool) (d : DecoderData) : list Z :=
  [ m_bytecode d; m_handler d; Z.land (idxend d) 255;
    if compressed_enabled then icount d else Z.shiftr (idxend d) 8 ]
  ++ le_bytes 4 (instr d).

(** The descriptor that eight bytes of memory are read as. *)
Definition of_raw_bytes (compressed_enabled : bool) (bs : list Z) : DecoderData :=
  match bs with
  | b0 :: b1 :: b2 :: b3 :: rest =>
      mkDecoderData b0 b1
        (if compressed_enabled then b2 else Z.lor b2 (Z.shiftl b3 8))
        (if compressed_enabled then b3 else 0)
        (le_value (take 4 rest))
  | _ => mkDecoderData 0 0 0 0 0
  end.

(** The memory image of a sequence of descriptors. *)
Definition descriptors_image (compressed_enabled : bool) (ds : list DecoderData) : list Z :=
  concat (map (raw_bytes compressed_enabled) ds).

(** The memory image of an array of caches. *)
Definition caches_image (compressed_enabled : bool) (caches : list DecoderCache) : list Z :=
  descriptors_image compressed_enabled (concat (map cache caches)).

(** [k] consecutive descriptors read from a byte buffer. *)
Fixpoint read_descriptors (compressed_enabled : bool) (k : nat) (bs : list Z)
  : list DecoderData :=
  match k with
  | O => []
  | S k' => of_raw_bytes compressed_enabled (take 8 bs)
            :: read_descriptors compressed_enabled k' (drop 8 bs)
  end.

(** [n] consecutive caches of [sz] descriptors each read from a buffer. *)
Fixpoint read_caches (compressed_enabled : bool) (sz n : nat) (bs : list Z)
  : list DecoderCache :=
  match n with
  | O => []
  | S n' => mkDecoderCache (read_descriptors compressed_enabled sz bs)
            :: read_caches compressed_enabled sz n' (drop (8 * sz)%nat bs)
  end.

(** ** The process-wide handler tables of [DecoderData] *)

Section HandlerTables.
Context {Handler : Type} `{Countable Handler}.

(** [struct Instruction<W>]: what [CPU<W>::decode] returns.  Only its
    [handler] is used by the code modelled here. *)
Record Instruction : Type := mkInstruction { handler : Handler }.

(** The static members of [DecoderData<W>]. *)
Record HandlerTables : Type := mkHandlerTables {
  instr_handlers : list (option Handler);  (* std::array<Handler, 256>; None is a null pointer *)
  handler_count : Z;                       (* std::size_t *)
  handler_cache : gmap Handler Z;          (* std::unordered_map<Handler, size_t> *)
  inst_handler_mapping : gmap Z Z          (* std::unordered_map<size_t, uint32_t> *)
}.

(** The tables at program start: [handler_count = 0], empty maps. *)
Definition initial_tables : HandlerTables :=
  mkHandlerTables (replicate 256 None) 0 ∅ ∅.

(** [CPU<W>::decode], the instruction decoder: an external collaborator. *)
Variable decode : Z -> Instruction.

(** Modelled from the spec: [DecoderData::handler_index_for] is declared in
    [decoder_cache.hpp] and defined in a file that is not among the sources.
    The spec: look the handler up in the handler cache and reuse its index
    if present; otherwise assign the next free index of [instr_handlers]
    and record it.  The next free index is [handler_count], which the
    header initialises to 0: index 0 goes to the first handler registered
    (the spec reserves it for the invalid handler), later ones start at 1.
    The array has 256 entries; the spec does not say how exhaustion is
    reported, it is the failure [too_many_handlers] here. *)
Definition handler_index_for (t : HandlerTables) (new_handler : Handler)
  : result (Z * HandlerTables) :=
  match handler_cache t !! new_handler with
  | Some idx => Ok (idx, t)
  | None =>
      if 256 <=? handler_count t then Throw too_many_handlers
      else
        let idx := handler_count t in
        Ok (idx,
            mkHandlerTables
              (<[Z.to_nat idx := Some new_handler]> (instr_handlers t))
              (idx + 1)
              (<[new_handler := idx]> (handler_cache t))
              (inst_handler_mapping t))
  end.

(** [DecoderData::set_insn_handler]:
    [this->m_handler = handler_index_for(ih)] (a [size_t] stored in a
    [uint8_t]). *)
Definition set_insn_handler (t : HandlerTables) (d : DecoderData) (ih : Handler)
  : result (HandlerTables * DecoderData) :=
  do '(idx, t') <- handler_index_for t ih;
  Ok (t', set_m_handler d (to_uint8 idx)).

(** [DecoderData::set_handler]: [set_insn_handler(insn.handler)], then
    [inst_handler_mapping[this->m_handler] = this->instr]. *)
Definition set_handler (t : HandlerTables) (d : DecoderData) (insn : Instruction)
  : result (HandlerTables * DecoderData) :=
  do '(t', d') <- set_insn_handler t d (handler insn);
  Ok (mkHandlerTables (instr_handlers t') (handler_count t') (handler_cache t')
        (<[m_handler d' := instr d']> (inst_handler_mapping t')),
      d').

(** [DecoderData::get_handler]: [instr_handlers[m_handler]]. *)
Definition get_handler (t : HandlerTables) (d : DecoderData) : option Handler :=
  mjoin (instr_handlers t !! Z.to_nat (m_handler d)).

(** [DecoderData::_assign_handler]: [instr_handlers[idx] = h], with no
    bounds check on the 256-entry array. *)
Definition _assign_handler (t : HandlerTables) (idx : Z) (h : Handler)
  : result HandlerTables :=
  if (0 <=? idx) && (idx <? 256) then
    Ok (mkHandlerTables (<[Z.to_nat idx := Some h]> (instr_handlers t))
          (handler_count t) (handler_cache t) (inst_handler_mapping t))
  else Throw out_of_bounds.

(** ** [decoder_cache_serialize.hpp], the raw encoding (LOAD_EXP) *)

(** [struct _handler_item { uint32_t idx; uint32_t instr; }] (packed). *)
Record _handler_item : Type := mk_handler_item { hi_idx : Z; hi_instr : Z }.

Definition sizeof_handler_item : Z := 8.

(** The eight bytes of a [_handler_item] in memory. *)
Definition item_bytes (it : _handler_item) : list Z :=
  le_bytes 4 (hi_idx it) ++ le_bytes 4 (hi_instr it).

(** The loop of [serialize_whole_decoder_cache] over the copy [m] of
    [inst_handler_mapping]: the pairs whose key is not 0, in iteration
    order, each stored as [{idx = k, instr = v}] ([size_t k] narrowed to
    [uint32_t]). *)
Definition handler_items (m : gmap Z Z) : list _handler_item :=
  map (fun kv => mk_handler_item (wrap 32 (fst kv)) (snd kv))
      (filter (fun kv => fst kv <> 0) (map_to_list m)).

(** [serialize_whole_decoder_cache(caches, n)], reading the static
    [inst_handler_mapping] [m]; [n] is an [int].
    - [n == 0] returns the empty vector;
    - [int size = n * caches[0].size() * sizeof(DecoderData<W>)];
      [out.resize(size)] and the [memcpy] of [size] bytes from [caches];
    - [needed_pairs = m.size() - 1] in [size_t];
      [new _handler_item[needed_pairs]];
    - the loop fills [hi_arr[0..]] with the pairs of non-zero key (it never
      compares its index with [needed_pairs]);
    - the vector grows to [size + 1 + needed_pairs * 8] bytes:
      [out[size] = needed_pairs] (narrowed to a byte), then the items. *)
Definition serialize_whole_decoder_cache (compressed_enabled : bool)
    (caches : list DecoderCache) (n : Z) (m : gmap Z Z) : result (list Z) :=
  let n := to_int n in
  if n =? 0 then Ok []
  else
    let size := to_int (to_size_t n * SIZE compressed_enabled * sizeof_DecoderData) in
    if size <? 0 then Throw length_error
    else
      let image := caches_image compressed_enabled caches in
      if Z.of_nat (length image) <? size then Throw out_of_bounds
      else
        let out := take (Z.to_nat size) image in
        let needed_pairs := to_size_t (Z.of_nat (base.size m) - 1) in
        if 2 ^ 63 <=? needed_pairs * sizeof_handler_item then Throw bad_array_new_length
        else
          let hi_arr := handler_items m in
          if needed_pairs <? Z.of_nat (length hi_arr) then Throw out_of_bounds
          else
            Ok (out ++ [to_uint8 needed_pairs]
                    ++ concat (map item_bytes (take (Z.to_nat needed_pairs) hi_arr))).

(** [handlers[i]]: the [_handler_item] at byte offset [off] of [data]. *)
Definition read_handler_item (data : list Z) (off : nat) : result _handler_item :=
  let bs := take 8 (drop off data) in
  if (length bs <? 8)%nat then Throw out_of_bounds
  else Ok (mk_handler_item (le_value (take 4 bs)) (le_value (drop 4 bs))).

(** The loop [for (i = 0; i < handler_c; ++i)] of
    [deserialize_decoder_cache]:
    [_assign_handler(it.idx, CPU<W>::decode({it.instr}).handler)]. *)
Fixpoint rebind_handlers (t : HandlerTables) (data : list Z) (off : nat) (count : nat)
  : result HandlerTables :=
  match count with
  | O => Ok t
  | S count' =>
      do it <- read_handler_item data off;
      do t' <- _assign_handler t (hi_idx it) (handler (decode (hi_instr it)));
      rebind_handlers t' data (off + 8)%nat count'
  end.

(** [deserialize_decoder_cache(data, n, L)] (LOAD_EXP), [n] and [L] being
    [int]: the length check (in [size_t]), the cache array overlaid on
    [data], the count byte at [required_size - 1] and the handler items
    after it. *)
Definition deserialize_decoder_cache (compressed_enabled : bool)
    (t : HandlerTables) (data : list Z) (n L : Z)
  : result (list DecoderCache * HandlerTables) :=
  let n := to_int n in
  let L := to_int L in
  let num_entries := SIZE compressed_enabled in
  let required_size := to_size_t (to_size_t n * num_entries * sizeof_DecoderData + 1) in
  if to_size_t L <? required_size then Throw runtime_error
  else
    match data !! Z.to_nat (required_size - 1) with
    | None => Throw out_of_bounds
    | Some handler_c =>
        do t' <- rebind_handlers t data (Z.to_nat required_size) (Z.to_nat handler_c);
        Ok (read_caches compressed_enabled (Z.to_nat num_entries) (Z.to_nat n) data, t')
    end.

(** Consistent handler tables, and descriptors that agree with them: the
    counter bounds the indices in use, the handler cache and the encoding
    map agree with [instr_handlers], and every descriptor with a handler
    has its index bound to an encoding that decodes to its handler.  The
    tables at program start are consistent, and [set_handler] keeps them
    so. *)
Definition tables_inv (t : HandlerTables) (ds : list DecoderData) : Prop :=
  0 <= handler_count t <= 256 /\
  length (instr_handlers t) = 256%nat /\
  (forall h k, handler_cache t !! h = Some k ->
     0 <= k < handler_count t /\
     instr_handlers t !! Z.to_nat k = Some (Some h)) /\
  (forall k e, inst_handler_mapping t !! k = Some e ->
     0 <= k < handler_count t /\ 0 <= e < 2 ^ 32 /\
     instr_handlers t !! Z.to_nat k = Some (Some (handler (decode e)))) /\
  Forall (fun d => m_handler d <> 0 ->
            is_Some (inst_handler_mapping t !! m_handler d) /\
            instr_handlers t !! Z.to_nat (m_handler d)
              = Some (Some (handler (decode (instr d))))) ds.

(** A cache whose handlers were assigned via [set_handler]: starting from
    consistent tables (program start, or what the builds of other machines
    left) and from descriptors that carry the invalid handler, the tables
    change only through calls of [d.set_handler(CPU<W>::decode({d.instr}))],
    the call the loaders of this file make, on a slot [i] of the cache or on
    a descriptor outside it (the invalid-instruction descriptor, another
    machine's cache). *)
Inductive assigned_via_set_handler : HandlerTables -> list DecoderData -> Prop :=
| assigned_none t ds :
    tables_inv t [] ->
    Forall (fun d => m_handler d = 0) ds ->
    assigned_via_set_handler t ds
| assigned_slot t ds i d t' d' :
    assigned_via_set_handler t ds ->
    ds !! i = Some d ->
    0 <= instr d < 2 ^ 32 ->
    set_handler t d (decode (instr d)) = Ok (t', d') ->
    assigned_via_set_handler t' (<[i := d']> ds)
| assigned_other t ds d0 t' d' :
    assigned_via_set_handler t ds ->
    0 <= instr d0 < 2 ^ 32 ->
    set_handler t d0 (decode (instr d0)) = Ok (t', d') ->
    assigned_via_set_handler t' ds.

End HandlerTables.

Arguments Instruction Handler : clear implicits.
Arguments HandlerTables Handler {_ _}.

(** An item that names an entry of the 256-entry handler array and a
    32-bit encoding. *)
Definition item_ok (it : _handler_item) : Prop :=
  0 <= hi_idx it < 256 /\ 0 <= hi_instr it < 2 ^ 32.

(** ** Paging: [memory.cpp] *)

(** [struct PageAttributes]. *)
Record PageAttributes : Type := mkPageAttributes {
  read : bool; write : bool; exec : bool; shared : bool; is_cow : bool
}.

#[global] Instance PageAttributes_eq_dec : EqDecision PageAttributes.
Proof. solve_decision. Defined.

(** [struct Page]: attributes and a buffer of [PageSize] bytes. *)
Record Page : Type := mkPage { attr : PageAttributes; page_data : list Z }.

#[global] Instance Page_eq_dec : EqDecision Page.
Proof. solve_decision. Defined.

(** Modelled from the spec: [struct Page] is declared in a header that is
    not among the sources.  [new Page] is "a freshly zeroed owned Page":
    its buffer is all zero and it is not shared (nor copy-on-write); it is
    readable and writable, as the loader's [memcpy] into freshly faulted
    pages needs. *)
Definition new_Page : Page :=
  mkPage (mkPageAttributes true true false false false)
         (replicate (Z.to_nat PageSize) 0).

(** [struct Memory<W>], the members the code below uses.  A cached page
    pointer ([m_current_rd_ptr], [m_current_wr_ptr]) is the page of the
    cached number; [-1] is "no page", as [clear_all_pages] sets it. *)
Record Memory : Type := mkMemory {
  m_pages : gmap Z Page;        (* std::unordered_map<address_t, Page*> *)
  m_pages_total : Z;
  m_pages_highest : Z;
  m_current_rd_page : Z;
  m_current_wr_page : Z;
  m_start_address : Z;
  m_stack_address : Z;
  m_heap_address : Z;
  m_exit_address : Z;
  m_elf_end_vaddr : Z;
  m_protect_segments : bool
}.

#[global] Instance Memory_eq_dec : EqDecision Memory.
Proof. solve_decision. Defined.

Definition set_paging (mem : Memory) (pages : gmap Z Page) (highest rd wr : Z) : Memory :=
  mkMemory pages (m_pages_total mem) highest rd wr
    (m_start_address mem) (m_stack_address mem) (m_heap_address mem)
    (m_exit_address mem) (m_elf_end_vaddr mem) (m_protect_segments mem).

(** Modelled from the spec: the accessors [pages_active], [pages_total] and
    [heap_address] are defined in [memory.hpp], which is not among the
    sources.  [pages_active] is the number of pages in the page table. *)
Definition pages_active (mem : Memory) : Z := Z.of_nat (base.size (m_pages mem)).
Definition pages_total (mem : Memory) : Z := m_pages_total mem.
Definition heap_address (mem : Memory) : Z := m_heap_address mem.

(** Modelled from the spec: [Memory::invalidate_page] is defined in
    [memory.hpp], which is not among the sources.  The spec: the cached
    page of each direction is cleared when it referred to the page
    number. *)
Definition invalidate_page (mem : Memory) (pageno : Z) : Memory :=
  set_paging mem (m_pages mem) (m_pages_highest mem)
    (if m_current_rd_page mem =? pageno then -1 else m_current_rd_page mem)
    (if m_current_wr_page mem =? pageno then -1 else m_current_wr_page mem).

(** [Memory<W>::allocate_page]:
    [pages().insert({page, new Page})] (which keeps an element that is
    already there), [m_pages_highest = max(m_pages_highest, pages().size())],
    [invalidate_page(page, ...)], and the page now at [page] is returned. *)
Definition allocate_page (mem : Memory) (page : Z) : Memory * Page :=
  let '(pages', it) :=
    match m_pages mem !! page with
    | Some existing => (m_pages mem, existing)
    | None => (<[page := new_Page]> (m_pages mem), new_Page)
    end in
  let highest := Z.max (m_pages_highest mem) (Z.of_nat (base.size pages')) in
  (invalidate_page
     (set_paging mem pages' highest (m_current_rd_page mem) (m_current_wr_page mem))
     page,
   it).

(** [Memory<W>::default_page_fault]: allocate under the quota, else throw
    [MachineException(OUT_OF_MEMORY, "Out of memory")]. *)
Definition default_page_fault (mem : Memory) (page : Z) : result (Memory * Page) :=
  if pages_active mem <? pages_total mem then Ok (allocate_page mem page)
  else Throw OUT_OF_MEMORY.

(** ** The machine and its Linux system calls *)

(** The template parameter [W] of [Machine<W>]: the address width in bytes.
    The system calls are instantiated for 4 and 8. *)
Inductive Width : Type := W4 | W8.

#[global] Instance Width_eq_dec : EqDecision Width.
Proof. solve_decision. Defined.

(** [sizeof(address_type<W>)] and the number of bits of a register. *)
Definition sizeof_address (W : Width) : nat :=
  match W with W4 => 4%nat | W8 => 8%nat end.
Definition XLEN (W : Width) : Z :=
  match W with W4 => 32 | W8 => 64 end.

(** Conversion to [address_type<W>]. *)
Definition to_address (W : Width) (v : Z) : Z := wrap (XLEN W) v.

(** Conversion to [ssize_t] (64 bits, two's complement). *)
Definition to_ssize_t (v : Z) : Z := (v + 2 ^ 63) mod 2 ^ 64 - 2 ^ 63.

(** [#define SA_ONSTACK 0x08000000] *)
Definition SA_ONSTACK : Z := 0x08000000.

(** Host [errno] values (Linux [errno.h]). *)
Definition EBADF : Z := 9.
Definition EINVAL : Z := 22.

(** The argument registers start at [a0 = x10]. *)
Definition REG_ARG0 : nat := 10.

(** [struct vBuffer { char* ptr; size_t len; }]: one gathered span. *)
Record vBuffer : Type := mkvBuffer { ptr : Z; len : Z }.

#[global] Instance vBuffer_eq_dec : EqDecision vBuffer.
Proof. solve_decision. Defined.

(** [struct guest_iovec<W>]. *)
Record guest_iovec : Type := mk_guest_iovec { iov_base : Z; iov_len : Z }.

(** [struct kernel_sigaction] of [syscall_sigaction]. *)
Record kernel_sigaction : Type := mk_kernel_sigaction {
  sa_handler : Z; sa_flags : Z; sa_mask : Z
}.

#[global] Instance kernel_sigaction_eq_dec : EqDecision kernel_sigaction.
Proof. solve_decision. Defined.

(** The bytes of a [kernel_sigaction] in guest memory: three
    [address_type<W>] fields, little-endian. *)
Definition kernel_sigaction_bytes (W : Width) (sa : kernel_sigaction) : list Z :=
  le_bytes (sizeof_address W) (sa_handler sa)
  ++ le_bytes (sizeof_address W) (sa_flags sa)
  ++ le_bytes (sizeof_address W) (sa_mask sa).

Definition kernel_sigaction_of_bytes (W : Width) (bs : list Z) : kernel_sigaction :=
  let w := sizeof_address W in
  mk_kernel_sigaction (le_value (take w bs))
                      (le_value (take w (drop w bs)))
                      (le_value (take w (drop (2 * w) bs))).

(** [count] consecutive [guest_iovec<W>] read from a host buffer. *)
Fixpoint guest_iovecs_of_bytes (W : Width) (count : nat) (bs : list Z) : list guest_iovec :=
  match count with
  | O => []
  | S count' =>
      let w := sizeof_address W in
      mk_guest_iovec (le_value (take w bs)) (le_value (take w (drop w bs)))
      :: guest_iovecs_of_bytes W count' (drop (2 * w) bs)
  end.

(** The signal table.  The field names are those of [SignalAction<W>]. *)
Module Sig.
Record SignalAction : Type := mk { handler : Z; altstack : bool; mask : Z }.
Definition unset : SignalAction := mk 0 false 0.
End Sig.

#[global] Instance SignalAction_eq_dec : EqDecision Sig.SignalAction.
Proof. solve_decision. Defined.

(** [struct FileDescriptors]: the virtual-to-real descriptor table. *)
Record FileDescriptors : Type := mkFileDescriptors {
  translation : gmap Z Z;
  permit_filesystem : bool
}.

#[global] Instance FileDescriptors_eq_dec : EqDecision FileDescriptors.
Proof. solve_decision. Defined.

(** [struct Machine<W>]: the registers ([machine.cpu.reg(i)]), the memory,
    the signal actions, the optional descriptor table ([m_fds]) and the
    spans handed to [machine.print], oldest first. *)
Record Machine : Type := mkMachine {
  cpu_regs : list Z;
  memory : Memory;
  m_sigactions : gmap Z Sig.SignalAction;
  m_fds : option FileDescriptors;
  printed : list vBuffer
}.

#[global] Instance Machine_eq_dec : EqDecision Machine.
Proof. solve_decision. Defined.

Definition set_regs (machine : Machine) (regs : list Z) : Machine :=
  mkMachine regs (memory machine) (m_sigactions machine) (m_fds machine) (printed machine).
Definition set_memory (machine : Machine) (mem : Memory) : Machine :=
  mkMachine (cpu_regs machine) mem (m_sigactions machine) (m_fds machine) (printed machine).

(** [machine.cpu.reg(i)] *)
Definition reg (machine : Machine) (i : nat) : Z := default 0 (cpu_regs machine !! i).

(** [machine.has_file_descriptors()] *)
Definition has_file_descriptors (machine : Machine) : bool :=
  match m_fds machine with Some _ => true | None => false end.

(** [machine.print(ptr, len)] for each of the gathered spans, in order. *)
Definition print (machine : Machine) (buffers : list vBuffer) : Machine :=
  mkMachine (cpu_regs machine) (memory machine) (m_sigactions machine) (m_fds machine)
            (printed machine ++ buffers).

(** The members of [Memory<W>] that move data between guest and host.
    They are defined in files that are not among the sources and are
    parameters of the system calls.  Each may fault (throw) and may change
    the memory (page allocation, page caches). *)
Record MemoryOps : Type := mkMemoryOps {
  (* machine.copy_to_guest(dst, buf, len): [buf] is the list of [len] bytes *)
  copy_to_guest : Memory -> Z -> list Z -> result Memory;
  (* machine.copy_from_guest(buf, src, len) *)
  copy_from_guest : Memory -> Z -> Z -> result (list Z * Memory);
  (* machine.memory.memcpy_out(buf, src, len) *)
  memcpy_out : Memory -> Z -> Z -> result (list Z * Memory);
  (* machine.memory.gather_buffers_from_range(max, out, addr, len) *)
  gather_buffers_from_range : Memory -> Z -> Z -> Z -> result (list vBuffer * Memory)
}.

(** The host operating system and the descriptor table's methods. *)
Record HostOS : Type := mkHostOS {
  (* getrandom(buffer, need, 0): the result and the buffer afterwards *)
  host_getrandom : Z -> Z * list Z;
  (* readv(fd, vec, cnt): the result, errno, and the memory it filled *)
  host_readv : Z -> list vBuffer -> Memory -> Z * Z * Memory;
  (* the i-th writev(fd, vec, cnt) of a call: the result and errno *)
  host_writev : nat -> Z -> list vBuffer -> Memory -> Z * Z;
  (* errno before the system call *)
  host_errno : Z;
  (* machine.fds().translate(vfd) *)
  translate : FileDescriptors -> Z -> Z;
  (* machine.fds().permit_write(vfd) *)
  permit_write : FileDescriptors -> Z -> bool
}.

Section Syscalls.
Variable W : Width.
(** [Memory<W>::BRK_MAX], a constant of [memory.hpp]. *)
Variable BRK_MAX : Z.
Variable mops : MemoryOps.
Variable host : HostOS.

(** Modelled from the spec: [Machine::sysarg], [set_result] and
    [set_result_or_error] are defined in [machine.hpp], which is not among
    the sources.  The spec: arguments are read from a0..a5; the result is
    written to a0; on host failure the negated [errno] is written to a0. *)
Definition sysarg (machine : Machine) (n : nat) : Z := reg machine (REG_ARG0 + n).
Definition sysarg_int (machine : Machine) (n : nat) : Z := to_int (sysarg machine n).
Definition set_result (machine : Machine) (value : Z) : Machine :=
  set_regs machine (<[REG_ARG0 := to_address W value]> (cpu_regs machine)).
Definition set_result_or_error (machine : Machine) (res errno : Z) : Machine :=
  if res <? 0 then set_result machine (- errno) else set_result machine res.
Definition return_value (machine : Machine) : Z := reg machine REG_ARG0.

(** Modelled from the spec: [Machine::sigaction(sig)] is defined in a
    header that is not among the sources.  The spec: a process-wide table
    indexed by signal number; an entry never written is unset. *)
Definition sigaction (machine : Machine) (sig : Z) : Sig.SignalAction :=
  default Sig.unset (m_sigactions machine !! sig).
Definition set_sigaction (machine : Machine) (sig : Z) (sigact : Sig.SignalAction) : Machine :=
  mkMachine (cpu_regs machine) (memory machine)
            (<[sig := sigact]> (m_sigactions machine)) (m_fds machine) (printed machine).

(** [syscall_sigaction] (rt_sigaction, 134). *)
Definition syscall_sigaction (machine : Machine) : result Machine :=
  let sig := sysarg_int machine 0 in
  let action := sysarg machine 1 in
  let old_action := sysarg machine 2 in
  if sig =? 0 then Ok machine
  else
    do machine1 <-
      (if negb (old_action =? 0) then
         let sigact := sigaction machine sig in
         let sa := mk_kernel_sigaction
                     (Z.land (Sig.handler sigact) (to_address W (Z.lnot 15)))
                     (if Sig.altstack sigact then SA_ONSTACK else 0)
                     (to_address W (Sig.mask sigact)) in
         do mem <- copy_to_guest mops (memory machine) old_action
                     (kernel_sigaction_bytes W sa);
         Ok (set_memory machine mem)
       else Ok machine);
    do machine2 <-
      (if negb (action =? 0) then
         do '(bs, mem) <- copy_from_guest mops (memory machine1) action
                            (Z.of_nat (3 * sizeof_address W));
         let sa := kernel_sigaction_of_bytes W bs in
         Ok (set_sigaction (set_memory machine1 mem) sig
               (Sig.mk (sa_handler sa)
                       (negb (Z.land (sa_flags sa) SA_ONSTACK =? 0))
                       (sa_mask sa)))
       else Ok machine1);
    Ok (set_result machine2 0).

(** [syscall_brk] (214). *)
Definition syscall_brk (machine : Machine) : Machine :=
  let new_end := sysarg machine 0 in
  let heap := heap_address (memory machine) in
  let new_end :=
    if new_end >? to_address W (heap + BRK_MAX) then to_address W (heap + BRK_MAX)
    else if new_end <? heap then heap
    else new_end in
  set_result machine new_end.

(** [syscall_getrandom] (278). *)
Definition syscall_getrandom (machine : Machine) : result Machine :=
  let g_addr := sysarg machine 0 in
  let g_len := sysarg machine 1 in
  if g_len >? 256 then Ok (set_result machine (-1))
  else
    let need := Z.min g_len 256 in
    let '(result, buffer) := host_getrandom host need in
    do machine1 <-
      (if result >? 0 then
         do mem <- copy_to_guest mops (memory machine) g_addr
                     (take (Z.to_nat result) buffer);
         Ok (set_memory machine mem)
       else Ok machine);
    Ok (set_result machine1 result).

(** [syscall_write] (64). *)
Definition syscall_write (machine : Machine) : result Machine :=
  let vfd := sysarg_int machine 0 in
  let address := sysarg machine 1 in
  let len := sysarg machine 2 in
  if (vfd =? 1) || (vfd =? 2) then
    do '(buffers, mem) <- gather_buffers_from_range mops (memory machine) 64 address len;
    Ok (set_result (print (set_memory machine mem) buffers) len)
  else
    match m_fds machine with
    | Some fds =>
        if permit_write host fds vfd then
          let real_fd := translate host fds vfd in
          do '(buffers, mem) <- gather_buffers_from_range mops (memory machine) 64 address len;
          let '(res, errno) := host_writev host 0%nat real_fd buffers mem in
          Ok (set_result_or_error (set_memory machine mem) res errno)
        else Ok (set_result machine (- EBADF))
    | None => Ok (set_result machine (- EBADF))
    end.

(** The loop of [syscall_readv] over the guest iovecs: each is gathered
    into at most 64 spans, which are appended with [vec.at(vec_cnt++)] to an
    array of 256. *)
Fixpoint readv_gather (mem : Memory) (g_vec : list guest_iovec) (vec : list vBuffer)
  : result (list vBuffer * Memory) :=
  match g_vec with
  | [] => Ok (vec, mem)
  | iov :: rest =>
      do '(buffers, mem') <- gather_buffers_from_range mops mem 64 (iov_base iov) (iov_len iov);
      if (256 <? length vec + length buffers)%nat then Throw out_of_range
      else readv_gather mem' rest (vec ++ buffers)
  end.

(** [syscall_readv] (65). *)
Definition syscall_readv (machine : Machine) : result Machine :=
  let vfd := sysarg_int machine 0 in
  let iov_g := sysarg machine 1 in
  let count := sysarg_int machine 2 in
  if (count <? 1) || (count >? 128) then Ok (set_result machine (- EINVAL))
  else
    let real_fd :=
      if (vfd =? 1) || (vfd =? 2) then -1
      else match m_fds machine with
           | Some fds => translate host fds vfd
           | None => -1
           end in
    if real_fd <? 0 then Ok (set_result machine (- EBADF))
    else
      let iov_size := Z.of_nat (2 * sizeof_address W) * count in
      do '(bs, mem) <- copy_from_guest mops (memory machine) iov_g iov_size;
      let g_vec := guest_iovecs_of_bytes W (Z.to_nat count) bs in
      do '(vec, mem') <- readv_gather mem g_vec [];
      let '(res, errno, mem'') := host_readv host real_fd vec mem' in
      Ok (set_result_or_error (set_memory machine mem'') res errno).

(** The loop of [syscall_writev] over the guest iovecs, from the [i]-th on,
    with the running [res] and the last [errno]. *)
Fixpoint writev_loop (machine : Machine) (real_fd : Z) (vec : list guest_iovec)
    (i : nat) (res errno : Z) : result (Machine * Z * Z) :=
  match vec with
  | [] => Ok (machine, res, errno)
  | iov :: rest =>
      let src_g := iov_base iov in
      let len_g := iov_len iov in
      do '(buffers, mem) <- gather_buffers_from_range mops (memory machine) 64 src_g len_g;
      let machine1 := set_memory machine mem in
      if (real_fd =? 1) || (real_fd =? 2) then
        writev_loop (print machine1 buffers) real_fd rest (S i) (to_ssize_t (res + len_g)) errno
      else
        let '(written, errno') := host_writev host i real_fd buffers mem in
        if written >? 0 then
          writev_loop machine1 real_fd rest (S i) (to_ssize_t (res + written)) errno'
        else if written <? 0 then Ok (machine1, written, errno')
        else Ok (machine1, res, errno')
  end.

(** [syscall_writev] (66). *)
Definition syscall_writev (machine : Machine) : result Machine :=
  let vfd := sysarg_int machine 0 in
  let iov_g := sysarg machine 1 in
  let count := sysarg_int machine 2 in
  if (count <? 0) || (count >? 256) then Ok (set_result machine (- EINVAL))
  else
    let real_fd :=
      if (vfd =? 1) || (vfd =? 2) then vfd
      else match m_fds machine with
           | Some fds => translate host fds vfd
           | None => -1
           end in
    if real_fd <? 0 then Ok (set_result machine (- EBADF))
    else
      let size := Z.of_nat (2 * sizeof_address W) * count in
      do '(bs, mem) <- memcpy_out mops (memory machine) iov_g size;
      let vec := guest_iovecs_of_bytes W (Z.to_nat count) bs in
      do '(machine1, res, errno) <-
        writev_loop (set_memory machine mem) real_fd vec 0%nat 0 (host_errno host);
      Ok (set_result_or_error machine1 res errno).

End Syscalls.

(** ** Well-formed states *)

(** The 32 integer registers hold [address_type<W>] values. *)
Definition machine_wf (W : Width) (machine : Machine) : Prop :=
  length (cpu_regs machine) = 32%nat /\
  Forall (fun v => 0 <= v < 2 ^ XLEN W) (cpu_regs machine).

(** The guest's view of a system call: a0, a1, a2 loaded with the
    arguments before the [ecall]. *)
Definition with_args (machine : Machine) (a0 a1 a2 : Z) : Machine :=
  set_regs machine
    (<[12%nat := a2]> (<[11%nat := a1]> (<[10%nat := a0]> (cpu_regs machine)))).

(** ** A reference implementation of the data movers

    Modelled from the spec: [Memory::memcpy], [memcpy_out] and
    [gather_buffers_from_range] are not among the sources.  The spec: the
    copies walk page by page and may trigger page faults; the gather
    returns one span per contiguous piece, split at page boundaries.  Here
    a write to an unmapped page calls [default_page_fault], a read of an
    unmapped page sees zeroes, and the host pointer of a span is its guest
    address.  These definitions run the system calls on concrete machines;
    the theorems about the system calls hold for every [MemoryOps].  The
    spec does not say what the gather does when a range needs more than
    [max] spans; here it throws. *)

Definition read_byte (mem : Memory) (addr : Z) : Z :=
  match m_pages mem !! (addr / PageSize) with
  | Some pg => default 0 (page_data pg !! Z.to_nat (addr mod PageSize))
  | None => 0
  end.

Definition write_byte (mem : Memory) (addr b : Z) : result Memory :=
  let pageno := addr / PageSize in
  do '(mem1, pg) <-
    match m_pages mem !! pageno with
    | Some pg => Ok (mem, pg)
    | None => default_page_fault mem pageno
    end;
  Ok (set_paging mem1
        (<[pageno := mkPage (attr pg)
                       (<[Z.to_nat (addr mod PageSize) := b]> (page_data pg))]>
           (m_pages mem1))
        (m_pages_highest mem1) (m_current_rd_page mem1) (m_current_wr_page mem1)).

Fixpoint memcpy (mem : Memory) (dst : Z) (src : list Z) : result Memory :=
  match src with
  | [] => Ok mem
  | b :: rest => do mem1 <- write_byte mem dst b; memcpy mem1 (dst + 1) rest
  end.

Definition read_bytes (mem : Memory) (src n : Z) : list Z :=
  map (fun i => read_byte mem (src + Z.of_nat i)) (seq 0 (Z.to_nat n)).

Fixpoint gather_spans (pages : nat) (addr n : Z) : list vBuffer :=
  match pages with
  | O => []
  | S pages' =>
      if n <=? 0 then []
      else
        let piece := Z.min (PageSize - addr mod PageSize) n in
        mkvBuffer addr piece :: gather_spans pages' (addr + piece) (n - piece)
  end.

Definition paged_ops : MemoryOps :=
  mkMemoryOps
    memcpy
    (fun mem src n => Ok (read_bytes mem src n, mem))
    (fun mem src n => Ok (read_bytes mem src n, mem))
    (fun mem max addr n =>
       let spans := gather_spans (Z.to_nat (n / PageSize + 2)) addr n in
       if max <? Z.of_nat (length spans) then Throw OUT_OF_MEMORY
       else Ok (spans, mem)).

(** ** Concrete inputs

    The states below are the inputs of the examples, witnesses and
    counterexamples of Part II. *)

#[global] Instance representable_dec c d : Decision (representable c d).
Proof. unfold representable. destruct c; apply _. Defined.

(** A decoder that tells handlers apart by the opcode field (bits 0..6);
    handlers are numbered by that opcode. *)
Definition example_decode (e : Z) : Instruction Z := mkInstruction (Z.land e 127).

Definition tables_of (r : result (HandlerTables Z * DecoderData)) : HandlerTables Z :=
  match r with Ok (t, _) => t | Throw _ => initial_tables end.
Definition descriptor_of (r : result (HandlerTables Z * DecoderData)) : DecoderData :=
  match r with Ok (_, d) => d | Throw _ => mkDecoderData 0 0 0 0 0 end.

(** A descriptor that was never decoded, and a page of them. *)
Definition blank_descriptor : DecoderData := mkDecoderData 0 0 0 0 0.
Definition blank_cache (c : bool) : DecoderCache :=
  mkDecoderCache (replicate (Z.to_nat (SIZE c)) blank_descriptor).

(** A build without compressed instructions: the invalid instruction is
    registered first (index 0), then slot 0 ([addi x0, x0, 0]) and slot 1
    ([addi x1, x0, 10]) of one page get their handler. *)
Definition example_invalid : DecoderData := mkDecoderData 0 0 0 0 0.
Definition example_slot0 : DecoderData := mkDecoderData 1 0 1 0 0x00000013.
Definition example_slot1 : DecoderData := mkDecoderData 1 0 0 0 0x00A00093.
Definition example_slots : list DecoderData :=
  example_slot0 :: example_slot1 :: replicate 1022 blank_descriptor.

Definition example_step1 := set_handler initial_tables example_invalid
                              (example_decode (instr example_invalid)).
Definition example_step2 := set_handler (tables_of example_step1) example_slot0
                              (example_decode (instr example_slot0)).
Definition example_step3 := set_handler (tables_of example_step2) example_slot1
                              (example_decode (instr example_slot1)).
Definition example_tables : HandlerTables Z := tables_of example_step3.
Definition example_caches : list DecoderCache :=
  [ mkDecoderCache
      (<[1%nat := descriptor_of example_step3]>
         (<[0%nat := descriptor_of example_step2]> example_slots)) ].

(** A host whose [getrandom] fills the whole request, whose [readv] and
    [writev] transfer nothing, and a descriptor table that translates the
    descriptors it holds and refuses the others. *)
Definition example_host : HostOS :=
  mkHostOS (fun need => (need, replicate 256 0xA5))
           (fun fd vec mem => (0, 0, mem))
           (fun i fd vec mem => (0, 0))
           0
           (fun fds vfd => default (-1) (translation fds !! vfd))
           (fun fds vfd => true).

(** A memory after initial paging: the zero page, mapped and all-deny;
    room for [total] pages; the heap at 0x80000000. *)
Definition example_memory (total : Z) : Memory :=
  mkMemory {[ 0 := mkPage (mkPageAttributes false false false false false)
                          (replicate (Z.to_nat PageSize) 0) ]}
           total 1 (-1) (-1) 0x10000 0x7FFF0000 0x80000000 0 0x20000 true.

(** The same memory after page 5, not yet mapped, was read and written
    through the shared zero page: both page caches refer to it. *)
Definition example_cached_memory : Memory :=
  mkMemory (m_pages (example_memory 16)) 16 1 5 5 0x10000 0x7FFF0000 0x80000000 0 0x20000 true.

(** A machine with file descriptors enabled, about to make a system call
    with arguments [a0], [a1], [a2]. *)
Definition example_machine (mem : Memory) (a0 a1 a2 : Z) : Machine :=
  with_args (mkMachine (replicate 32 0) mem ∅ (Some (mkFileDescriptors ∅ true)) [])
            a0 a1 a2.

(** The memory with [new = {0x1234, SA_ONSTACK, 0xF}] stored at 0x2000. *)
Definition example_sigaction_memory : Memory :=
  match memcpy (example_memory 16) 0x2000
          (kernel_sigaction_bytes W8 (mk_kernel_sigaction 0x1234 SA_ONSTACK 0xF)) with
  | Ok mem => mem
  | Throw _ => example_memory 16
  end.

(** [SIGUSR1] on Linux. *)
Definition SIGUSR1 : Z := 10.

(** The memory after 128 bytes of [example_host]'s randomness were copied
    to 0x5000. *)
Definition example_getrandom_memory : Memory :=
  match memcpy (example_memory 16) 0x5000 (replicate 128 0xA5) with
  | Ok mem => mem
  | Throw _ => example_memory 16
  end.

(** Closed goals about concrete states are settled by evaluation. *)
Ltac by_evaluation :=
  vm_compute; repeat split; first [reflexivity | exact I | discriminate].
Ltac by_decision := apply (bool_decide_unpack _); vm_compute; exact I.


(** ** Further members of [DecoderData] *)

(** [DecoderData::get_bytecode] and [set_bytecode(uint16_t num)] (the
    number is narrowed to the [uint8_t] member). *)
Definition get_bytecode (d : DecoderData) : Z := m_bytecode d.
Definition set_bytecode (d : DecoderData) (num : Z) : DecoderData :=
  mkDecoderData (to_uint8 num) (m_handler d) (idxend d) (icount d) (instr d).

(** [DecoderData::set_atomic_bytecode_and_handler(bytecode, handler_idx)]:
    [*(uint16_t* )&m_bytecode = (handler_idx << 8) | bytecode], one 16-bit
    store over bytes 0..1 of the descriptor (little-endian host). *)
Definition set_atomic_bytecode_and_handler (compressed_enabled : bool)
    (d : DecoderData) (bytecode handler_idx : Z) : DecoderData :=
  of_raw_bytes compressed_enabled
    (le_bytes 2 (wrap 16 (Z.lor (Z.shiftl handler_idx 8) bytecode))
     ++ drop 2 (raw_bytes compressed_enabled d)).

(** [DecoderData::atomic_overwrite(other)]:
    [*(uint64_t* )this = *(uint64_t* )&other], the eight bytes of [other]
    loaded as one 64-bit word and stored over [this]. *)
Definition atomic_overwrite (compressed_enabled : bool) (this other : DecoderData)
  : DecoderData :=
  of_raw_bytes compressed_enabled
    (le_bytes 8 (le_value (raw_bytes compressed_enabled other))).

(** [DecoderData::operator==]: compares [m_bytecode], [m_handler],
    [idxend] and [instr]. *)
Definition operator_eq (d other : DecoderData) : bool :=
  (m_bytecode d =? m_bytecode other) && (m_handler d =? m_handler other)
  && (idxend d =? idxend other) && (instr d =? instr other).

(** ** [decoder_cache_serialize.hpp], the portable encoding

    [serialize_cache_manually] and [deserialize_decoder_cache_manually]
    write and read a cache field by field.  The older revision of the
    header has the same two bodies under the names
    [serialize_whole_decoder_cache] and [deserialize_decoder_cache(bytes,
    n)].  Both use [d.icount], which exists only with compressed
    instructions: the templates are instantiated in that build alone, and
    [compressed_enabled] is [true] throughout this section. *)

(** The eight [push_back]s of one descriptor. *)
Definition manual_bytes (d : DecoderData) : list Z :=
  [ m_bytecode d; m_handler d;
    to_uint8 (idxend d); to_uint8 (icount d);
    to_uint8 (Z.land (Z.shiftr (instr d) 0) 255);
    to_uint8 (Z.land (Z.shiftr (instr d) 8) 255);
    to_uint8 (Z.land (Z.shiftr (instr d) 16) 255);
    to_uint8 (Z.land (Z.shiftr (instr d) 24) 255) ].

(** [serialize_cache_manually(caches, n)]:
    - [n == 0] returns the empty vector;
    - [int size = n * caches[0].size() * sizeof(DecoderData<W>)] and
      [out.reserve(size)], which throws for a negative [size];
    - [for (i = 0; i < n; i++)] appends the bytes of every descriptor of
      [caches[i]]; nothing compares [i] with the length of the array. *)
Definition serialize_cache_manually (caches : list DecoderCache) (n : Z)
  : result (list Z) :=
  let n := to_int n in
  if n =? 0 then Ok []
  else
    let size := to_int (to_size_t n * SIZE true * sizeof_DecoderData) in
    if size <? 0 then Throw length_error
    else if Z.of_nat (length caches) <? n then Throw out_of_bounds
    else
      Ok (concat (map (fun decoder_cache =>
                         concat (map manual_bytes (cache decoder_cache)))
                      (take (Z.to_nat n) caches))).

(** The descriptor [d] that the loader assembles from
    [bytes[offset + 0 .. offset + 7]]. *)
Definition read_manual (bytes : list Z) (offset : nat) : result DecoderData :=
  match take 8 (drop offset bytes) with
  | [b0; b1; b2; b3; b4; b5; b6; b7] =>
      Ok (mkDecoderData b0 b1 b2 b3
            (Z.lor (Z.lor (Z.lor b4 (Z.shiftl b5 8)) (Z.shiftl b6 16))
                   (Z.shiftl b7 24)))
  | _ => Throw out_of_bounds
  end.

Section PortableEncoding.
Context {Handler : Type} `{Countable Handler}.
Variable decode : Z -> Instruction Handler.

(** The inner loop [for (i = 0; i < num_entries; i++)]: read [d], and
    [if (d.m_handler != 0) d.set_handler(CPU<W>::decode({d.instr}))];
    [offset += 8]. *)
Fixpoint load_slots (t : HandlerTables Handler) (bytes : list Z) (offset : nat)
    (num_entries : nat) : result (HandlerTables Handler * list DecoderData) :=
  match num_entries with
  | O => Ok (t, [])
  | S k =>
      do d <- read_manual bytes offset;
      do '(t1, d1) <- (if m_handler d =? 0 then Ok (t, d)
                       else set_handler t d (decode (instr d)));
      do '(t2, ds) <- load_slots t1 bytes (offset + 8)%nat k;
      Ok (t2, d1 :: ds)
  end.

(** The outer loop [for (p = 0; p < n; ++p)]. *)
Fixpoint load_pages (t : HandlerTables Handler) (bytes : list Z) (offset : nat)
    (num_entries n : nat) : result (HandlerTables Handler * list DecoderCache) :=
  match n with
  | O => Ok (t, [])
  | S n' =>
      do '(t1, ds) <- load_slots t bytes offset num_entries;
      do '(t2, cs) <- load_pages t1 bytes (offset + 8 * num_entries)%nat num_entries n';
      Ok (t2, mkDecoderCache ds :: cs)
  end.

(** [deserialize_decoder_cache_manually(bytes, n)]:
    - [new DecoderCache<W>[n]] with [int n], which throws for a negative
      [n];
    - [num_entries = cache[0].size()], the constant [SIZE];
    - [bytes.size() != n * num_entries * sizeof(DecoderData<W>)] throws
      [std::runtime_error];
    - the two loops. *)
Definition deserialize_decoder_cache_manually (t : HandlerTables Handler)
    (bytes : list Z) (n : Z) : result (list DecoderCache * HandlerTables Handler) :=
  let n := to_int n in
  if n <? 0 then Throw bad_array_new_length
  else
    let num_entries := SIZE true in
    let required_size := to_size_t (to_size_t n * num_entries * sizeof_DecoderData) in
    if negb (Z.of_nat (length bytes) =? required_size) then Throw runtime_error
    else
      do '(t', caches) <- load_pages t bytes 0 (Z.to_nat num_entries) (Z.to_nat n);
      Ok (caches, t').

(** [t'] extends [t]: the handlers registered in [t] keep their index. *)
Definition handlers_extend (t t' : HandlerTables Handler) : Prop :=
  handler_count t <= handler_count t' /\
  forall k, 0 <= k < handler_count t ->
    instr_handlers t' !! Z.to_nat k = instr_handlers t !! Z.to_nat k.

(** The handlers of [S] that are not registered yet still fit into the
    256-entry handler array. *)
Definition handlers_fit (S : gset Handler) (t : HandlerTables Handler) : Prop :=
  handler_count t + Z.of_nat (base.size (S ∖ dom (handler_cache t))) <= 256.

(** [d'] is the stored descriptor [d] with its handler bound again: every
    field but [m_handler] is the stored one, a stored handler index 0 stays
    0, and any other is replaced by an index registered in [t] whose entry
    is the handler that [decode] gives for [instr]. *)
Definition relinked (t : HandlerTables Handler) (d d' : DecoderData) : Prop :=
  d' = set_m_handler d (m_handler d') /\
  (m_handler d = 0 -> m_handler d' = 0) /\
  (m_handler d <> 0 ->
   0 <= m_handler d' < handler_count t /\
   get_handler t d' = Some (handler (decode (instr d)))).

(** A stored descriptor whose encoding is a 32-bit value and whose
    handler, if it has one, is among the handlers of [S]. *)
Definition wanted (S : gset Handler) (d : DecoderData) : Prop :=
  0 <= instr d < 2 ^ 32 /\
  (m_handler d <> 0 -> handler (decode (instr d)) ∈ S).

End PortableEncoding.

(** A page of a build with compressed instructions, as a cache file holds
    it: slots 0 and 1 carry handler index 1, the other slots are blank. *)
Definition example_compressed_slots : list DecoderData :=
  mkDecoderData 1 1 1 0 0x00000013 :: mkDecoderData 1 1 0 0 0x00A00093
  :: replicate 2046 blank_descriptor.
Definition example_compressed_caches : list DecoderCache :=
  [ mkDecoderCache example_compressed_slots ].

(** ** What the system calls leave alone *)

(** [machine'] has the registers and the descriptor table of [machine]
    and has printed what [machine] had printed, and possibly more. *)
Definition same_registers (machine machine' : Machine) : Prop :=
  cpu_regs machine' = cpu_regs machine /\
  m_fds machine' = m_fds machine /\
  exists out, printed machine' = printed machine ++ out.

(** [machine'] differs from [machine] in no register but a0, has its
    descriptor table, and has printed what [machine] had printed, and
    possibly more. *)
Definition only_a0 (machine machine' : Machine) : Prop :=
  length (cpu_regs machine') = length (cpu_regs machine) /\
  (forall i, i <> REG_ARG0 -> reg machine' i = reg machine i) /\
  m_fds machine' = m_fds machine /\
  exists out, printed machine' = printed machine ++ out.

(** The spans that the loop of [syscall_writev] gathers for a sequence of
    guest iovecs: one [gather_buffers_from_range] per iovec, in order. *)
Fixpoint gather_all (mops : MemoryOps) (mem : Memory) (vec : list guest_iovec)
  : result (list vBuffer * Memory) :=
  match vec with
  | [] => Ok ([], mem)
  | iov :: rest =>
      do '(buffers, mem1) <- gather_buffers_from_range mops mem 64
                               (iov_base iov) (iov_len iov);
      do '(more, mem2) <- gather_all mops mem1 rest;
      Ok (buffers ++ more, mem2)
  end.

(** [res += len_g] over the iovecs, in [ssize_t]. *)
Definition writev_total (vec : list guest_iovec) (res : Z) : Z :=
  fold_left (fun r iov => to_ssize_t (r + iov_len iov)) vec res.

(** The sum of the lengths of a sequence of iovecs. *)
Definition iov_total (vec : list guest_iovec) : Z :=
  fold_right Z.add 0 (map iov_len vec).

(** The memory with the iovec [{0x3000, 5}] at 0x2000 and the five bytes
    of "Hello" at 0x3000. *)
Definition example_writev_memory : Memory :=
  match memcpy (example_memory 16) 0x2000 (le_bytes 8 0x3000 ++ le_bytes 8 5) with
  | Ok mem =>
      match memcpy mem 0x3000 [72; 101; 108; 108; 111] with
      | Ok mem' => mem'
      | Throw _ => mem
      end
  | Throw _ => example_memory 16
  end.

(** The memory with [new = {0x1237, SA_ONSTACK | 4, 0x55}] stored at
    0x2000. *)
Definition example_sigaction_memory2 : Memory :=
  match memcpy (example_memory 16) 0x2000
          (kernel_sigaction_bytes W8 (mk_kernel_sigaction 0x1237 (SA_ONSTACK + 4) 0x55)) with
  | Ok mem => mem
  | Throw _ => example_memory 16
  end.

(** ** More of [memory.cpp]: reset, shared pages, symbol lookup *)

(** [Page::cow_page()]: the static [zeroed_page], read-only, zeroed and
    copy-on-write.  The attributes its initialiser does not name keep
    their default, taken to be [false] as for [new_Page]. *)
Definition cow_page : Page :=
  mkPage (mkPageAttributes true false false false true)
         (replicate (Z.to_nat PageSize) 0).

(** [Memory<W>::clear_all_pages]: every page that is not shared is
    deleted, the page table is emptied and both page caches are reset.
    The second component lists the deleted pages (in the iteration order
    of the table). *)
Definition clear_all_pages (mem : Memory) : Memory * list Page :=
  (set_paging mem ∅ (m_pages_highest mem) (-1) (-1),
   filter (fun pg => shared (attr pg) = false) (map snd (map_to_list (m_pages mem)))).

(** Modelled from the spec: [Memory::create_page] is defined in
    [memory.hpp], which is not among the sources.  The spec: "same as
    allocate_page but used during initial paging". *)
Definition create_page (mem : Memory) (page : Z) : Memory * Page :=
  allocate_page mem page.

(** [Memory<W>::initial_paging]: [clear_all_pages()], then
    [zp = create_page(0)] and
    [zp.attr = { .read = false, .write = false, .exec = false }]; the
    attributes not named are reset to their default, [false]. *)
Definition initial_paging (mem : Memory) : Memory :=
  let '(mem1, _) := clear_all_pages mem in
  let '(mem2, zp) := create_page mem1 0 in
  set_paging mem2
    (<[0 := mkPage (mkPageAttributes false false false false false) (page_data zp)]>
       (m_pages mem2))
    (m_pages_highest mem2) (m_current_rd_page mem2) (m_current_wr_page mem2).

Section SharedPages.

(** [Memory::get_pageno(pageno)], the page that a read of [pageno] sees:
    defined in [memory.hpp], which is not among the sources, and a
    parameter here. *)
Variable get_pageno : Memory -> Z -> Page.

(** [Memory<W>::install_shared_page]: the two checks, then
    [m_pages.insert({pageno, &shared_page})], which keeps an element that
    is already there. *)
Definition install_shared_page (mem : Memory) (pageno : Z) (shared_page : Page)
  : result Memory :=
  if negb (is_cow (attr (get_pageno mem pageno))) then Throw ILLEGAL_OPERATION
  else if negb (shared (attr shared_page)) then Throw ILLEGAL_OPERATION
  else
    Ok (set_paging mem
          (match m_pages mem !! pageno with
           | Some _ => m_pages mem
           | None => <[pageno := shared_page]> (m_pages mem)
           end)
          (m_pages_highest mem) (m_current_rd_page mem) (m_current_wr_page mem)).

End SharedPages.

(** A [get_pageno] for the examples: the mapped page, or the
    copy-on-write zero page where nothing is mapped. *)
Definition example_get_pageno (mem : Memory) (pageno : Z) : Page :=
  default cow_page (m_pages mem !! pageno).

(** A shared page of 0xAA bytes, and a memory in which page 3 is mapped
    with a copy-on-write page. *)
Definition example_shared_page : Page :=
  mkPage (mkPageAttributes true false false true false)
         (replicate (Z.to_nat PageSize) 0xAA).
Definition example_cow_memory : Memory :=
  set_paging (example_memory 16) (<[3 := cow_page]> (m_pages (example_memory 16)))
    2 (-1) (-1).

(** [Elf<W>::Sym], the members that [lookup] reads, and the macros of
    [elf.h] it uses. *)
Record Sym : Type := mkSym { st_name : Z; st_info : Z; st_value : Z; st_size : Z }.

#[global] Instance Sym_eq_dec : EqDecision Sym.
Proof. solve_decision. Defined.

Definition ELF32_ST_TYPE (info : Z) : Z := Z.land info 0xf.
Definition STT_FUNC : Z := 2.

(** [struct Callsite { name; address; offset }]. *)
Module Site.
Record Callsite (Name : Type) : Type := mk { name : Name; address : Z; offset : Z }.
Arguments mk {Name} name address offset.
Arguments name {Name} c.
Arguments address {Name} c.
Arguments offset {Name} c.
End Site.

Section Lookup.
Context {Name : Type}.
Variable W : Width.

(** [__cxa_demangle], of the C++ runtime: the demangled name, or a null
    pointer. *)
Variable cxa_demangle : Name -> option Name.

(** The lambda [result] of [lookup]; [strtab] gives the C string at an
    offset of the string table. *)
Definition lookup_result (strtab : Z -> Name) (addr : Z) (sym : Sym)
  : Site.Callsite Name :=
  let symname := strtab (st_name sym) in
  Site.mk (default symname (cxa_demangle symname))
          (st_value sym)
          (to_address W (addr - st_value sym)).

(** The loop of [lookup] over the symbol table, with the current [best]
    guess, and the two [return]s after it. *)
Fixpoint lookup_loop (strtab : Z -> Name) (symtab : list Sym) (address : Z)
    (best : option Sym) : option (Site.Callsite Name) :=
  match symtab with
  | [] => lookup_result strtab address <$> best
  | sym :: rest =>
      if negb (ELF32_ST_TYPE (st_info sym) =? STT_FUNC) then
        lookup_loop strtab rest address best
      else if (address >=? st_value sym)
              && (address <? to_address W (st_value sym + st_size sym)) then
        Some (lookup_result strtab address sym)
      else if address >? st_value sym then
        lookup_loop strtab rest address (Some sym)
      else lookup_loop strtab rest address best
  end.

(** [Memory<W>::lookup(address)].  [sym_hdr] and [str_hdr] are what
    [section_by_name] finds for [.symtab] and [.strtab]: the entries of
    the symbol table and the string table, or nothing.  [None] is the
    empty [Callsite] [{}]. *)
Definition lookup (sym_hdr : option (list Sym)) (str_hdr : option (Z -> Name))
    (address : Z) : option (Site.Callsite Name) :=
  match sym_hdr with
  | None => None
  | Some symtab =>
      match str_hdr with
      | None => None
      | Some strtab =>
          if address =? 0 then None
          else lookup_loop strtab symtab address None
      end
  end.

(** A function symbol, one that contains [address], and one that lies
    below it. *)
Definition is_func (sym : Sym) : Prop := ELF32_ST_TYPE (st_info sym) = STT_FUNC.
Definition contains (address : Z) (sym : Sym) : Prop :=
  is_func sym /\
  st_value sym <= address < to_address W (st_value sym + st_size sym).
Definition precedes (address : Z) (sym : Sym) : Prop :=
  is_func sym /\ st_value sym < address.

#[global] Instance contains_dec address sym : Decision (contains address sym).
Proof. unfold contains, is_func. apply _. Defined.
#[global] Instance precedes_dec address sym : Decision (precedes address sym).
Proof. unfold precedes, is_func. apply _. Defined.

End Lookup.

(** A symbol table for the examples: [main] at 0x1000 (0x40 bytes), an
    object, and [_start] at 0x100 (0x20 bytes); names are offsets into
    the string table. *)
Definition example_symtab : list Sym :=
  [ mkSym 1 0x12 0x1000 0x40; mkSym 6 0x11 0x3000 0x100; mkSym 11 0x12 0x100 0x20 ].

(** A machine whose descriptor table maps vfd 3 to the host descriptor 7,
    about to call [readv(3, 0x2000, 1)] on [example_writev_memory]. *)
Definition example_fd_machine : Machine :=
  with_args (mkMachine (replicate 32 0) example_writev_memory ∅
               (Some (mkFileDescriptors {[ 3 := 7 ]} true)) [])
            3 0x2000 1.

(** ** [decoder_cache_serialize.hpp]: single caches, and the earlier raw
    format *)

(** [serialize_decoder_cache_exp(decoder_cache)]: a raw copy of
    [size() * sizeof(DecoderData<W>)] bytes of the array. *)
Definition serialize_decoder_cache_exp (compressed_enabled : bool)
    (decoder_cache : DecoderCache) : result (list Z) :=
  let num_bytes := SIZE compressed_enabled * sizeof_DecoderData in
  let image := descriptors_image compressed_enabled (cache decoder_cache) in
  if Z.of_nat (length image) <? num_bytes then Throw out_of_bounds
  else Ok (take (Z.to_nat num_bytes) image).

(** [deserialize_cache_item_exp(bytes)]: the cache whose array is the
    memory at [bytes]; nothing is copied. *)
Definition deserialize_cache_item_exp (compressed_enabled : bool) (bytes : list Z)
  : DecoderCache :=
  mkDecoderCache
    (read_descriptors compressed_enabled (Z.to_nat (SIZE compressed_enabled)) bytes).

(** The earlier revision of the header: the raw format is the array of
    caches and nothing else, and the handler tables are neither written
    nor read. *)
Module Rev1.

(** The loop of [serialize_whole_decoder_cache]:
    [out.insert(out.end(), v.begin(), v.end())] for the image [v] of each
    cache. *)
Fixpoint serialize_each (compressed_enabled : bool) (caches : list DecoderCache)
  : result (list Z) :=
  match caches with
  | [] => Ok []
  | decoder_cache :: rest =>
      do v <- serialize_decoder_cache_exp compressed_enabled decoder_cache;
      do out <- serialize_each compressed_enabled rest;
      Ok (v ++ out)
  end.

(** [serialize_whole_decoder_cache(caches, n)] of that revision. *)
Definition serialize_whole_decoder_cache (compressed_enabled : bool)
    (caches : list DecoderCache) (n : Z) : result (list Z) :=
  let n := to_int n in
  if n =? 0 then Ok []
  else
    let size := to_int (to_size_t n * SIZE compressed_enabled * sizeof_DecoderData) in
    if size <? 0 then Throw length_error
    else if Z.of_nat (length caches) <? n then Throw out_of_bounds
    else serialize_each compressed_enabled (take (Z.to_nat n) caches).

(** [deserialize_decoder_cache(data, n, L)] of that revision (LOAD_EXP):
    [new DecoderCache<W>[n]], the check [L != required_size] (in
    [size_t]), and [cache[i] = deserialize_cache_item_exp(data + i *
    (num_entries * sizeof(DecoderData<W>)))].  The caches are views of
    [data]; a buffer shorter than the views is the failure
    [out_of_bounds]. *)
Definition deserialize_decoder_cache (compressed_enabled : bool)
    (data : list Z) (n L : Z) : result (list DecoderCache) :=
  let n := to_int n in
  let L := to_int L in
  if n <? 0 then Throw bad_array_new_length
  else
    let num_entries := SIZE compressed_enabled in
    let required_size := to_size_t (to_size_t n * num_entries * sizeof_DecoderData) in
    if negb (to_size_t L =? required_size) then Throw runtime_error
    else if Z.of_nat (length data) <? required_size then Throw out_of_bounds
    else
      Ok (map (fun i : nat =>
                 deserialize_cache_item_exp compressed_enabled
                   (drop (Z.to_nat (Z.of_nat i * (num_entries * sizeof_DecoderData))) data))
              (seq 0 (Z.to_nat n))).

End Rev1.

(** ** The ELF loader of [memory.cpp] *)

(** The members of [Elf<W>::Ehdr] and [Elf<W>::Phdr] that the loader
    reads, and the constants of [elf.h] it uses.  [Memory<4>] is the
    instantiation of the file: the headers are those of ELF32, with 32-bit
    unsigned members. *)
Record Ehdr : Type := mkEhdr { e_entry : Z; e_phoff : Z; e_phnum : Z }.
Record Phdr : Type := mkPhdr {
  p_type : Z; p_offset : Z; p_vaddr : Z; p_filesz : Z; p_flags : Z
}.

#[global] Instance Phdr_eq_dec : EqDecision Phdr.
Proof. solve_decision. Defined.

Definition PT_LOAD : Z := 1.
Definition PT_GNU_STACK : Z := 0x6474e551.
Definition PT_GNU_RELRO : Z := 0x6474e552.
Definition PF_X : Z := 1.
Definition PF_W : Z := 2.
Definition PF_R : Z := 4.
Definition sizeof_Phdr : Z := 32.

(** What the loader calls and the sources do not hold: [validate_header]
    (of [elf.hpp]), [Memory::memcpy], [Memory::set_page_attr] and
    [resolve_address("_exit")] (of [memory.hpp]).  The two that touch guest
    memory may throw. *)
Record LoaderOps : Type := mkLoaderOps {
  validate_header : Ehdr -> bool;
  loader_memcpy : Memory -> Z -> list Z -> result Memory;
  set_page_attr : Memory -> Z -> Z -> PageAttributes -> result Memory;
  resolve_address : Memory -> Z
}.

(** The members of [Memory] that describe the loaded program. *)
Definition set_layout (mem : Memory) (start stack exit elf_end : Z) : Memory :=
  mkMemory (m_pages mem) (m_pages_total mem) (m_pages_highest mem)
    (m_current_rd_page mem) (m_current_wr_page mem)
    start stack (m_heap_address mem) exit elf_end (m_protect_segments mem).

Section Loader.
Variable ops : LoaderOps.
(** [m_binary] *)
Variable binary : list Z.

(** [Memory<W>::binary_load_ph(hdr)]. *)
Definition binary_load_ph (mem : Memory) (hdr : Phdr) : result Memory :=
  let len := p_filesz hdr in
  if Z.of_nat (length binary) <? p_offset hdr + len then Throw runtime_error
  else
    let src := take (Z.to_nat len) (drop (Z.to_nat (p_offset hdr)) binary) in
    do mem1 <- loader_memcpy ops mem (p_vaddr hdr) src;
    let readable := negb (Z.land (p_flags hdr) PF_R =? 0) in
    let writable := negb (Z.land (p_flags hdr) PF_W =? 0) in
    let executable := negb (Z.land (p_flags hdr) PF_X =? 0) in
    do mem2 <- set_page_attr ops mem1 (p_vaddr hdr) len
                 (if m_protect_segments mem1
                  then mkPageAttributes readable writable executable false false
                  else mkPageAttributes true true true false false);
    let mem3 := set_layout mem2 (m_start_address mem2) (m_stack_address mem2)
                  (m_exit_address mem2)
                  (Z.max (m_elf_end_vaddr mem2) (wrap 32 (p_vaddr hdr + len))) in
    Ok (set_layout mem3 (m_start_address mem3) (m_stack_address mem3)
          (resolve_address ops mem3) (m_elf_end_vaddr mem3)).

(** The loop of [binary_loader] over the program headers. *)
Fixpoint load_segments (mem : Memory) (hdrs : list Phdr) : result Memory :=
  match hdrs with
  | [] => Ok mem
  | hdr :: rest =>
      do mem1 <-
        (if p_type hdr =? PT_LOAD then binary_load_ph mem hdr
         else if p_type hdr =? PT_GNU_STACK then
           Ok (set_layout mem (m_start_address mem) (p_vaddr hdr)
                 (m_exit_address mem) (m_elf_end_vaddr mem))
         else Ok mem);
      load_segments mem1 rest
  end.

(** [Memory<W>::binary_loader()].  [elf] is the ELF header at the start
    of the binary and [phdr] the [e_phnum] program headers at [e_phoff]. *)
Definition binary_loader (elf : Ehdr) (phdr : list Phdr) (mem : Memory)
  : result Memory :=
  if Z.of_nat (length binary) <? 64 then Throw runtime_error
  else if negb (validate_header ops elf) then Throw runtime_error
  else
    let program_headers := e_phnum elf in
    if program_headers <=? 0 then Throw runtime_error
    else if Z.of_nat (length binary) <? e_phoff elf + program_headers * sizeof_Phdr
    then Throw runtime_error
    else
      match phdr with
      | [] => Throw out_of_bounds
      | first :: _ =>
          let program_begin := p_vaddr first in
          load_segments
            (set_layout mem (e_entry elf) program_begin
               (m_exit_address mem) (m_elf_end_vaddr mem))
            phdr
      end.

(** The memory operations of the loader leave the description of the
    loaded program alone. *)
Definition same_layout (mem mem' : Memory) : Prop :=
  m_start_address mem' = m_start_address mem /\
  m_stack_address mem' = m_stack_address mem /\
  m_elf_end_vaddr mem' = m_elf_end_vaddr mem /\
  m_protect_segments mem' = m_protect_segments mem.

Definition loader_ops_frame : Prop :=
  (forall mem dst src mem',
     loader_memcpy ops mem dst src = Ok mem' -> same_layout mem mem') /\
  (forall mem addr len attrs mem',
     set_page_attr ops mem addr len attrs = Ok mem' -> same_layout mem mem').

(** The memory operations of the loader never throw. *)
Definition loader_ops_total : Prop :=
  (forall mem dst src, exists mem', loader_memcpy ops mem dst src = Ok mem') /\
  (forall mem addr len attrs, exists mem', set_page_attr ops mem addr len attrs = Ok mem').

(** A loadable segment, its end in guest memory, and whether the file
    holds it. *)
Definition is_load (hdr : Phdr) : Prop := p_type hdr = PT_LOAD.
Definition segment_end (hdr : Phdr) : Z := wrap 32 (p_vaddr hdr + p_filesz hdr).
Definition segment_in_file (hdr : Phdr) : Prop :=
  p_offset hdr + p_filesz hdr <= Z.of_nat (length binary).
Definition is_stack (hdr : Phdr) : Prop := p_type hdr = PT_GNU_STACK.

#[global] Instance is_stack_dec hdr : Decision (is_stack hdr).
Proof. unfold is_stack. apply _. Defined.
#[global] Instance is_load_dec hdr : Decision (is_load hdr).
Proof. unfold is_load. apply _. Defined.
#[global] Instance segment_in_file_dec hdr : Decision (segment_in_file hdr).
Proof. unfold segment_in_file. apply _. Defined.

End Loader.

(** A loader for the examples: any header is valid, the copies do
    nothing, [_exit] is at 0x10074.  A 128-byte binary with two program
    headers at offset 52: a loadable segment and a stack marker. *)
Definition example_loader_ops : LoaderOps :=
  mkLoaderOps (fun _ => true) (fun mem _ _ => Ok mem) (fun mem _ _ _ => Ok mem)
              (fun _ => 0x10074).
Definition example_binary : list Z := replicate 128 0.
Definition example_ehdr : Ehdr := mkEhdr 0x10074 52 2.
Definition example_phdrs : list Phdr :=
  [ mkPhdr PT_LOAD 0 0x10000 128 5; mkPhdr PT_GNU_STACK 0 0x7FFF0000 0 6 ].

(** A run of page faults, one per page number of the list, as a copy that
    walks over unmapped pages causes them: each is handled by
    [default_page_fault], and the first failure ends the run. *)
Fixpoint page_faults (mem : Memory) (pages : list Z) : result Memory :=
  match pages with
  | [] => Ok mem
  | page :: rest =>
      do '(mem1, _) <- default_page_fault mem page;
      page_faults mem1 rest
  end.

(* ================================================================== *)
(** * Part II: properties                                               *)
(* ================================================================== *)

(** ** Machine integers *)

Lemma land_255 v : Z.land v 255 = v mod 256.
Proof. change 255 with (Z.ones 8). rewrite Z.land_ones by lia. reflexivity. Qed.

Lemma lor_shiftl_8 a b :
  0 <= a < 256 -> 0 <= b -> Z.lor a (Z.shiftl b 8) = a + 256 * b.
Proof.
  intros Ha Hb.
  assert (Hdisj : Z.land a (Z.shiftl b 8) = 0).
  { apply Z.bits_inj'. intros i Hi.
    rewrite Z.land_spec, Z.bits_0.
    destruct (Z.lt_ge_cases i 8) as [Hlt | Hge].
    - rewrite (Z.shiftl_spec_low b 8 i) by lia. apply andb_false_r.
    - replace (Z.testbit a i) with false; [reflexivity |].
      symmetry. destruct (Z.eq_dec a 0) as [-> | Hne]; [apply Z.bits_0 |].
      apply Z.bits_above_log2; [lia |].
      apply Z.log2_lt_pow2; [lia |].
      apply Z.lt_le_trans with (2 ^ 8); [lia |].
      apply Z.pow_le_mono_r; lia. }
  rewrite <- Z.lxor_lor by exact Hdisj.
  rewrite <- Z.add_nocarry_lxor by exact Hdisj.
  rewrite Z.shiftl_mul_pow2 by lia. lia.
Qed.

Lemma le_value_le_bytes w v :
  0 <= v < 2 ^ (8 * Z.of_nat w) -> le_value (le_bytes w v) = v.
Proof.
  revert v. induction w as [| w IH]; intros v Hv.
  - simpl in *. lia.
  - cbn [le_bytes le_value].
    assert (Hpow : 2 ^ (8 * Z.of_nat (S w)) = 256 * 2 ^ (8 * Z.of_nat w)).
    { replace (8 * Z.of_nat (S w)) with (8 + 8 * Z.of_nat w) by lia.
      rewrite Z.pow_add_r by lia. reflexivity. }
    rewrite Z.shiftr_div_pow2 by lia. change (2 ^ 8) with 256.
    rewrite IH.
    + rewrite land_255, lor_shiftl_8.
      * pose proof (Z.div_mod v 256). lia.
      * apply Z.mod_pos_bound. lia.
      * apply Z.div_pos; lia.
    + split; [apply Z.div_pos; lia |].
      apply Z.div_lt_upper_bound; lia.
Qed.

Lemma length_le_bytes w v : length (le_bytes w v) = w.
Proof. revert v. induction w as [| w IH]; intros v; simpl; [| rewrite IH]; reflexivity. Qed.

Lemma wrap_small bits v : 0 <= v < 2 ^ bits -> wrap bits v = v.
Proof. intros Hv. unfold wrap. apply Z.mod_small. exact Hv. Qed.

Lemma to_int_small v : - 2 ^ 31 <= v < 2 ^ 31 -> to_int v = v.
Proof. intros Hv. unfold to_int. rewrite Z.mod_small by lia. lia. Qed.

(** ** [DecoderData]: block size and instruction count *)

Lemma SIZE_value c : SIZE c = if c then 2048 else 1024.
Proof. destruct c; reflexivity. Qed.

(** C7, as stated, fails in both builds.  With compressed instructions the
    representable descriptor [idxend = 0, icount = 1] has instruction count
    0; without them the representable descriptor [idxend = 2000] has
    [block_bytes = 8000 > PageSize]. *)
Lemma decoder_data_bounds_counterexample :
  (representable true (mkDecoderData 0 0 0 1 0) /\
   ~ instruction_count true (mkDecoderData 0 0 0 1 0) >= 1) /\
  (representable false (mkDecoderData 0 0 2000 0 0) /\
   ~ block_bytes false (mkDecoderData 0 0 2000 0 0) <= PageSize).
Proof.
  unfold representable, instruction_count, block_bytes, PageSize; cbn.
  repeat split; lia.
Qed.

(** C7 (amended): for every representable [DecoderData],
    [instruction_count >= 1] exactly when [icount <= idxend], and
    [block_bytes <= PageSize] exactly when [idxend] is at most the number
    of slots of a page ([SIZE]).  With compressed instructions the second
    always holds, without them the first always holds. *)
Theorem decoder_data_bounds c d :
  representable c d ->
  (instruction_count c d >= 1 <-> icount d <= idxend d) /\
  (block_bytes c d <= PageSize <-> idxend d <= SIZE c) /\
  (c = true -> block_bytes c d <= PageSize) /\
  (c = false -> instruction_count c d >= 1).
Proof.
  intros (_ & _ & Hidx & Hic & _).
  rewrite SIZE_value. unfold instruction_count, block_bytes, PageSize.
  destruct c; repeat split; intros; try lia; try discriminate.
Qed.

(** ** System calls *)

Section SyscallProperties.
Variable W : Width.
Variable BRK_MAX : Z.
Variable mops : MemoryOps.
Variable host : HostOS.

Lemma XLEN_pos : 0 < XLEN W.
Proof. destruct W; reflexivity. Qed.

Lemma reg_set_regs_eq machine v :
  (REG_ARG0 < length (cpu_regs machine))%nat ->
  reg (set_regs machine (<[REG_ARG0 := v]> (cpu_regs machine))) REG_ARG0 = v.
Proof.
  intros Hlen. unfold reg, set_regs; cbn [cpu_regs].
  rewrite list_lookup_insert_eq by exact Hlen. reflexivity.
Qed.

Lemma return_value_set_result machine v :
  length (cpu_regs machine) = 32%nat ->
  return_value (set_result W machine v) = to_address W v.
Proof.
  intros Hlen. unfold return_value, set_result.
  apply reg_set_regs_eq. rewrite Hlen. unfold REG_ARG0. lia.
Qed.

Lemma reg_set_result_ne machine v i :
  i <> REG_ARG0 -> reg (set_result W machine v) i = reg machine i.
Proof.
  intros Hi. unfold reg, set_result, set_regs; cbn [cpu_regs].
  rewrite list_lookup_insert_ne by congruence. reflexivity.
Qed.

Lemma reg_bounds machine i :
  machine_wf W machine -> 0 <= reg machine i < 2 ^ XLEN W.
Proof.
  intros [_ Hall]. unfold reg.
  destruct (cpu_regs machine !! i) as [v |] eqn:Hv; cbn.
  - rewrite Forall_forall in Hall. apply Hall.
    apply list_elem_of_lookup. eauto.
  - pose proof XLEN_pos. split; [lia | apply Z.pow_pos_nonneg; lia].
Qed.

(** C5: [brk] returns the requested address clamped into
    [[heap_address, heap_address + BRK_MAX]] (an interval of guest
    addresses: its upper end is below [2 ^ XLEN]); in the configuration of
    the spec, [brk(0x90000000)] is [0x81000000] and [brk(0)] is
    [0x80000000]. *)
Theorem syscall_brk_clamp machine :
  machine_wf W machine ->
  0 <= heap_address (memory machine) ->
  0 <= BRK_MAX ->
  heap_address (memory machine) + BRK_MAX < 2 ^ XLEN W ->
  let x := sysarg machine 0 in
  let heap := heap_address (memory machine) in
  let r := return_value (syscall_brk W BRK_MAX machine) in
  r = Z.max heap (Z.min x (heap + BRK_MAX)) /\
  heap <= r <= heap + BRK_MAX /\
  (heap = 0x80000000 -> BRK_MAX = 0x1000000 ->
     (x = 0x90000000 -> r = 0x81000000) /\ (x = 0 -> r = 0x80000000)).
Proof.
  intros Hwf Hheap Hmax Hfit. cbv zeta.
  pose proof (reg_bounds machine (REG_ARG0 + 0) Hwf) as Hx.
  unfold syscall_brk. rewrite return_value_set_result by apply Hwf.
  unfold sysarg in *.
  generalize dependent (reg machine (REG_ARG0 + 0)). intros x Hx.
  generalize dependent (heap_address (memory machine)). intros heap Hheap Hfit.
  unfold to_address. rewrite (wrap_small _ (heap + BRK_MAX)) by lia.
  assert (Hr : wrap (XLEN W)
                 (if x >? heap + BRK_MAX then heap + BRK_MAX
                  else if x <? heap then heap else x)
               = Z.max heap (Z.min x (heap + BRK_MAX))).
  { destruct (Z.gtb_spec x (heap + BRK_MAX)).
    - rewrite wrap_small by lia. lia.
    - destruct (Z.ltb_spec x heap); rewrite wrap_small by lia; lia. }
  rewrite Hr. split; [reflexivity |]. split; [lia |].
  intros Hh Hb. split; intros Hxv; lia.
Qed.

(** C9: [brk] leaves the memory (page table, [heap_address] and every
    other member), the signal table, the descriptor table and the printed
    output as they were, and writes no register but a0. *)
Theorem syscall_brk_frame machine :
  memory (syscall_brk W BRK_MAX machine) = memory machine /\
  m_pages (memory (syscall_brk W BRK_MAX machine)) = m_pages (memory machine) /\
  heap_address (memory (syscall_brk W BRK_MAX machine)) = heap_address (memory machine) /\
  m_sigactions (syscall_brk W BRK_MAX machine) = m_sigactions machine /\
  m_fds (syscall_brk W BRK_MAX machine) = m_fds machine /\
  printed (syscall_brk W BRK_MAX machine) = printed machine /\
  (forall i, i <> REG_ARG0 ->
     reg (syscall_brk W BRK_MAX machine) i = reg machine i).
Proof.
  unfold syscall_brk. repeat split.
  intros i Hi. apply reg_set_result_ne. exact Hi.
Qed.

Lemma sysarg_with_args machine a0 a1 a2 :
  length (cpu_regs machine) = 32%nat ->
  sysarg (with_args machine a0 a1 a2) 0 = a0 /\
  sysarg (with_args machine a0 a1 a2) 1 = a1 /\
  sysarg (with_args machine a0 a1 a2) 2 = a2.
Proof.
  intros Hlen. unfold sysarg, reg, with_args, set_regs, REG_ARG0; cbn [cpu_regs Nat.add].
  repeat split.
  - rewrite !list_lookup_insert_ne by lia.
    rewrite list_lookup_insert_eq by lia. reflexivity.
  - rewrite list_lookup_insert_ne by lia.
    rewrite list_lookup_insert_eq by (rewrite length_insert; lia). reflexivity.
  - rewrite list_lookup_insert_eq by (rewrite !length_insert; lia). reflexivity.
Qed.

(** C8 (amended): [readv] on vfd 1 or 2, whether or not file descriptors
    are enabled, first checks the count: outside 1..128 the result is
    [-EINVAL]; inside it the result is [-EBADF].  Either way nothing else
    of the machine changes and neither the memory operations nor the host
    are used.  [write] and [writev] on vfd 1 or 2 instead gather the
    guest buffers and print them. *)
Theorem syscall_readv_stdout_stderr machine :
  sysarg_int machine 0 = 1 \/ sysarg_int machine 0 = 2 ->
  let count := sysarg_int machine 2 in
  (1 <= count <= 128 ->
     syscall_readv W mops host machine = Ok (set_result W machine (- EBADF))) /\
  (count < 1 \/ 128 < count ->
     syscall_readv W mops host machine = Ok (set_result W machine (- EINVAL))) /\
  (exists v, syscall_readv W mops host machine = Ok (set_result W machine v)) /\
  syscall_write W mops host machine =
    (do '(buffers, mem) <- gather_buffers_from_range mops (memory machine) 64
                             (sysarg machine 1) (sysarg machine 2);
     Ok (set_result W (print (set_memory machine mem) buffers) (sysarg machine 2))) /\
  (0 <= count <= 256 ->
     syscall_writev W mops host machine =
       (do '(bs, mem) <- memcpy_out mops (memory machine) (sysarg machine 1)
                           (Z.of_nat (2 * sizeof_address W) * count);
        do '(machine1, res, errno) <-
          writev_loop mops host (set_memory machine mem) (sysarg_int machine 0)
            (guest_iovecs_of_bytes W (Z.to_nat count) bs) 0%nat 0 (host_errno host);
        Ok (set_result_or_error W machine1 res errno))) /\
  (forall m iov rest i res errno,
     writev_loop mops host m (sysarg_int machine 0) (iov :: rest) i res errno =
       (do '(buffers, mem) <- gather_buffers_from_range mops (memory m) 64
                                (iov_base iov) (iov_len iov);
        writev_loop mops host (print (set_memory m mem) buffers) (sysarg_int machine 0)
          rest (S i) (to_ssize_t (res + iov_len iov)) errno)).
Proof.
  intros Hvfd count.
  assert (Hstd : (sysarg_int machine 0 =? 1) || (sysarg_int machine 0 =? 2) = true).
  { destruct Hvfd as [-> | ->]; reflexivity. }
  assert (Hreadv : forall v,
            ((count <? 1) || (count >? 128) = true -> v = - EINVAL) ->
            ((count <? 1) || (count >? 128) = false -> v = - EBADF) ->
            syscall_readv W mops host machine = Ok (set_result W machine v)).
  { intros v Hin Hout. unfold syscall_readv. fold count.
    destruct ((count <? 1) || (count >? 128)) eqn:Hc.
    - rewrite Hin by reflexivity. reflexivity.
    - rewrite Hstd. cbn. rewrite Hout by reflexivity. reflexivity. }
  split; [| split; [| split; [| split; [| split]]]].
  - intros Hcount. apply Hreadv; intros Hc; [| reflexivity].
    apply orb_true_iff in Hc. destruct Hc as [Hc | Hc]; lia.
  - intros Hcount. apply Hreadv; intros Hc; [reflexivity |].
    apply orb_false_iff in Hc. lia.
  - destruct ((count <? 1) || (count >? 128)) eqn:Hc.
    + exists (- EINVAL). apply Hreadv; intros; [reflexivity | congruence].
    + exists (- EBADF). apply Hreadv; intros; [congruence | reflexivity].
  - unfold syscall_write. rewrite Hstd. reflexivity.
  - intros Hcount. unfold syscall_writev. fold count.
    replace ((count <? 0) || (count >? 256)) with false
      by (symmetry; apply orb_false_iff; lia).
    rewrite Hstd.
    replace (sysarg_int machine 0 <? 0) with false
      by (symmetry; destruct Hvfd as [-> | ->]; reflexivity).
    reflexivity.
  - intros m iov rest i res errno. cbn [writev_loop]. rewrite Hstd. reflexivity.
Qed.

(** C6: [getrandom] with a length above 256 returns -1 and leaves the
    machine otherwise untouched (no guest memory is written); with a length
    of at most 256 for which the host obtains [result > 0] bytes it copies
    exactly those [result] bytes to the guest buffer and returns [result]
    (128 for the 128 bytes of the spec's scenario). *)
Theorem syscall_getrandom_bound machine :
  machine_wf W machine ->
  let g_addr := sysarg machine 0 in
  let g_len := sysarg machine 1 in
  (g_len > 256 ->
     syscall_getrandom W mops host machine = Ok (set_result W machine (-1)) /\
     memory (set_result W machine (-1)) = memory machine /\
     return_value (set_result W machine (-1)) = to_address W (-1)) /\
  (g_len <= 256 ->
     forall result buffer mem,
       host_getrandom host g_len = (result, buffer) ->
       0 < result <= g_len ->
       copy_to_guest mops (memory machine) g_addr (take (Z.to_nat result) buffer) = Ok mem ->
       syscall_getrandom W mops host machine
         = Ok (set_result W (set_memory machine mem) result) /\
       memory (set_result W (set_memory machine mem) result) = mem /\
       return_value (set_result W (set_memory machine mem) result) = result /\
       (g_len = 128 -> result = 128 ->
          return_value (set_result W (set_memory machine mem) result) = 128)).
Proof.
  intros Hwf g_addr g_len. split.
  - intros Hlen. unfold syscall_getrandom. fold g_len.
    replace (g_len >? 256) with true by (symmetry; apply Z.gtb_lt; lia).
    split; [reflexivity |]. split; [reflexivity |].
    apply return_value_set_result. apply Hwf.
  - intros Hlen result buffer mem Hhost Hres Hcopy.
    assert (Hwf' : machine_wf W (set_memory machine mem)) by exact Hwf.
    assert (Hret : return_value (set_result W (set_memory machine mem) result) = result).
    { rewrite return_value_set_result by apply Hwf'.
      apply wrap_small. pose proof (reg_bounds machine (REG_ARG0 + 1) Hwf) as Hb.
      fold (sysarg machine 1) in Hb. fold g_len in Hb. lia. }
    split; [| split; [reflexivity | split; [exact Hret |]]].
    + unfold syscall_getrandom. fold g_len. fold g_addr.
      replace (g_len >? 256) with false by (symmetry; rewrite Z.gtb_ltb; apply Z.ltb_ge; lia).
      rewrite Z.min_l by lia. rewrite Hhost.
      replace (result >? 0) with true by (symmetry; apply Z.gtb_lt; lia).
      rewrite Hcopy. reflexivity.
    + intros _ H128. rewrite Hret. exact H128.
Qed.

Lemma kernel_sigaction_bytes_inv h f k :
  0 <= h < 2 ^ 32 -> 0 <= f < 2 ^ 32 -> 0 <= k < 2 ^ 32 ->
  kernel_sigaction_of_bytes W (kernel_sigaction_bytes W (mk_kernel_sigaction h f k))
  = mk_kernel_sigaction h f k.
Proof.
  intros Hh Hf Hk.
  assert (Hw : forall v, 0 <= v < 2 ^ 32 ->
                 0 <= v < 2 ^ (8 * Z.of_nat (sizeof_address W))).
  { intros v Hv. destruct W; cbn; lia. }
  unfold kernel_sigaction_of_bytes, kernel_sigaction_bytes; cbn [sa_handler sa_flags sa_mask].
  set (w := sizeof_address W).
  assert (Ht : forall (a b : list Z), length a = w -> take w (a ++ b) = a).
  { intros a b Ha. rewrite take_app_length' by (symmetry; exact Ha). reflexivity. }
  assert (Hd : forall (a b : list Z), length a = w -> drop w (a ++ b) = b).
  { intros a b Ha. rewrite drop_app_length' by (symmetry; exact Ha). reflexivity. }
  rewrite Ht by apply length_le_bytes.
  rewrite Hd by apply length_le_bytes.
  rewrite Ht by apply length_le_bytes.
  replace (2 * w)%nat with (w + w)%nat by lia.
  rewrite <- drop_drop.
  rewrite Hd by apply length_le_bytes.
  rewrite Hd by apply length_le_bytes.
  rewrite firstn_all2 by (rewrite length_le_bytes; lia).
  subst w. rewrite !le_value_le_bytes by (apply Hw; assumption).
  reflexivity.
Qed.

(** C3 (amended): after [rt_sigaction(sig, new, NULL)] with
    [new = {handler = 0x1234, flags = SA_ONSTACK, mask = 0xF}] for a
    non-zero signal, the action of [sig] is [{0x1234, altstack, 0xF}], and
    [rt_sigaction(sig, NULL, &old)] copies to the guest address [old] the
    structure [{sa_handler = 0x1230, sa_flags = SA_ONSTACK, sa_mask = 0xF}]:
    the handler is reported with its low four bits cleared. *)
Theorem syscall_sigaction_round_trip machine sig action old mem1 :
  length (cpu_regs machine) = 32%nat ->
  to_int sig <> 0 -> action <> 0 -> old <> 0 ->
  copy_from_guest mops (memory machine) action (Z.of_nat (3 * sizeof_address W))
    = Ok (kernel_sigaction_bytes W (mk_kernel_sigaction 0x1234 SA_ONSTACK 0xF), mem1) ->
  exists machine1,
    syscall_sigaction W mops (with_args machine sig action 0) = Ok machine1 /\
    memory machine1 = mem1 /\
    return_value machine1 = 0 /\
    sigaction machine1 (to_int sig) = Sig.mk 0x1234 true 0xF /\
    syscall_sigaction W mops (with_args machine1 sig 0 old) =
      (do mem2 <- copy_to_guest mops mem1 old
                    (kernel_sigaction_bytes W
                       (mk_kernel_sigaction 0x1230 SA_ONSTACK 0xF));
       Ok (set_result W (set_memory (with_args machine1 sig 0 old) mem2) 0)).
Proof.
  intros Hlen Hsig Haction Hold Hnew.
  destruct (sysarg_with_args machine sig action 0 Hlen) as (Ha0 & Ha1 & Ha2).
  set (m0 := with_args machine sig action 0) in *.
  set (machine1 :=
         set_result W
           (set_sigaction (set_memory m0 mem1) (to_int sig) (Sig.mk 0x1234 true 0xF)) 0).
  assert (Hlen1 : length (cpu_regs machine1) = 32%nat).
  { subst machine1 m0.
    unfold set_result, set_sigaction, set_memory, with_args, set_regs; cbn [cpu_regs].
    rewrite !length_insert. exact Hlen. }
  exists machine1.
  assert (Hcall1 : syscall_sigaction W mops m0 = Ok machine1).
  { unfold syscall_sigaction, sysarg_int. rewrite Ha0, Ha1, Ha2.
    replace (to_int sig =? 0) with false by (symmetry; apply Z.eqb_neq; exact Hsig).
    replace (action =? 0) with false by (symmetry; apply Z.eqb_neq; exact Haction).
    cbn [Z.eqb negb bind].
    replace (memory m0) with (memory machine) by reflexivity.
    rewrite Hnew. cbn [bind].
    rewrite kernel_sigaction_bytes_inv by (unfold SA_ONSTACK; lia).
    reflexivity. }
  split; [exact Hcall1 |]. split; [reflexivity |].
  split.
  { subst machine1. rewrite return_value_set_result.
    - unfold to_address. apply Z.mod_0_l. pose proof XLEN_pos.
      apply Z.pow_nonzero; lia.
    - subst m0. unfold set_sigaction, set_memory, with_args, set_regs; cbn [cpu_regs].
      rewrite !length_insert. exact Hlen. }
  split.
  { unfold machine1, sigaction, set_result, set_regs, set_sigaction; cbn [m_sigactions].
    rewrite lookup_insert_eq. reflexivity. }
  destruct (sysarg_with_args machine1 sig 0 old Hlen1) as (Hb0 & Hb1 & Hb2).
  unfold syscall_sigaction, sysarg_int. rewrite Hb0, Hb1, Hb2.
  replace (to_int sig =? 0) with false by (symmetry; apply Z.eqb_neq; exact Hsig).
  replace (old =? 0) with false by (symmetry; apply Z.eqb_neq; exact Hold).
  cbn [Z.eqb negb].
  replace (sigaction (with_args machine1 sig 0 old) (to_int sig))
    with (Sig.mk 0x1234 true 0xF).
  2:{ unfold machine1, sigaction, with_args, set_result, set_regs, set_sigaction;
        cbn [m_sigactions]. rewrite lookup_insert_eq. reflexivity. }
  cbn [Sig.handler Sig.altstack Sig.mask].
  replace (Z.land 0x1234 (to_address W (Z.lnot 15))) with 0x1230
    by (destruct W; reflexivity).
  replace (to_address W 15) with 15 by (destruct W; reflexivity).
  replace (memory (with_args machine1 sig 0 old)) with mem1 by reflexivity.
  destruct (copy_to_guest mops mem1 old _); reflexivity.
Qed.

End SyscallProperties.

(** ** Paging *)

Lemma invalidate_page_pages mem pageno :
  m_pages (invalidate_page mem pageno) = m_pages mem /\
  m_pages_highest (invalidate_page mem pageno) = m_pages_highest mem /\
  m_pages_total (invalidate_page mem pageno) = m_pages_total mem.
Proof. repeat split. Qed.

(** C4 (amended): the quota is checked by [default_page_fault], which
    fails with OutOfMemory when [pages_active >= pages_total] and otherwise
    is [allocate_page]; [allocate_page] itself has no check and never
    fails.  On a page number that is not mapped it inserts a freshly zeroed
    owned page there, clears the cached page of each direction when it
    referred to that page number, and raises [pages_highest] to the new
    page count when that is larger. *)
Theorem allocate_page_spec mem page :
  (pages_active mem >= pages_total mem ->
     default_page_fault mem page = Throw OUT_OF_MEMORY) /\
  (pages_active mem < pages_total mem ->
     default_page_fault mem page = Ok (allocate_page mem page)) /\
  (m_pages mem !! page = None ->
     let mem' := fst (allocate_page mem page) in
     snd (allocate_page mem page) = new_Page /\
     m_pages mem' = <[page := new_Page]> (m_pages mem) /\
     Forall (fun b => b = 0) (page_data new_Page) /\
     shared (attr new_Page) = false /\
     pages_active mem' = pages_active mem + 1 /\
     m_pages_highest mem' = Z.max (m_pages_highest mem) (pages_active mem') /\
     m_current_rd_page mem' =
       (if m_current_rd_page mem =? page then -1 else m_current_rd_page mem) /\
     m_current_wr_page mem' =
       (if m_current_wr_page mem =? page then -1 else m_current_wr_page mem) /\
     pages_total mem' = pages_total mem /\
     heap_address mem' = heap_address mem).
Proof.
  split; [| split].
  - intros Hfull. unfold default_page_fault.
    replace (pages_active mem <? pages_total mem) with false
      by (symmetry; apply Z.ltb_ge; lia).
    reflexivity.
  - intros Hroom. unfold default_page_fault.
    replace (pages_active mem <? pages_total mem) with true
      by (symmetry; apply Z.ltb_lt; lia).
    reflexivity.
  - intros Hfree. unfold allocate_page. rewrite Hfree. cbn [fst snd].
    unfold invalidate_page, set_paging, pages_active, pages_total, heap_address;
      cbn [m_pages m_pages_highest m_current_rd_page m_current_wr_page
           m_pages_total m_heap_address].
    repeat split.
    + unfold new_Page; cbn [page_data]. apply Forall_replicate. reflexivity.
    + rewrite map_size_insert_None by exact Hfree. lia.
Qed.

(** ** The raw cache image *)

Lemma length_raw_bytes c d : length (raw_bytes c d) = 8%nat.
Proof. reflexivity. Qed.

Lemma of_raw_bytes_raw_bytes c d :
  representable c d -> of_raw_bytes c (raw_bytes c d) = d.
Proof.
  intros (Hb & Hh & Hidx & Hic & Hins).
  destruct d as [bc hd ie ic ins]; cbn [m_bytecode m_handler idxend icount instr] in *.
  unfold raw_bytes, of_raw_bytes;
    cbn [m_bytecode m_handler idxend icount instr app le_bytes].
  assert (Hinstr : le_value (take 4 (le_bytes 4 ins)) = ins).
  { rewrite firstn_all2 by (rewrite length_le_bytes; lia).
    apply le_value_le_bytes. cbn. lia. }
  cbn [le_bytes] in Hinstr. rewrite Hinstr.
  destruct c.
  - rewrite land_255, Z.mod_small by lia. reflexivity.
  - subst ic. rewrite land_255, Z.shiftr_div_pow2 by lia.
    rewrite lor_shiftl_8.
    + change (2 ^ 8) with 256. pose proof (Z.div_mod ie 256).
      replace (ie mod 256 + 256 * (ie / 256)) with ie by lia. reflexivity.
    + apply Z.mod_pos_bound. lia.
    + apply Z.div_pos; lia.
Qed.

Lemma length_descriptors_image c ds :
  length (descriptors_image c ds) = (8 * length ds)%nat.
Proof.
  unfold descriptors_image. induction ds as [| d ds IH]; [reflexivity |].
  cbn [map concat]. rewrite length_app, IH, length_raw_bytes. cbn [length]. lia.
Qed.

Lemma read_descriptors_image c ds rest :
  Forall (representable c) ds ->
  read_descriptors c (length ds) (descriptors_image c ds ++ rest) = ds.
Proof.
  induction 1 as [| d ds Hd Hds IH]; [reflexivity |].
  unfold descriptors_image in *. cbn [map concat length read_descriptors].
  rewrite <- app_assoc.
  rewrite take_app_length' by reflexivity.
  rewrite drop_app_length' by reflexivity.
  rewrite of_raw_bytes_raw_bytes by exact Hd.
  rewrite IH. reflexivity.
Qed.

Lemma caches_image_cons c dc caches :
  caches_image c (dc :: caches) = descriptors_image c (cache dc) ++ caches_image c caches.
Proof.
  unfold caches_image, descriptors_image. cbn [map concat].
  rewrite map_app, concat_app. reflexivity.
Qed.

Lemma length_caches_image c sz caches :
  Forall (fun dc => length (cache dc) = sz) caches ->
  length (caches_image c caches) = (8 * sz * length caches)%nat.
Proof.
  induction 1 as [| dc caches Hdc _ IH]; [cbn; lia |].
  rewrite caches_image_cons, length_app, length_descriptors_image, IH, Hdc.
  cbn [length]. lia.
Qed.

Lemma read_caches_image c sz caches rest :
  Forall (fun dc => length (cache dc) = sz) caches ->
  Forall (fun dc => Forall (representable c) (cache dc)) caches ->
  read_caches c sz (length caches) (caches_image c caches ++ rest) = caches.
Proof.
  intros Hsz. revert rest. induction Hsz as [| dc caches Hdc _ IH]; intros rest Hrep.
  - reflexivity.
  - apply Forall_cons in Hrep as [Hrep1 Hrep2].
    cbn [length read_caches]. rewrite caches_image_cons, <- app_assoc.
    rewrite <- Hdc at 1. rewrite read_descriptors_image by exact Hrep1.
    rewrite drop_app_length' by (rewrite length_descriptors_image, Hdc; lia).
    rewrite IH by exact Hrep2. destruct dc; reflexivity.
Qed.

(** ** The handler tables *)

Section SerializationProperties.
Context {Handler : Type} `{Countable Handler}.
Variable decode : Z -> Instruction Handler.

Lemma to_uint8_small v : 0 <= v < 256 -> to_uint8 v = v.
Proof. intros Hv. unfold to_uint8. apply wrap_small. cbn. lia. Qed.

Lemma tables_inv_initial ds :
  Forall (fun d => m_handler d = 0) ds ->
  tables_inv decode initial_tables ds.
Proof.
  intros Hds. unfold tables_inv, initial_tables;
    cbn [handler_count instr_handlers handler_cache inst_handler_mapping].
  split; [lia |]. split; [apply length_replicate |].
  split; [intros h k Hk; rewrite lookup_empty in Hk; discriminate |].
  split; [intros k e Hk; rewrite lookup_empty in Hk; discriminate |].
  eapply Forall_impl; [exact Hds |]. intros d Hd Hne. contradiction.
Qed.

(** One call of [set_handler(decode(instr))] keeps the invariant of the
    descriptors it does not touch and establishes it for the one it
    returns. *)
Lemma set_handler_inv t ds d t' d' :
  tables_inv decode t ds ->
  0 <= instr d < 2 ^ 32 ->
  set_handler t d (decode (instr d)) = Ok (t', d') ->
  tables_inv decode t' (d' :: ds) /\ instr d' = instr d.
Proof.
  intros (Hcount & Hlen & Hcache & Hmap & Hds) Hinstr Hset.
  unfold set_handler, set_insn_handler, handler_index_for in Hset.
  set (h := handler (decode (instr d))) in *.
  destruct (handler_cache t !! h) as [idx |] eqn:Hhit.
  - (* the handler is already registered *)
    cbn in Hset. injection Hset as <- <-.
    destruct (Hcache h idx Hhit) as [Hidx Hslot].
    rewrite to_uint8_small by lia.
    split; [| reflexivity].
    unfold tables_inv;
      cbn [handler_count instr_handlers handler_cache inst_handler_mapping
           set_m_handler m_handler instr].
    split; [exact Hcount |]. split; [exact Hlen |]. split; [exact Hcache |].
    split.
    + intros k e Hk. destruct (decide (idx = k)) as [<- | Hne].
      * rewrite lookup_insert_eq in Hk. injection Hk as <-.
        split; [exact Hidx |]. split; [exact Hinstr | exact Hslot].
      * rewrite lookup_insert_ne in Hk by exact Hne. apply Hmap. exact Hk.
    + apply Forall_cons. split.
      * cbn [m_handler instr]. intros _. rewrite lookup_insert_eq.
        split; [eexists; reflexivity | exact Hslot].
      * eapply Forall_impl; [exact Hds |]. intros d0 Hd0 Hne.
        destruct (Hd0 Hne) as [Hsome Hh]. split; [| exact Hh].
        destruct (decide (idx = m_handler d0)) as [<- | Hne'].
        -- rewrite lookup_insert_eq. eexists; reflexivity.
        -- rewrite lookup_insert_ne by exact Hne'. exact Hsome.
  - (* a new index is assigned *)
    destruct (Z.leb_spec 256 (handler_count t)) as [Hfull | Hroom];
      [discriminate |].
    cbn in Hset. injection Hset as <- <-.
    set (idx := handler_count t) in *.
    rewrite to_uint8_small by lia.
    assert (Hnew : <[Z.to_nat idx := Some h]> (instr_handlers t) !! Z.to_nat idx
                   = Some (Some h)).
    { apply list_lookup_insert_eq. lia. }
    assert (Hold : forall k, 0 <= k < idx ->
               <[Z.to_nat idx := Some h]> (instr_handlers t) !! Z.to_nat k
               = instr_handlers t !! Z.to_nat k).
    { intros k Hk. apply list_lookup_insert_ne. lia. }
    split; [| reflexivity].
    unfold tables_inv;
      cbn [handler_count instr_handlers handler_cache inst_handler_mapping
           set_m_handler m_handler instr].
    split; [lia |]. split; [rewrite length_insert; exact Hlen |].
    split.
    + intros h0 k Hk. destruct (decide (h = h0)) as [<- | Hne].
      * rewrite lookup_insert_eq in Hk. injection Hk as <-.
        split; [lia | exact Hnew].
      * rewrite lookup_insert_ne in Hk by exact Hne.
        destruct (Hcache h0 k Hk) as [Hk' Hslot].
        split; [lia |]. rewrite Hold by lia. exact Hslot.
    + split.
      * intros k e Hk. destruct (decide (idx = k)) as [<- | Hne].
        -- rewrite lookup_insert_eq in Hk. injection Hk as <-.
           split; [lia |]. split; [exact Hinstr | exact Hnew].
        -- rewrite lookup_insert_ne in Hk by exact Hne.
           destruct (Hmap k e Hk) as (Hk' & He & Hslot).
           split; [lia |]. split; [exact He |]. rewrite Hold by lia. exact Hslot.
      * apply Forall_cons. split.
        -- cbn [m_handler instr]. intros _. rewrite lookup_insert_eq.
           split; [eexists; reflexivity | exact Hnew].
        -- eapply Forall_impl; [exact Hds |]. intros d0 Hd0 Hne.
           destruct (Hd0 Hne) as [[e He] Hh].
           destruct (Hmap _ _ He) as (Hk' & _ & _).
           split.
           ++ rewrite lookup_insert_ne by lia. eexists; exact He.
           ++ rewrite Hold by lia. exact Hh.
Qed.

(** Caches whose handlers were assigned via [set_handler] satisfy the
    invariant. *)
Lemma assigned_via_set_handler_inv t ds :
  assigned_via_set_handler decode t ds -> tables_inv decode t ds.
Proof.
  induction 1 as [t ds Ht Hds | t ds i d t' d' _ IH Hi Hinstr Hset
                  | t ds d0 t' d' _ IH Hinstr Hset].
  - destruct Ht as (Hcount & Hlen & Hcache & Hmap & _).
    repeat (split; [assumption |]).
    eapply Forall_impl; [exact Hds |]. intros d Hd Hne. contradiction.
  - destruct (set_handler_inv _ _ _ _ _ IH Hinstr Hset) as [Hinv _].
    destruct Hinv as (Hcount & Hlen & Hcache & Hmap & Hall).
    apply Forall_cons in Hall as [Hd' Hds].
    repeat (split; [assumption |]).
    apply Forall_insert; assumption.
  - destruct (set_handler_inv _ _ _ _ _ IH Hinstr Hset) as [Hinv _].
    destruct Hinv as (Hcount & Hlen & Hcache & Hmap & Hall).
    apply Forall_cons in Hall as [_ Hds].
    repeat (split; [assumption |]). exact Hds.
Qed.

Lemma tables_inv_keys t ds k e :
  tables_inv decode t ds ->
  inst_handler_mapping t !! k = Some e ->
  0 <= k < 256 /\ 0 <= e < 2 ^ 32.
Proof.
  intros (Hcount & _ & _ & Hmap & _) Hk.
  destruct (Hmap k e Hk) as (Hk' & He & _). split; [lia | exact He].
Qed.

(** *** The encoding map and its items *)

Lemma map_size_keys_bound (m : gmap Z Z) :
  (forall k e, m !! k = Some e -> 0 <= k < 256) -> (base.size m <= 256)%nat.
Proof.
  intros Hk. rewrite <- (size_dom (D := gset Z)).
  transitivity (base.size (list_to_set (seqZ 0 256) : gset Z)).
  - apply subseteq_size. intros k Hin.
    apply elem_of_dom in Hin as [e He].
    apply elem_of_list_to_set, elem_of_seqZ. specialize (Hk _ _ He). lia.
  - rewrite size_list_to_set by apply NoDup_seqZ. rewrite length_seqZ. lia.
Qed.

Lemma filter_all {A} (P : A -> Prop) `{forall x, Decision (P x)} (l : list A) :
  Forall P l -> filter P l = l.
Proof.
  induction 1 as [| x l Hx _ IH]; [reflexivity |].
  rewrite filter_cons_True by exact Hx. rewrite IH. reflexivity.
Qed.

Lemma length_handler_items (m : gmap Z Z) v :
  m !! 0 = Some v -> length (handler_items m) = pred (base.size m).
Proof.
  intros Hv. unfold handler_items. rewrite length_map.
  rewrite <- (map_to_list_delete m 0 v Hv).
  rewrite filter_cons_False by (cbn; intros Hne; apply Hne; reflexivity).
  rewrite filter_all.
  - rewrite length_map_to_list. apply map_size_delete_Some. eexists; exact Hv.
  - apply Forall_forall. intros [k e] Hin. cbn.
    apply elem_of_map_to_list in Hin. intros ->.
    rewrite lookup_delete_eq in Hin. discriminate.
Qed.

Lemma elem_of_handler_items (m : gmap Z Z) it :
  (forall k e, m !! k = Some e -> 0 <= k < 256) ->
  it ∈ handler_items m <->
  hi_idx it <> 0 /\ m !! hi_idx it = Some (hi_instr it).
Proof.
  intros Hkeys. unfold handler_items. split.
  - intros Hin. apply list_elem_of_In, in_map_iff in Hin as ([k e] & <- & Hin).
    apply list_elem_of_In, list_elem_of_filter in Hin as [Hne Hin].
    apply elem_of_map_to_list in Hin. cbn [fst snd hi_idx hi_instr] in *.
    rewrite wrap_small by (specialize (Hkeys _ _ Hin); lia).
    split; assumption.
  - intros [Hne Hin]. apply list_elem_of_In, in_map_iff.
    exists (hi_idx it, hi_instr it). cbn [fst snd]. split.
    + rewrite wrap_small by (specialize (Hkeys _ _ Hin); lia).
      destruct it; reflexivity.
    + apply list_elem_of_In, list_elem_of_filter. split; [exact Hne |].
      apply elem_of_map_to_list. exact Hin.
Qed.

(** *** Reading the items back *)

Lemma length_item_bytes it : length (item_bytes it) = 8%nat.
Proof. reflexivity. Qed.

Lemma read_handler_item_bytes pre it post :
  item_ok it ->
  read_handler_item (pre ++ item_bytes it ++ post) (length pre) = Ok it.
Proof.
  intros [Hidx Hinstr]. unfold read_handler_item.
  rewrite drop_app_length.
  rewrite take_app_length' by reflexivity.
  cbn [length item_bytes Nat.ltb Nat.leb].
  unfold item_bytes.
  rewrite take_app_length' by reflexivity.
  rewrite drop_app_length' by reflexivity.
  rewrite !le_value_le_bytes by (cbn; lia).
  destruct it; reflexivity.
Qed.

Lemma rebind_handlers_items items : forall t pre post,
  Forall item_ok items ->
  length (instr_handlers t) = 256%nat ->
  exists t',
    rebind_handlers decode t (pre ++ concat (map item_bytes items) ++ post)
      (length pre) (length items) = Ok t' /\
    length (instr_handlers t') = 256%nat /\
    (forall k, 0 <= k -> Forall (fun it => hi_idx it <> k) items ->
       instr_handlers t' !! Z.to_nat k = instr_handlers t !! Z.to_nat k) /\
    (forall it, it ∈ items ->
       (forall it', it' ∈ items -> hi_idx it' = hi_idx it -> hi_instr it' = hi_instr it) ->
       instr_handlers t' !! Z.to_nat (hi_idx it)
       = Some (Some (handler (decode (hi_instr it))))).
Proof.
  induction items as [| a rest IH]; intros t pre post Hok Hlen.
  - exists t. cbn. split; [reflexivity |]. split; [exact Hlen |].
    split; [reflexivity |]. intros it Hin. apply elem_of_nil in Hin. contradiction.
  - apply Forall_cons in Hok as [Ha Hrest].
    cbn [map concat length rebind_handlers].
    rewrite <- app_assoc.
    rewrite read_handler_item_bytes by exact Ha. cbn [bind].
    unfold _assign_handler at 1.
    destruct Ha as [Hidx Hinstr].
    replace ((0 <=? hi_idx a) && (hi_idx a <? 256)) with true
      by (symmetry; apply andb_true_iff; split; [apply Z.leb_le | apply Z.ltb_lt]; lia).
    cbn [bind].
    set (t1 := mkHandlerTables _ _ _ _).
    assert (Hlen1 : length (instr_handlers t1) = 256%nat).
    { subst t1; cbn [instr_handlers]. rewrite length_insert. exact Hlen. }
    specialize (IH t1 (pre ++ item_bytes a) post Hrest Hlen1).
    rewrite <- app_assoc in IH.
    rewrite length_app, length_item_bytes in IH.
    destruct IH as (t' & Hrun & Hlen' & Hframe & Hbound).
    exists t'. split; [exact Hrun |]. split; [exact Hlen' |]. split.
    + intros k Hk Hall. apply Forall_cons in Hall as [Hka Hkrest].
      rewrite Hframe by assumption.
      subst t1; cbn [instr_handlers]. apply list_lookup_insert_ne. lia.
    + intros it Hin Hfun.
      destruct (decide (Exists (fun it' => hi_idx it' = hi_idx it) rest)) as [Hex | Hnex].
      * apply Exists_exists in Hex as (it' & Hin' & Hsame).
        rewrite <- Hsame.
        rewrite <- (Hfun it' (list_elem_of_further _ _ _ Hin') Hsame).
        apply Hbound; [exact Hin' |].
        intros it'' Hin'' Hsame'.
        rewrite (Hfun it'' (list_elem_of_further _ _ _ Hin'') (eq_trans Hsame' Hsame)).
        rewrite (Hfun it' (list_elem_of_further _ _ _ Hin') Hsame). reflexivity.
      * apply not_Exists_Forall in Hnex; [| intros x; apply _].
        apply elem_of_cons in Hin as [-> | Hin].
        -- rewrite Hframe by (try lia; exact Hnex).
           subst t1; cbn [instr_handlers]. apply list_lookup_insert_eq. lia.
        -- exfalso. rewrite Forall_forall in Hnex.
           apply (Hnex it Hin). reflexivity.
Qed.

(** *** The layout of the serialized cache *)

Lemma SIZE_pos c : 1024 <= SIZE c <= 2048.
Proof. rewrite SIZE_value. destruct c; lia. Qed.

(** When index 0 is bound in [inst_handler_mapping] (the invalid handler's
    binding), the output is the raw image, the count byte, and one item per
    binding of non-zero index. *)
Lemma serialize_whole_decoder_cache_layout c caches n (m : gmap Z Z) v :
  1 <= n -> n * SIZE c * 8 < 2 ^ 31 ->
  Z.of_nat (length caches) = n ->
  Forall (fun dc => length (cache dc) = Z.to_nat (SIZE c)) caches ->
  m !! 0 = Some v ->
  (forall k e, m !! k = Some e -> 0 <= k < 256) ->
  serialize_whole_decoder_cache c caches n m
  = Ok (caches_image c caches
        ++ [Z.of_nat (length (handler_items m))]
        ++ concat (map item_bytes (handler_items m))) /\
  Z.of_nat (length (caches_image c caches)) = n * SIZE c * 8 /\
  Z.of_nat (length (handler_items m)) = Z.of_nat (base.size m) - 1 /\
  (length (handler_items m) < 256)%nat.
Proof.
  intros Hn Hfit Hlen Hsz Hzero Hkeys.
  pose proof (SIZE_pos c) as HSIZE.
  pose proof (map_size_keys_bound m Hkeys) as Hsize.
  pose proof (length_handler_items m v Hzero) as Hitems.
  assert (Hnonempty : (1 <= base.size m)%nat).
  { destruct (base.size m) eqn:Hs; [| lia].
    apply map_size_empty_inv in Hs. subst m. rewrite lookup_empty in Hzero.
    discriminate. }
  assert (Himage : Z.of_nat (length (caches_image c caches)) = n * SIZE c * 8).
  { rewrite (length_caches_image c (Z.to_nat (SIZE c))) by exact Hsz. nia. }
  assert (Hcount : Z.of_nat (length (handler_items m)) = Z.of_nat (base.size m) - 1)
    by lia.
  split; [| split; [exact Himage | split; [exact Hcount | lia]]].
  unfold serialize_whole_decoder_cache, sizeof_DecoderData, sizeof_handler_item.
  rewrite (to_int_small n) by nia.
  replace (n =? 0) with false by (symmetry; apply Z.eqb_neq; lia).
  assert (Hn64 : to_size_t n = n).
  { unfold to_size_t. apply wrap_small. nia. }
  rewrite Hn64. rewrite to_int_small by nia.
  replace (n * SIZE c * 8 <? 0) with false by (symmetry; apply Z.ltb_ge; nia).
  rewrite Himage, Z.ltb_irrefl.
  rewrite firstn_all2 by lia.
  assert (Hneeded : to_size_t (Z.of_nat (base.size m) - 1)
                    = Z.of_nat (length (handler_items m))).
  { unfold to_size_t. rewrite wrap_small by (change (2 ^ 64) with 18446744073709551616; lia).
    lia. }
  rewrite Hneeded.
  replace (2 ^ 63 <=? Z.of_nat (length (handler_items m)) * 8) with false
    by (symmetry; apply Z.leb_gt; change (2 ^ 63) with 9223372036854775808; lia).
  rewrite Z.ltb_irrefl, Nat2Z.id, firstn_all.
  rewrite to_uint8_small by lia. reflexivity.
Qed.

(** *** The round trip *)

(** C1 (amended): for [n >= 1] pages (below 2 GiB of descriptors) whose
    handlers were assigned via [set_handler(decode(instr))], and with index
    0 bound in [inst_handler_mapping], serialization succeeds and
    deserializing its output, in a process with any handler array
    [t_load], succeeds and yields the same descriptors, and for every slot
    with a non-zero [m_handler] the handler array then holds the handler
    that [decode] gives for the slot's [instr], the one a fresh build
    assigns. *)
Theorem decoder_cache_round_trip c t caches n t_load :
  1 <= n -> n * SIZE c * 8 < 2 ^ 31 ->
  Z.of_nat (length caches) = n ->
  Forall (fun dc => length (cache dc) = Z.to_nat (SIZE c)) caches ->
  Forall (fun dc => Forall (representable c) (cache dc)) caches ->
  assigned_via_set_handler decode t (concat (map cache caches)) ->
  is_Some (inst_handler_mapping t !! 0) ->
  length (instr_handlers t_load) = 256%nat ->
  exists bytes t',
    serialize_whole_decoder_cache c caches n (inst_handler_mapping t) = Ok bytes /\
    deserialize_decoder_cache decode c t_load bytes n (Z.of_nat (length bytes))
      = Ok (caches, t') /\
    (forall dc d, dc ∈ caches -> d ∈ cache dc -> m_handler d <> 0 ->
       get_handler t' d = Some (handler (decode (instr d)))).
Proof.
  intros Hn Hfit Hlen Hsz Hrep Hbuilt [v Hzero] Hload.
  pose proof (assigned_via_set_handler_inv _ _ Hbuilt) as Hinv.
  set (m := inst_handler_mapping t) in *.
  assert (Hkeys : forall k e, m !! k = Some e -> 0 <= k < 256).
  { intros k e Hk. eapply tables_inv_keys; eassumption. }
  destruct (serialize_whole_decoder_cache_layout c caches n m v
              Hn Hfit Hlen Hsz Hzero Hkeys) as (Hser & Himage & Hcount & Hsmall).
  set (image := caches_image c caches) in *.
  set (items := handler_items m) in *.
  assert (Hitems : Forall item_ok items).
  { apply Forall_forall. intros it Hin.
    apply elem_of_handler_items in Hin as [_ Hin]; [| exact Hkeys].
    destruct (tables_inv_keys _ _ _ _ Hinv Hin). split; assumption. }
  destruct (rebind_handlers_items items t_load (image ++ [Z.of_nat (length items)]) []
              Hitems Hload) as (t' & Hrun & _ & _ & Hbound).
  rewrite app_nil_r in Hrun. rewrite <- app_assoc in Hrun.
  rewrite length_app in Hrun. cbn [length] in Hrun.
  pose proof (SIZE_pos c) as HSIZE.
  eexists. exists t'. split; [exact Hser |]. split.
  - unfold deserialize_decoder_cache, sizeof_DecoderData.
    rewrite (to_int_small n) by nia.
    assert (Hn64 : to_size_t n = n) by (unfold to_size_t; apply wrap_small; nia).
    rewrite Hn64.
    assert (Hreq : to_size_t (n * SIZE c * 8 + 1) = n * SIZE c * 8 + 1)
      by (unfold to_size_t; apply wrap_small; nia).
    rewrite Hreq.
    assert (HL : to_size_t (to_int (Z.of_nat
                   (length (image ++ [Z.of_nat (length items)]
                              ++ concat (map item_bytes items)))))
                 >= n * SIZE c * 8 + 1).
    { rewrite !length_app. cbn [length].
      assert (Hc : (length (concat (map item_bytes items)) <= 8 * 256)%nat).
      { clear -Hsmall. induction items as [| a l IH]; [cbn; lia |].
        cbn [map concat length] in *. rewrite length_app, length_item_bytes.
        assert (length (concat (map item_bytes l)) <= 8 * length l)%nat.
        { clear. induction l as [| b l IH]; [cbn; lia |].
          cbn [map concat length]. rewrite length_app, length_item_bytes. lia. }
        lia. }
      set (L := Z.of_nat (length image + (1 + length (concat (map item_bytes items))))).
      assert (HLrange : n * SIZE c * 8 + 1 <= L < 2 ^ 31 + 2050) by (subst L; lia).
      destruct (Z.lt_ge_cases L (2 ^ 31)) as [Hint | Hneg].
      - rewrite to_int_small by lia.
        unfold to_size_t. rewrite wrap_small by lia. lia.
      - assert (Hwrapped : to_int L = L - 2 ^ 32).
        { unfold to_int.
          replace (L + 2 ^ 31) with (L - 2 ^ 31 + 1 * 2 ^ 32) by lia.
          rewrite Z.mod_add by lia. rewrite Z.mod_small by lia. lia. }
        rewrite Hwrapped. unfold to_size_t, wrap.
        replace (L - 2 ^ 32) with (L - 2 ^ 32 + 2 ^ 64 + (-1) * 2 ^ 64) by lia.
        rewrite Z.mod_add by lia. rewrite Z.mod_small by lia. lia. }
    replace (_ <? n * SIZE c * 8 + 1) with false by (symmetry; apply Z.ltb_ge; lia).
    replace (n * SIZE c * 8 + 1 - 1) with (Z.of_nat (length image)) by lia.
    rewrite Nat2Z.id.
    change ([Z.of_nat (length items)] ++ concat (map item_bytes items))
      with (Z.of_nat (length items) :: concat (map item_bytes items)).
    rewrite (list_lookup_middle image _ _ (length image)) by reflexivity.
    rewrite Nat2Z.id.
    replace (Z.to_nat (n * SIZE c * 8 + 1)) with (length image + 1)%nat by lia.
    cbn [app] in Hrun. rewrite Hrun. cbn [bind].
    replace (Z.to_nat n) with (length caches) by lia.
    unfold image. rewrite read_caches_image by assumption. reflexivity.
  - intros dc d Hdc Hd Hne.
    destruct Hinv as (_ & _ & _ & Hmap & Hall).
    rewrite Forall_forall in Hall.
    assert (Hin : d ∈ concat (map cache caches)).
    { apply list_elem_of_In, in_concat. exists (cache dc).
      split; [apply in_map; apply list_elem_of_In; exact Hdc
             | apply list_elem_of_In; exact Hd]. }
    destruct (Hall d Hin Hne) as [[e He] Hslot].
    destruct (Hmap _ _ He) as (_ & _ & Hslot').
    assert (Hsame : handler (decode e) = handler (decode (instr d))) by congruence.
    assert (Hitem : mk_handler_item (m_handler d) e ∈ items).
    { apply elem_of_handler_items; [exact Hkeys |]. split; assumption. }
    specialize (Hbound _ Hitem). cbn [hi_idx hi_instr] in Hbound.
    unfold get_handler. rewrite Hbound.
    + cbn. rewrite Hsame. reflexivity.
    + intros it' Hin' Hidx.
      apply elem_of_handler_items in Hin' as [_ Hin']; [| exact Hkeys].
      rewrite Hidx in Hin'. fold m in He. congruence.
Qed.

End SerializationProperties.

(** ** Zero pages and the unbound index 0 *)

(** C10: with [n = 0] the serializer returns the empty vector whatever the
    caches and the encoding map are: no image, no count byte, no items.
    The raw layout needs at least the count byte, and the loader refuses
    the empty input. *)
Theorem serialize_zero_pages {Handler : Type} `{Countable Handler}
    (decode : Z -> Instruction Handler) (c : bool) (caches : list DecoderCache)
    (m : gmap Z Z) (t : HandlerTables Handler) :
  serialize_whole_decoder_cache c caches 0 m = Ok [] /\
  Z.of_nat (length (@nil Z)) < 0 * SIZE c * sizeof_DecoderData + 1 /\
  deserialize_decoder_cache decode c t [] 0 (Z.of_nat (length (@nil Z)))
  = Throw runtime_error.
Proof. split; [reflexivity |]. split; [cbn; lia | reflexivity]. Qed.

(** C2 at the failing inputs.  With an empty [inst_handler_mapping] (no
    handler assigned yet) [m.size() - 1] wraps to [2^64 - 1] and the
    allocation of the item array fails; with a map that binds index 1 but
    not index 0 the array has no room for the one item the loop writes.
    The claim wants the image, the count (0, respectively 1) and that many
    items. *)
Theorem serialize_index_zero_unbound (c : bool) :
  serialize_whole_decoder_cache c [blank_cache c] 1 ∅ = Throw bad_array_new_length /\
  serialize_whole_decoder_cache c [blank_cache c] 1 {[ 1 := 0x00000013 ]}
  = Throw out_of_bounds.
Proof. destruct c; split; by_evaluation. Qed.

(** X1: when index 0 is bound in [inst_handler_mapping], the vector
    returned for [n >= 1] pages is the raw image of [n * SIZE * 8] bytes,
    one byte [H = m.size() - 1], and [H] items of eight bytes, which are
    exactly the bindings of non-zero index. *)
Theorem serialize_layout_index_zero_bound c caches n (m : gmap Z Z) v :
  1 <= n -> n * SIZE c * 8 < 2 ^ 31 ->
  Z.of_nat (length caches) = n ->
  Forall (fun dc => length (cache dc) = Z.to_nat (SIZE c)) caches ->
  m !! 0 = Some v ->
  (forall k e, m !! k = Some e -> 0 <= k < 256) ->
  exists H entries,
    serialize_whole_decoder_cache c caches n m
    = Ok (caches_image c caches ++ [H] ++ concat (map item_bytes entries)) /\
    Z.of_nat (length (caches_image c caches)) = n * SIZE c * 8 /\
    H = Z.of_nat (length entries) /\
    H = Z.of_nat (base.size m) - 1 /\
    Z.of_nat (length (concat (map item_bytes entries))) = 8 * H /\
    (forall it, it ∈ entries <->
                hi_idx it <> 0 /\ m !! hi_idx it = Some (hi_instr it)).
Proof.
  intros Hn Hfit Hlen Hsz Hzero Hkeys.
  destruct (serialize_whole_decoder_cache_layout c caches n m v
              Hn Hfit Hlen Hsz Hzero Hkeys) as (Hser & Himage & Hcount & _).
  exists (Z.of_nat (length (handler_items m))), (handler_items m).
  split; [exact Hser |]. split; [exact Himage |]. split; [reflexivity |].
  split; [exact Hcount |]. split.
  - generalize (handler_items m). intros l.
    induction l as [| a l IH]; [reflexivity |].
    cbn [map concat length]. rewrite length_app, length_item_bytes. lia.
  - intros it. apply elem_of_handler_items. exact Hkeys.
Qed.

(** ** Examples: counterexamples to the claims as stated *)

(** C1, as stated, fails for an array of zero pages: its serialization is
    the empty vector, which the loader refuses (it throws, and yields no
    cache), although index 0 is bound and every handler was assigned via
    [set_handler]. *)
Lemma decoder_cache_round_trip_zero_pages :
  assigned_via_set_handler example_decode (tables_of example_step1)
    (concat (map cache [])) /\
  is_Some (inst_handler_mapping (tables_of example_step1) !! 0) /\
  exists bytes,
    serialize_whole_decoder_cache false [] 0
      (inst_handler_mapping (tables_of example_step1)) = Ok bytes /\
    deserialize_decoder_cache example_decode false initial_tables bytes 0
      (Z.of_nat (length bytes)) = Throw runtime_error.
Proof.
  split; [| split].
  - eapply (assigned_other example_decode initial_tables [] example_invalid).
    + apply assigned_none; [apply tables_inv_initial |]; constructor.
    + cbn; lia.
    + by_evaluation.
  - by_evaluation || (eexists; by_evaluation).
  - exists []. split; reflexivity.
Qed.

(** C3, as stated, fails: after installing the handler 0x1234 for SIGUSR1,
    the old action read back has [sa_handler = 0x1230]. *)
Lemma syscall_sigaction_counterexample :
  exists m1 m2,
    syscall_sigaction W8 paged_ops
      (example_machine example_sigaction_memory SIGUSR1 0x2000 0) = Ok m1 /\
    syscall_sigaction W8 paged_ops (with_args m1 SIGUSR1 0 0x3000) = Ok m2 /\
    kernel_sigaction_of_bytes W8 (read_bytes (memory m2) 0x3000 24)
    = mk_kernel_sigaction 0x1230 SA_ONSTACK 0xF /\
    sa_handler (kernel_sigaction_of_bytes W8 (read_bytes (memory m2) 0x3000 24))
    <> 0x1234.
Proof.
  eexists. eexists.
  split; [by_evaluation |]. split; [by_evaluation |]. split; by_evaluation.
Qed.

(** C4, as stated, fails: with the quota exhausted ([pages_active = 1 =
    pages_total]) [allocate_page] does not fail but maps the page;
    [default_page_fault] is what throws. *)
Lemma allocate_page_counterexample :
  pages_active (example_memory 1) >= pages_total (example_memory 1) /\
  m_pages (fst (allocate_page (example_memory 1) 5)) !! 5 = Some new_Page /\
  pages_active (fst (allocate_page (example_memory 1) 5)) = 2 /\
  default_page_fault (example_memory 1) 5 = Throw OUT_OF_MEMORY.
Proof. repeat split; by_evaluation. Qed.

(** C8, as stated, fails: [readv(1, iov, 0)] with file descriptors enabled
    returns [-EINVAL], not [-EBADF]. *)
Lemma syscall_readv_counterexample :
  has_file_descriptors (example_machine (example_memory 16) 1 0x2000 0) = true /\
  sysarg_int (example_machine (example_memory 16) 1 0x2000 0) 0 = 1 /\
  exists m',
    syscall_readv W8 paged_ops example_host
      (example_machine (example_memory 16) 1 0x2000 0) = Ok m' /\
    return_value m' = to_address W8 (- EINVAL) /\
    return_value m' <> to_address W8 (- EBADF).
Proof.
  split; [reflexivity |]. split; [by_evaluation |].
  eexists. split; [by_evaluation |]. split; by_evaluation.
Qed.

(** ** Examples: the theorems at concrete inputs *)

Lemma example_machine_wf mem a0 a1 a2 :
  0 <= a0 < 2 ^ 64 -> 0 <= a1 < 2 ^ 64 -> 0 <= a2 < 2 ^ 64 ->
  machine_wf W8 (example_machine mem a0 a1 a2).
Proof.
  intros H0 H1 H2. split; [reflexivity |].
  unfold example_machine, with_args, set_regs; cbn [cpu_regs].
  repeat (apply Forall_insert; [| cbn [XLEN]; lia]).
  apply Forall_replicate. cbn [XLEN]. lia.
Defined.

(** C1 at the three-call build of [example_caches]. *)
Lemma decoder_cache_round_trip_witness :
  exists bytes t',
    serialize_whole_decoder_cache false example_caches 1
      (inst_handler_mapping example_tables) = Ok bytes /\
    deserialize_decoder_cache example_decode false initial_tables bytes 1
      (Z.of_nat (length bytes)) = Ok (example_caches, t') /\
    (forall dc d, dc ∈ example_caches -> d ∈ cache dc -> m_handler d <> 0 ->
       get_handler t' d = Some (handler (example_decode (instr d)))).
Proof.
  apply (decoder_cache_round_trip example_decode false example_tables
           example_caches 1 initial_tables).
  - lia.
  - by_evaluation.
  - reflexivity.
  - by_decision.
  - by_decision.
  - unfold example_caches. cbn [map concat cache]. rewrite app_nil_r.
    eapply (assigned_slot example_decode (tables_of example_step2) _ 1 example_slot1).
    + eapply (assigned_slot example_decode (tables_of example_step1) _ 0 example_slot0).
      * eapply (assigned_other example_decode initial_tables _ example_invalid).
        -- apply assigned_none; [apply tables_inv_initial; constructor |].
           apply Forall_cons; split; [reflexivity |].
           apply Forall_cons; split; [reflexivity |].
           apply Forall_replicate. reflexivity.
        -- cbn; lia.
        -- by_evaluation.
      * reflexivity.
      * cbn; lia.
      * by_evaluation.
    + reflexivity.
    + cbn; lia.
    + by_evaluation.
  - eexists. by_evaluation.
  - reflexivity.
Defined.

(** C3 for SIGUSR1 on the paged memory: [new] at 0x2000, [old] at
    0x3000. *)
Lemma syscall_sigaction_round_trip_witness :
  exists machine1,
    syscall_sigaction W8 paged_ops
      (with_args (example_machine example_sigaction_memory 0 0 0) SIGUSR1 0x2000 0)
    = Ok machine1 /\
    memory machine1 = example_sigaction_memory /\
    return_value machine1 = 0 /\
    sigaction machine1 (to_int SIGUSR1) = Sig.mk 0x1234 true 0xF /\
    syscall_sigaction W8 paged_ops (with_args machine1 SIGUSR1 0 0x3000) =
      (do mem2 <- copy_to_guest paged_ops example_sigaction_memory 0x3000
                    (kernel_sigaction_bytes W8
                       (mk_kernel_sigaction 0x1230 SA_ONSTACK 0xF));
       Ok (set_result W8 (set_memory (with_args machine1 SIGUSR1 0 0x3000) mem2) 0)).
Proof.
  apply (syscall_sigaction_round_trip W8 paged_ops
           (example_machine example_sigaction_memory 0 0 0) SIGUSR1 0x2000 0x3000
           example_sigaction_memory).
  - reflexivity.
  - by_evaluation.
  - lia.
  - lia.
  - by_evaluation.
Defined.

(** C4 on a memory with room for 16 pages whose page caches refer to
    page 5, and on a memory whose quota of one page is used up. *)
Lemma allocate_page_spec_witness :
  default_page_fault example_cached_memory 5
  = Ok (allocate_page example_cached_memory 5) /\
  m_pages (fst (allocate_page example_cached_memory 5))
  = <[5 := new_Page]> (m_pages example_cached_memory) /\
  m_pages_highest (fst (allocate_page example_cached_memory 5)) = 2 /\
  m_current_rd_page (fst (allocate_page example_cached_memory 5)) = -1 /\
  m_current_wr_page (fst (allocate_page example_cached_memory 5)) = -1 /\
  default_page_fault (example_memory 1) 5 = Throw OUT_OF_MEMORY.
Proof.
  destruct (allocate_page_spec example_cached_memory 5) as (_ & Hroom & Hfresh).
  destruct (allocate_page_spec (example_memory 1) 5) as (Hfull & _ & _).
  split; [apply Hroom; by_evaluation |].
  destruct (Hfresh ltac:(by_evaluation))
    as (_ & Hpages & _ & _ & _ & Hhigh & Hrd & Hwr & _).
  split; [exact Hpages |]. split; [rewrite Hhigh; by_evaluation |].
  split; [rewrite Hrd; by_evaluation |]. split; [rewrite Hwr; by_evaluation |].
  apply Hfull. by_evaluation.
Defined.

(** C5 in the configuration of the spec. *)
Lemma syscall_brk_clamp_witness :
  return_value (syscall_brk W8 0x1000000
                  (example_machine (example_memory 16) 0x90000000 0 0)) = 0x81000000 /\
  return_value (syscall_brk W8 0x1000000
                  (example_machine (example_memory 16) 0 0 0)) = 0x80000000.
Proof.
  split.
  - apply (syscall_brk_clamp W8 0x1000000
             (example_machine (example_memory 16) 0x90000000 0 0));
      try reflexivity; try (cbn; lia).
    apply example_machine_wf; lia.
  - apply (syscall_brk_clamp W8 0x1000000
             (example_machine (example_memory 16) 0 0 0));
      try reflexivity; try (cbn; lia).
    apply example_machine_wf; lia.
Defined.

(** C6: [getrandom(0x5000, 512, 0)] and [getrandom(0x5000, 128, 0)]. *)
Lemma syscall_getrandom_bound_witness :
  syscall_getrandom W8 paged_ops example_host
    (example_machine (example_memory 16) 0x5000 512 0)
  = Ok (set_result W8 (example_machine (example_memory 16) 0x5000 512 0) (-1)) /\
  syscall_getrandom W8 paged_ops example_host
    (example_machine (example_memory 16) 0x5000 128 0)
  = Ok (set_result W8
          (set_memory (example_machine (example_memory 16) 0x5000 128 0)
             example_getrandom_memory)
          128) /\
  return_value
    (set_result W8
       (set_memory (example_machine (example_memory 16) 0x5000 128 0)
          example_getrandom_memory)
       128) = 128 /\
  read_bytes example_getrandom_memory 0x5000 128 = replicate 128 0xA5.
Proof.
  pose proof (syscall_getrandom_bound W8 paged_ops example_host
                (example_machine (example_memory 16) 0x5000 512 0)
                (example_machine_wf (example_memory 16) 0x5000 512 0
                   ltac:(lia) ltac:(lia) ltac:(lia)))
    as Hlong.
  pose proof (syscall_getrandom_bound W8 paged_ops example_host
                (example_machine (example_memory 16) 0x5000 128 0)
                (example_machine_wf (example_memory 16) 0x5000 128 0
                   ltac:(lia) ltac:(lia) ltac:(lia)))
    as Hshort.
  cbv zeta in Hlong, Hshort.
  destruct Hlong as [Hlong _]. destruct Hshort as [_ Hshort].
  destruct (Hlong ltac:(by_evaluation)) as (Hrun512 & _ & _).
  destruct (Hshort ltac:(by_evaluation) 128 (replicate 256 0xA5)
              example_getrandom_memory
              ltac:(by_evaluation) ltac:(by_evaluation) ltac:(by_evaluation))
    as (Hrun128 & _ & Hret & _).
  split; [exact Hrun512 |]. split; [exact Hrun128 |]. split; [exact Hret |].
  by_evaluation.
Defined.

(** C7 at a block of four slots holding three instructions. *)
Lemma decoder_data_bounds_witness :
  (instruction_count true (mkDecoderData 1 1 3 1 0x13) >= 1 <-> 1 <= 3) /\
  (block_bytes true (mkDecoderData 1 1 3 1 0x13) <= PageSize <-> 3 <= SIZE true) /\
  (true = true -> block_bytes true (mkDecoderData 1 1 3 1 0x13) <= PageSize) /\
  (true = false -> instruction_count true (mkDecoderData 1 1 3 1 0x13) >= 1).
Proof.
  apply (decoder_data_bounds true (mkDecoderData 1 1 3 1 0x13)).
  unfold representable; cbn. lia.
Defined.

(** C8: [readv(1, iov, 2)] with file descriptors enabled. *)
Lemma syscall_readv_stdout_stderr_witness :
  syscall_readv W8 paged_ops example_host
    (example_machine (example_memory 16) 1 0x2000 2)
  = Ok (set_result W8 (example_machine (example_memory 16) 1 0x2000 2) (- EBADF)).
Proof.
  apply (syscall_readv_stdout_stderr W8 paged_ops example_host
           (example_machine (example_memory 16) 1 0x2000 2)).
  - left. by_evaluation.
  - by_evaluation.
Defined.

(** X1 at the encoding map of [example_tables], which binds 0 and 1. *)
Lemma serialize_layout_index_zero_bound_witness :
  exists H entries,
    serialize_whole_decoder_cache false example_caches 1
      (inst_handler_mapping example_tables)
    = Ok (caches_image false example_caches ++ [H]
          ++ concat (map item_bytes entries)) /\
    Z.of_nat (length (caches_image false example_caches)) = 1 * SIZE false * 8 /\
    H = Z.of_nat (length entries) /\
    H = Z.of_nat (base.size (inst_handler_mapping example_tables)) - 1 /\
    Z.of_nat (length (concat (map item_bytes entries))) = 8 * H /\
    (forall it, it ∈ entries <->
                hi_idx it <> 0 /\
                inst_handler_mapping example_tables !! hi_idx it = Some (hi_instr it)).
Proof.
  apply (serialize_layout_index_zero_bound false example_caches 1
           (inst_handler_mapping example_tables) 0).
  - lia.
  - by_evaluation.
  - reflexivity.
  - by_decision.
  - by_evaluation.
  - intros k e Hk.
    assert (Hdom : k ∈ dom (inst_handler_mapping example_tables))
      by (apply elem_of_dom; eexists; exact Hk).
    replace (dom (inst_handler_mapping example_tables)) with ({[0; 1]} : gset Z)
      in Hdom by by_evaluation.
    apply elem_of_union in Hdom as [Hd | Hd]; apply elem_of_singleton in Hd; lia.
Defined.

(* ================================================================== *)
(** * Part III: further properties of the code                          *)
(* ================================================================== *)

(** ** Bytes and words *)

Lemma byte_split b h :
  0 <= b < 256 -> (b + 256 * h) mod 256 = b /\ (b + 256 * h) / 256 = h.
Proof.
  intros Hb. rewrite (Z.mul_comm 256 h). split.
  - rewrite Z.mod_add by lia. apply Z.mod_small. lia.
  - rewrite Z.div_add by lia. rewrite Z.div_small by lia. lia.
Qed.

Lemma le_bytes_le_value bs :
  Forall (fun b => 0 <= b < 256) bs ->
  0 <= le_value bs /\ le_bytes (length bs) (le_value bs) = bs.
Proof.
  induction 1 as [| b bs Hb _ [IHpos IH]]; [cbn; split; [lia | reflexivity] |].
  cbn [le_value length le_bytes].
  rewrite lor_shiftl_8 by assumption.
  split; [lia |].
  rewrite land_255, Z.shiftr_div_pow2 by lia. change (2 ^ 8) with 256.
  destruct (byte_split b (le_value bs) Hb) as [-> ->].
  rewrite IH. reflexivity.
Qed.

Lemma le_bytes_range w v : Forall (fun b => 0 <= b < 256) (le_bytes w v).
Proof.
  revert v. induction w as [| w IH]; intros v; cbn [le_bytes]; constructor.
  - rewrite land_255. apply Z.mod_pos_bound. lia.
  - apply IH.
Qed.

Lemma raw_bytes_range c d :
  representable c d -> Forall (fun b => 0 <= b < 256) (raw_bytes c d).
Proof.
  intros (Hb & Hh & Hidx & Hic & Hins). unfold raw_bytes.
  apply Forall_app. split; [| apply le_bytes_range].
  repeat constructor; try lia.
  - rewrite land_255. apply Z.mod_pos_bound. lia.
  - rewrite land_255. apply Z.mod_pos_bound. lia.
  - destruct c; [lia |]. rewrite Z.shiftr_div_pow2 by lia. apply Z.div_pos; lia.
  - destruct c; [lia |]. rewrite Z.shiftr_div_pow2 by lia.
    apply Z.div_lt_upper_bound; lia.
Qed.

(** ** [DecoderData]: live patching and comparison *)

(** X2: for a descriptor that fits its layout and two byte values,
    [set_atomic_bytecode_and_handler] leaves exactly the descriptor with
    the new [m_bytecode] and [m_handler]: it equals [set_bytecode] followed
    by a store of the handler index, and bytes 2..7 of the image are
    untouched. *)
Theorem set_atomic_bytecode_and_handler_spec c d bytecode handler_idx :
  representable c d ->
  0 <= bytecode < 256 -> 0 <= handler_idx < 256 ->
  set_atomic_bytecode_and_handler c d bytecode handler_idx
  = mkDecoderData bytecode handler_idx (idxend d) (icount d) (instr d) /\
  set_atomic_bytecode_and_handler c d bytecode handler_idx
  = set_m_handler (set_bytecode d bytecode) handler_idx /\
  drop 2 (raw_bytes c (set_atomic_bytecode_and_handler c d bytecode handler_idx))
  = drop 2 (raw_bytes c d) /\
  representable c (set_atomic_bytecode_and_handler c d bytecode handler_idx).
Proof.
  intros Hd Hb Hh.
  set (d' := mkDecoderData bytecode handler_idx (idxend d) (icount d) (instr d)).
  assert (Hd' : representable c d').
  { destruct Hd as (_ & _ & Hidx & Hic & Hins). repeat split; cbn; try lia; assumption. }
  assert (Hword : wrap 16 (Z.lor (Z.shiftl handler_idx 8) bytecode)
                  = bytecode + 256 * handler_idx).
  { rewrite Z.lor_comm, lor_shiftl_8 by lia. apply wrap_small. lia. }
  assert (Hstore : set_atomic_bytecode_and_handler c d bytecode handler_idx = d').
  { unfold set_atomic_bytecode_and_handler. rewrite Hword.
    cbn [le_bytes]. rewrite !land_255, Z.shiftr_div_pow2 by lia.
    change (2 ^ 8) with 256.
    destruct (byte_split bytecode handler_idx Hb) as [-> ->].
    rewrite (Z.mod_small handler_idx 256) by lia.
    rewrite <- (of_raw_bytes_raw_bytes c d' Hd'). reflexivity. }
  rewrite Hstore. split; [reflexivity |]. split; [| split; [reflexivity | exact Hd']].
  unfold set_m_handler, set_bytecode, d'; cbn. rewrite to_uint8_small by lia. reflexivity.
Qed.

(** X3: [atomic_overwrite] makes the descriptor equal to [other] for every
    [other] that fits the layout, whatever the descriptor held before. *)
Theorem atomic_overwrite_spec c this other :
  representable c other -> atomic_overwrite c this other = other.
Proof.
  intros Hother. unfold atomic_overwrite.
  pose proof (le_bytes_le_value (raw_bytes c other) (raw_bytes_range c other Hother))
    as [_ Hword].
  rewrite length_raw_bytes in Hword. rewrite Hword.
  apply of_raw_bytes_raw_bytes. exact Hother.
Qed.

Lemma operator_eq_fields d other :
  operator_eq d other = true <->
  m_bytecode d = m_bytecode other /\ m_handler d = m_handler other /\
  idxend d = idxend other /\ instr d = instr other.
Proof.
  unfold operator_eq. rewrite !andb_true_iff, !Z.eqb_eq. tauto.
Qed.

(** X4: [operator==] does not look at [icount].  Without compressed
    instructions two descriptors that fit the layout compare equal exactly
    when their eight bytes are equal (that is, when they are equal); with
    compressed instructions exactly when their images agree outside byte
    3. *)
Theorem operator_eq_image c d other :
  representable c d -> representable c other ->
  (operator_eq d other = true <->
   (if c then <[3%nat := 0]> (raw_bytes c d) = <[3%nat := 0]> (raw_bytes c other)
    else raw_bytes c d = raw_bytes c other)) /\
  (c = false -> (operator_eq d other = true <-> d = other)) /\
  (c = true ->
   operator_eq d (mkDecoderData (m_bytecode d) (m_handler d) (idxend d) 0 (instr d))
   = true).
Proof.
  intros Hd Ho. rewrite operator_eq_fields.
  pose proof (of_raw_bytes_raw_bytes c d Hd) as Hrd.
  pose proof (of_raw_bytes_raw_bytes c other Ho) as Hro.
  destruct c.
  - split; [| split; [discriminate |]].
    + set (mask := fun x => mkDecoderData (m_bytecode x) (m_handler x) (idxend x) 0 (instr x)).
      assert (Hmask : forall x, <[3%nat := 0]> (raw_bytes true x) = raw_bytes true (mask x))
        by reflexivity.
      assert (Hrep : forall x, representable true x -> representable true (mask x)).
      { intros x (H1 & H2 & H3 & H4 & H5). repeat split; cbn; lia. }
      rewrite !Hmask. split.
      * intros (H1 & H2 & H3 & H4). unfold mask. rewrite H1, H2, H3, H4. reflexivity.
      * intros Heq.
        assert (Hm : mask d = mask other).
        { rewrite <- (of_raw_bytes_raw_bytes true (mask d) (Hrep d Hd)).
          rewrite <- (of_raw_bytes_raw_bytes true (mask other) (Hrep other Ho)).
          rewrite Heq. reflexivity. }
        unfold mask in Hm. injection Hm as H1 H2 H3 H4. tauto.
    + intros _. apply operator_eq_fields. cbn. tauto.
  - assert (Hiff : m_bytecode d = m_bytecode other /\ m_handler d = m_handler other /\
                   idxend d = idxend other /\ instr d = instr other <-> d = other).
    { split; [| intros ->; tauto].
      intros (H1 & H2 & H3 & H4).
      destruct Hd as (_ & _ & _ & Hic & _). destruct Ho as (_ & _ & _ & Hic' & _).
      destruct d, other; cbn in *. congruence. }
    split; [| split; [intros _; exact Hiff | discriminate]].
    rewrite Hiff. split; [intros ->; reflexivity |].
    intros Heq. rewrite <- Hrd, <- Hro, Heq. reflexivity.
Qed.

(** ** The portable encoding of the decoder cache *)

Lemma manual_bytes_raw_bytes d :
  representable true d -> manual_bytes d = raw_bytes true d.
Proof.
  intros (Hb & Hh & Hidx & Hic & Hins).
  unfold manual_bytes, raw_bytes, to_uint8, wrap. cbn [le_bytes app].
  rewrite !Z.shiftr_shiftr by lia. rewrite Z.shiftr_0_r.
  rewrite !land_255. change (2 ^ 8) with 256. rewrite !Z.mod_mod by lia.
  rewrite (Z.mod_small (idxend d)) by lia.
  rewrite (Z.mod_small (icount d)) by lia.
  reflexivity.
Qed.

Lemma le_value_bound bs :
  Forall (fun b => 0 <= b < 256) bs ->
  0 <= le_value bs < 2 ^ (8 * Z.of_nat (length bs)).
Proof.
  induction 1 as [| b bs Hb _ IH]; [cbn; lia |].
  cbn [le_value length]. rewrite lor_shiftl_8 by lia.
  replace (8 * Z.of_nat (S (length bs))) with (8 + 8 * Z.of_nat (length bs)) by lia.
  rewrite Z.pow_add_r by lia. change (2 ^ 8) with 256. nia.
Qed.

Lemma read_manual_of_raw_bytes bytes offset :
  (offset + 8 <= length bytes)%nat ->
  read_manual bytes offset = Ok (of_raw_bytes true (take 8 (drop offset bytes))).
Proof.
  intros Hlen. unfold read_manual.
  assert (Hl : length (take 8 (drop offset bytes)) = 8%nat)
    by (rewrite length_take, length_drop; lia).
  destruct (take 8 (drop offset bytes)) as [| b0 [| b1 [| b2 [| b3 [| b4 [| b5 [| b6 [| b7 [| ? ?]]]]]]]]];
    try discriminate Hl.
  unfold of_raw_bytes. cbn [take le_value].
  rewrite Z.shiftl_0_l, Z.lor_0_r.
  rewrite !Z.shiftl_lor, !Z.shiftl_shiftl by lia.
  rewrite !Z.lor_assoc. reflexivity.
Qed.

Lemma of_raw_bytes_instr_range bs :
  Forall (fun b => 0 <= b < 256) bs -> 0 <= instr (of_raw_bytes true bs) < 2 ^ 32.
Proof.
  intros Hbs. unfold of_raw_bytes.
  destruct bs as [| b0 [| b1 [| b2 [| b3 rest]]]]; cbn [instr]; try lia.
  assert (Hrest : Forall (fun b => 0 <= b < 256) (take 4 rest)).
  { apply Forall_take. repeat (apply Forall_cons in Hbs as [_ Hbs]). exact Hbs. }
  pose proof (le_value_bound _ Hrest) as Hv.
  assert (length (take 4 rest) <= 4)%nat by (rewrite length_take; lia).
  assert (2 ^ (8 * Z.of_nat (length (take 4 rest))) <= 2 ^ 32)
    by (apply Z.pow_le_mono_r; lia).
  lia.
Qed.

Lemma read_descriptors_instr_range k : forall bs,
  Forall (fun b => 0 <= b < 256) bs ->
  Forall (fun d => 0 <= instr d < 2 ^ 32) (read_descriptors true k bs).
Proof.
  induction k as [| k IH]; intros bs Hbs; cbn [read_descriptors]; constructor.
  - apply of_raw_bytes_instr_range, Forall_take, Hbs.
  - apply IH, Forall_drop, Hbs.
Qed.

Lemma read_caches_instr_range sz n : forall bs,
  Forall (fun b => 0 <= b < 256) bs ->
  Forall (fun dc => Forall (fun d => 0 <= instr d < 2 ^ 32) (cache dc))
         (read_caches true sz n bs).
Proof.
  induction n as [| n IH]; intros bs Hbs; cbn [read_caches]; constructor.
  - cbn [cache]. apply read_descriptors_instr_range, Hbs.
  - apply IH, Forall_drop, Hbs.
Qed.

Section PortableProperties.
Context {Handler : Type} `{Countable Handler}.
Variable decode : Z -> Instruction Handler.

Lemma handlers_extend_refl (t : HandlerTables Handler) : handlers_extend t t.
Proof. split; [lia | reflexivity]. Qed.

Lemma handlers_extend_trans (t1 t2 t3 : HandlerTables Handler) :
  handlers_extend t1 t2 -> handlers_extend t2 t3 -> handlers_extend t1 t3.
Proof.
  intros [Hc1 Hf1] [Hc2 Hf2]. split; [lia |].
  intros k Hk. rewrite Hf2 by lia. apply Hf1. exact Hk.
Qed.

Lemma relinked_extend (t t' : HandlerTables Handler) d d' :
  handlers_extend t t' -> relinked decode t d d' -> relinked decode t' d d'.
Proof.
  intros [Hc Hf] (Hfields & Hzero & Hbound).
  split; [exact Hfields |]. split; [exact Hzero |].
  intros Hne. destruct (Hbound Hne) as [Hidx Hget].
  split; [lia |]. unfold get_handler in *. rewrite Hf by lia. exact Hget.
Qed.

(** What one call of [set_handler] does to the descriptor and the
    tables. *)
Lemma set_handler_fields (t : HandlerTables Handler) d insn t' d' :
  set_handler t d insn = Ok (t', d') ->
  d' = set_m_handler d (m_handler d') /\
  inst_handler_mapping t' !! m_handler d' = Some (instr d) /\
  handlers_extend t t'.
Proof.
  unfold set_handler, set_insn_handler, handler_index_for.
  destruct (handler_cache t !! handler insn) as [idx |] eqn:Hhit.
  - cbn. intros Hset. injection Hset as <- <-.
    cbn [set_m_handler m_handler instr inst_handler_mapping].
    split; [reflexivity |]. split; [apply lookup_insert_eq |].
    split; cbn [handler_count instr_handlers]; [lia | reflexivity].
  - destruct (256 <=? handler_count t) eqn:Hfull; [discriminate |].
    cbn. intros Hset. injection Hset as <- <-.
    cbn [set_m_handler m_handler instr inst_handler_mapping].
    split; [reflexivity |]. split; [apply lookup_insert_eq |].
    split; cbn [handler_count instr_handlers]; [lia |].
    intros k Hk. apply list_lookup_insert_ne. lia.
Qed.

(** [set_handler] succeeds while the handlers still to be registered
    fit. *)
Lemma set_handler_fit (S : gset Handler) (t : HandlerTables Handler) d insn :
  handlers_fit S t -> handler insn ∈ S ->
  exists t' d', set_handler t d insn = Ok (t', d') /\ handlers_fit S t'.
Proof.
  unfold handlers_fit. intros Hfit Hin.
  unfold set_handler, set_insn_handler, handler_index_for.
  destruct (handler_cache t !! handler insn) as [idx |] eqn:Hhit.
  - cbn. eexists _, _. split; [reflexivity |]. cbn [handler_count handler_cache].
    exact Hfit.
  - assert (Hnew : handler insn ∈ S ∖ dom (handler_cache t)).
    { apply elem_of_difference. split; [exact Hin |].
      apply not_elem_of_dom. exact Hhit. }
    assert (Hsub : ({[ handler insn ]} : gset Handler) ⊆ S ∖ dom (handler_cache t))
      by (apply singleton_subseteq_l; exact Hnew).
    pose proof (subseteq_size _ _ Hsub) as Hsize. rewrite size_singleton in Hsize.
    destruct (Z.leb_spec 256 (handler_count t)) as [Hfull | Hroom]; [lia |].
    cbn. eexists _, _. split; [reflexivity |]. cbn [handler_count handler_cache].
    rewrite dom_insert_L.
    replace (S ∖ ({[handler insn]} ∪ dom (handler_cache t)))
      with ((S ∖ dom (handler_cache t)) ∖ {[handler insn]})
      by (apply set_eq; intros x;
          rewrite !elem_of_difference, elem_of_union, elem_of_singleton; tauto).
    rewrite size_difference by exact Hsub. rewrite size_singleton. lia.
Qed.

Lemma tables_inv_middle (t : HandlerTables Handler) d l1 l2 :
  tables_inv decode t (l1 ++ d :: l2) <-> tables_inv decode t (d :: l1 ++ l2).
Proof.
  unfold tables_inv. rewrite Forall_app, !Forall_cons, Forall_app. tauto.
Qed.

Lemma load_slots_spec (S : gset Handler) k : forall t bytes offset acc,
  (offset + 8 * k <= length bytes)%nat ->
  tables_inv decode t acc ->
  handlers_fit S t ->
  Forall (wanted decode S) (read_descriptors true k (drop offset bytes)) ->
  exists t' ds',
    load_slots decode t bytes offset k = Ok (t', ds') /\
    Forall2 (relinked decode t') (read_descriptors true k (drop offset bytes)) ds' /\
    tables_inv decode t' (ds' ++ acc) /\
    handlers_fit S t' /\ handlers_extend t t'.
Proof.
  induction k as [| k IH]; intros t bytes offset acc Hlen Hinv Hfit Hwant.
  - exists t, []. cbn. split; [reflexivity |]. split; [constructor |].
    split; [exact Hinv |]. split; [exact Hfit | apply handlers_extend_refl].
  - cbn [load_slots read_descriptors] in *.
    rewrite read_manual_of_raw_bytes by lia. cbn [bind].
    set (d := of_raw_bytes true (take 8 (drop offset bytes))) in *.
    apply Forall_cons in Hwant as [[Hinstr Hd] Hrest].
    rewrite drop_drop in Hrest |- *.
    assert (Hstep : exists t1 d1,
               (if m_handler d =? 0 then Ok (t, d)
                else set_handler t d (decode (instr d))) = Ok (t1, d1) /\
               relinked decode t1 d d1 /\ tables_inv decode t1 (d1 :: acc) /\
               handlers_fit S t1 /\ handlers_extend t t1).
    { destruct (Z.eqb_spec (m_handler d) 0) as [Hz | Hnz].
      - exists t, d. split; [reflexivity |]. split.
        + split; [destruct d; reflexivity |]. split; [intros _; exact Hz |].
          intros Hne. contradiction.
        + split; [| split; [exact Hfit | apply handlers_extend_refl]].
          destruct Hinv as (H1 & H2 & H3 & H4 & H5).
          repeat (split; [assumption |]).
          apply Forall_cons. split; [intros Hne; contradiction | exact H5].
      - destruct (set_handler_fit S t d (decode (instr d)) Hfit (Hd Hnz))
          as (t1 & d1 & Hset & Hfit1).
        exists t1, d1. split; [exact Hset |].
        destruct (set_handler_inv decode t acc d t1 d1 Hinv Hinstr Hset) as [Hinv1 Hi].
        destruct (set_handler_fields t d _ t1 d1 Hset) as (Hfields & Hmap & Hext).
        split; [| split; [exact Hinv1 | split; [exact Hfit1 | exact Hext]]].
        split; [exact Hfields |]. split; [intros Hz; contradiction |].
        intros _. destruct Hinv1 as (_ & _ & _ & Hm & _).
        destruct (Hm _ _ Hmap) as (Hidx & _ & Hslot).
        split; [exact Hidx |]. unfold get_handler. rewrite Hslot. reflexivity. }
    destruct Hstep as (t1 & d1 & -> & Hrel & Hinv1 & Hfit1 & Hext1). cbn [bind].
    destruct (IH t1 bytes (offset + 8)%nat (d1 :: acc) ltac:(lia) Hinv1 Hfit1 Hrest)
      as (t2 & ds & Hrun & Hrels & Hinv2 & Hfit2 & Hext2).
    rewrite Hrun. cbn [bind].
    exists t2, (d1 :: ds). split; [reflexivity |]. split.
    + constructor; [| exact Hrels]. eapply relinked_extend; eassumption.
    + split; [| split; [exact Hfit2 | eapply handlers_extend_trans; eassumption]].
      cbn [app]. apply tables_inv_middle. exact Hinv2.
Qed.

Lemma load_pages_spec (S : gset Handler) sz n : forall t bytes offset acc,
  (offset + 8 * sz * n <= length bytes)%nat ->
  tables_inv decode t acc ->
  handlers_fit S t ->
  Forall (fun dc => Forall (wanted decode S) (cache dc))
         (read_caches true sz n (drop offset bytes)) ->
  exists t' cs',
    load_pages decode t bytes offset sz n = Ok (t', cs') /\
    Forall2 (fun dc dc' => Forall2 (relinked decode t') (cache dc) (cache dc'))
            (read_caches true sz n (drop offset bytes)) cs' /\
    tables_inv decode t' (concat (map cache cs') ++ acc) /\
    handlers_fit S t' /\ handlers_extend t t'.
Proof.
  induction n as [| n IH]; intros t bytes offset acc Hlen Hinv Hfit Hwant.
  - exists t, []. cbn. split; [reflexivity |]. split; [constructor |].
    split; [exact Hinv |]. split; [exact Hfit | apply handlers_extend_refl].
  - cbn [load_pages read_caches] in *.
    apply Forall_cons in Hwant as [Hpage Hrest]. cbn [cache] in Hpage.
    rewrite drop_drop in Hrest |- *.
    destruct (load_slots_spec S sz t bytes offset acc ltac:(nia) Hinv Hfit Hpage)
      as (t1 & ds & Hrun1 & Hrels1 & Hinv1 & Hfit1 & Hext1).
    rewrite Hrun1. cbn [bind].
    destruct (IH t1 bytes (offset + 8 * sz)%nat (ds ++ acc) ltac:(nia) Hinv1 Hfit1 Hrest)
      as (t2 & cs & Hrun2 & Hrels2 & Hinv2 & Hfit2 & Hext2).
    rewrite Hrun2. cbn [bind].
    exists t2, (mkDecoderCache ds :: cs). split; [reflexivity |]. split.
    + constructor; [| exact Hrels2]. cbn [cache].
      eapply Forall2_impl; [exact Hrels1 |].
      intros x y Hxy. eapply relinked_extend; eassumption.
    + split; [| split; [exact Hfit2 | eapply handlers_extend_trans; eassumption]].
      cbn [map concat cache].
      destruct Hinv2 as (H1 & H2 & H3 & H4 & H5).
      repeat (split; [assumption |]).
      rewrite !Forall_app in H5 |- *. tauto.
Qed.

Lemma deserialize_decoder_cache_manually_spec (S : gset Handler) t bytes n :
  0 <= n < 2 ^ 31 ->
  Z.of_nat (length bytes) = n * SIZE true * 8 ->
  Forall (fun b => 0 <= b < 256) bytes ->
  tables_inv decode t [] ->
  handlers_fit S t ->
  Forall (fun dc => Forall (fun d => m_handler d <> 0 ->
                                     handler (decode (instr d)) ∈ S) (cache dc))
         (read_caches true (Z.to_nat (SIZE true)) (Z.to_nat n) bytes) ->
  exists caches' t',
    deserialize_decoder_cache_manually decode t bytes n = Ok (caches', t') /\
    Forall2 (fun dc dc' => Forall2 (relinked decode t') (cache dc) (cache dc'))
            (read_caches true (Z.to_nat (SIZE true)) (Z.to_nat n) bytes) caches' /\
    tables_inv decode t' (concat (map cache caches')) /\
    handlers_fit S t' /\ handlers_extend t t'.
Proof.
  intros Hn Hlen Hbytes Hinv Hfit Hwant.
  unfold deserialize_decoder_cache_manually.
  rewrite (to_int_small n) by lia.
  destruct (Z.ltb_spec n 0) as [Hneg | _]; [lia |].
  assert (Hn64 : to_size_t n = n) by (unfold to_size_t; apply wrap_small; lia).
  rewrite Hn64.
  pose proof (SIZE_pos true) as Hsz.
  assert (Hreq : to_size_t (n * SIZE true * sizeof_DecoderData) = n * SIZE true * 8).
  { unfold to_size_t, sizeof_DecoderData. apply wrap_small. nia. }
  rewrite Hreq, Hlen, Z.eqb_refl. cbn [negb].
  assert (Hwant' : Forall (fun dc => Forall (wanted decode S) (cache dc))
                     (read_caches true (Z.to_nat (SIZE true)) (Z.to_nat n) (drop 0 bytes))).
  { cbn [drop].
    pose proof (read_caches_instr_range (Z.to_nat (SIZE true)) (Z.to_nat n) bytes Hbytes)
      as Hrange.
    rewrite Forall_forall in Hwant, Hrange |- *. intros dc Hdc.
    specialize (Hwant dc Hdc). specialize (Hrange dc Hdc).
    rewrite Forall_forall in Hwant, Hrange |- *. intros d Hd.
    split; [apply Hrange, Hd | apply Hwant, Hd]. }
  destruct (load_pages_spec S (Z.to_nat (SIZE true)) (Z.to_nat n) t bytes 0%nat []
              ltac:(nia) Hinv Hfit Hwant')
    as (t' & cs & Hrun & Hrels & Hinv' & Hfit' & Hext).
  rewrite Hrun. cbn [bind drop] in *.
  exists cs, t'. rewrite app_nil_r in Hinv'. tauto.
Qed.

End PortableProperties.

Lemma caches_image_range c caches :
  Forall (fun dc => Forall (representable c) (cache dc)) caches ->
  Forall (fun b => 0 <= b < 256) (caches_image c caches).
Proof.
  induction 1 as [| dc caches Hdc _ IH]; [constructor |].
  rewrite caches_image_cons. apply Forall_app. split; [| exact IH].
  unfold descriptors_image. clear -Hdc.
  induction Hdc as [| d ds Hd _ IH]; [constructor |].
  cbn [map concat]. apply Forall_app. split; [| exact IH].
  apply raw_bytes_range. exact Hd.
Qed.

Lemma serialize_cache_manually_raw caches n :
  1 <= n -> n * SIZE true * 8 < 2 ^ 31 ->
  Z.of_nat (length caches) = n ->
  Forall (fun dc => Forall (representable true) (cache dc)) caches ->
  serialize_cache_manually caches n = Ok (caches_image true caches).
Proof.
  intros Hn Hfit Hlen Hrep. unfold serialize_cache_manually.
  pose proof (SIZE_pos true) as Hsz.
  rewrite (to_int_small n) by nia.
  destruct (Z.eqb_spec n 0) as [-> | _]; [lia |].
  assert (Hn64 : to_size_t n = n) by (unfold to_size_t; apply wrap_small; nia).
  rewrite Hn64. unfold sizeof_DecoderData. rewrite to_int_small by nia.
  destruct (Z.ltb_spec (n * SIZE true * 8) 0) as [Hneg | _]; [nia |].
  destruct (Z.ltb_spec (Z.of_nat (length caches)) n) as [Hshort | _]; [lia |].
  rewrite firstn_all2 by lia. f_equal.
  unfold caches_image, descriptors_image.
  clear -Hrep. induction Hrep as [| dc caches Hdc _ IH]; [reflexivity |].
  cbn [map concat]. rewrite map_app, concat_app, IH. f_equal.
  clear -Hdc. induction Hdc as [| d ds Hd _ IH]; [reflexivity |].
  cbn [map concat]. rewrite IH, manual_bytes_raw_bytes by exact Hd. reflexivity.
Qed.

(** X5: in the portable encoding, [n >= 1] pages of descriptors that fit
    their layout (below 2 GiB) serialize to exactly the bytes the
    descriptors occupy in memory, [n * SIZE * 8] of them: on a
    little-endian host the field-by-field writer and the raw [memcpy] of
    the array produce the same image. *)
Theorem serialize_cache_manually_image caches n :
  1 <= n -> n * SIZE true * 8 < 2 ^ 31 ->
  Z.of_nat (length caches) = n ->
  Forall (fun dc => length (cache dc) = Z.to_nat (SIZE true)) caches ->
  Forall (fun dc => Forall (representable true) (cache dc)) caches ->
  serialize_cache_manually caches n = Ok (caches_image true caches) /\
  Z.of_nat (length (caches_image true caches)) = n * SIZE true * 8 /\
  Forall (fun b => 0 <= b < 256) (caches_image true caches).
Proof.
  intros Hn Hfit Hlen Hsz Hrep.
  split; [apply serialize_cache_manually_raw; assumption |]. split.
  - rewrite (length_caches_image true _ caches Hsz).
    pose proof (SIZE_pos true). lia.
  - apply caches_image_range. exact Hrep.
Qed.

Section PortableTheorems.
Context {Handler : Type} `{Countable Handler}.
Variable decode : Z -> Instruction Handler.

(** X6: the portable loader on any buffer of [n * SIZE * 8] bytes, when
    the tables are consistent and the handlers the stored descriptors ask
    for still fit into the handler array: it succeeds; every slot keeps
    the stored fields but [m_handler]; a stored handler index 0 stays 0,
    any other is replaced by an index whose entry of the handler array is
    the handler that [decode] gives for the slot's [instr], whatever index
    the file held; the tables stay consistent and every handler registered
    before keeps its index. *)
Theorem deserialize_decoder_cache_manually_contract (S : gset Handler) t bytes n :
  0 <= n < 2 ^ 31 ->
  Z.of_nat (length bytes) = n * SIZE true * 8 ->
  Forall (fun b => 0 <= b < 256) bytes ->
  tables_inv decode t [] ->
  handlers_fit S t ->
  Forall (fun dc => Forall (fun d => m_handler d <> 0 ->
                                     handler (decode (instr d)) ∈ S) (cache dc))
         (read_caches true (Z.to_nat (SIZE true)) (Z.to_nat n) bytes) ->
  exists caches' t',
    deserialize_decoder_cache_manually decode t bytes n = Ok (caches', t') /\
    Forall2 (fun dc dc' => Forall2 (relinked decode t') (cache dc) (cache dc'))
            (read_caches true (Z.to_nat (SIZE true)) (Z.to_nat n) bytes) caches' /\
    tables_inv decode t' (concat (map cache caches')) /\
    handlers_extend t t'.
Proof.
  intros Hn Hlen Hbytes Hinv Hfit Hwant.
  destruct (deserialize_decoder_cache_manually_spec decode S t bytes n
              Hn Hlen Hbytes Hinv Hfit Hwant)
    as (caches' & t' & Hrun & Hrel & Hinv' & _ & Hext).
  exists caches', t'. tauto.
Qed.

(** X7: the portable round trip, for every [n >= 0] (below 2 GiB of
    descriptors), [n = 0] included: pages of descriptors that fit their
    layout serialize, and loading the bytes into a process with consistent
    tables in which the needed handlers fit succeeds and gives back every
    descriptor with its handler bound again: same [m_bytecode], [idxend],
    [icount] and [instr], and an [m_handler] that selects the handler
    [decode] gives for [instr] (0 where 0 was stored). *)
Theorem portable_round_trip (S : gset Handler) t caches n :
  0 <= n -> n * SIZE true * 8 < 2 ^ 31 ->
  Z.of_nat (length caches) = n ->
  Forall (fun dc => length (cache dc) = Z.to_nat (SIZE true)) caches ->
  Forall (fun dc => Forall (representable true) (cache dc)) caches ->
  tables_inv decode t [] ->
  handlers_fit S t ->
  Forall (fun dc => Forall (fun d => m_handler d <> 0 ->
                                     handler (decode (instr d)) ∈ S) (cache dc))
         caches ->
  exists bytes caches' t',
    serialize_cache_manually caches n = Ok bytes /\
    deserialize_decoder_cache_manually decode t bytes n = Ok (caches', t') /\
    Forall2 (fun dc dc' => Forall2 (relinked decode t') (cache dc) (cache dc'))
            caches caches' /\
    tables_inv decode t' (concat (map cache caches')).
Proof.
  intros Hn Hfit Hlen Hsz Hrep Hinv Hroom Hwant.
  pose proof (SIZE_pos true) as Hsize.
  assert (Himage : Z.of_nat (length (caches_image true caches)) = n * SIZE true * 8).
  { rewrite (length_caches_image true _ caches Hsz). lia. }
  assert (Hread : read_caches true (Z.to_nat (SIZE true)) (Z.to_nat n)
                    (caches_image true caches) = caches).
  { replace (Z.to_nat n) with (length caches) by lia.
    rewrite <- (app_nil_r (caches_image true caches)).
    apply read_caches_image; assumption. }
  assert (Hbytes : Forall (fun b => 0 <= b < 256) (caches_image true caches)).
  { apply caches_image_range. exact Hrep. }
  assert (Hser : serialize_cache_manually caches n = Ok (caches_image true caches)).
  { destruct (Z.eq_dec n 0) as [-> | Hpos].
    - destruct caches; [reflexivity | cbn in Hlen; lia].
    - apply serialize_cache_manually_raw; [lia | assumption ..]. }
  destruct (deserialize_decoder_cache_manually_spec decode S t
              (caches_image true caches) n ltac:(nia) Himage Hbytes Hinv Hroom
              ltac:(rewrite Hread; exact Hwant))
    as (caches' & t' & Hrun & Hrel & Hinv' & _ & _).
  rewrite Hread in Hrel.
  exists (caches_image true caches), caches', t'. tauto.
Qed.

Lemma load_slots_errors k : forall (t : HandlerTables Handler) bytes offset,
  (offset + 8 * k <= length bytes)%nat ->
  (exists r, load_slots decode t bytes offset k = Ok r) \/
  load_slots decode t bytes offset k = Throw too_many_handlers.
Proof.
  induction k as [| k IH]; intros t bytes offset Hlen; [left; eexists; reflexivity |].
  cbn [load_slots]. rewrite read_manual_of_raw_bytes by lia. cbn [bind].
  set (d := of_raw_bytes true (take 8 (drop offset bytes))).
  assert (Hstep : (exists t1 d1, (if m_handler d =? 0 then Ok (t, d)
                                  else set_handler t d (decode (instr d))) = Ok (t1, d1)) \/
                  (if m_handler d =? 0 then Ok (t, d)
                   else set_handler t d (decode (instr d))) = Throw too_many_handlers).
  { destruct (m_handler d =? 0); [left; eexists _, _; reflexivity |].
    unfold set_handler, set_insn_handler, handler_index_for.
    destruct (handler_cache t !! handler (decode (instr d))) as [idx |];
      [left; eexists _, _; reflexivity |].
    destruct (256 <=? handler_count t); [right; reflexivity |].
    left; eexists _, _; reflexivity. }
  destruct Hstep as [(t1 & d1 & ->) | ->]; [| right; reflexivity]. cbn [bind].
  destruct (IH t1 bytes (offset + 8)%nat ltac:(lia)) as [[[t2 ds] ->] | ->];
    [left; eexists; reflexivity | right; reflexivity].
Qed.

Lemma load_pages_errors sz n : forall (t : HandlerTables Handler) bytes offset,
  (offset + 8 * sz * n <= length bytes)%nat ->
  (exists r, load_pages decode t bytes offset sz n = Ok r) \/
  load_pages decode t bytes offset sz n = Throw too_many_handlers.
Proof.
  induction n as [| n IH]; intros t bytes offset Hlen; [left; eexists; reflexivity |].
  cbn [load_pages].
  destruct (load_slots_errors sz t bytes offset ltac:(nia)) as [[[t1 ds] ->] | ->];
    [| right; reflexivity]. cbn [bind].
  destruct (IH t1 bytes (offset + 8 * sz)%nat ltac:(nia)) as [[[t2 cs] ->] | ->];
    [left; eexists; reflexivity | right; reflexivity].
Qed.

(** X8: the failures of the portable loader.  A negative page count fails
    in [new DecoderCache<W>[n]]; for [n >= 0] a buffer is refused with
    [std::runtime_error] exactly when its length is not [n * SIZE * 8]; a
    buffer of that length is never read outside its bounds, and the only
    failure left is a full handler array. *)
Theorem deserialize_decoder_cache_manually_errors t bytes n :
  - 2 ^ 31 <= n < 2 ^ 31 ->
  (n < 0 ->
   deserialize_decoder_cache_manually decode t bytes n = Throw bad_array_new_length) /\
  (0 <= n -> Z.of_nat (length bytes) <> n * SIZE true * 8 ->
   deserialize_decoder_cache_manually decode t bytes n = Throw runtime_error) /\
  (0 <= n -> Z.of_nat (length bytes) = n * SIZE true * 8 ->
   (exists r, deserialize_decoder_cache_manually decode t bytes n = Ok r) \/
   deserialize_decoder_cache_manually decode t bytes n = Throw too_many_handlers).
Proof.
  intros Hn. unfold deserialize_decoder_cache_manually.
  rewrite (to_int_small n) by lia.
  pose proof (SIZE_pos true) as Hsz.
  split; [| split].
  - intros Hneg. destruct (Z.ltb_spec n 0); [reflexivity | lia].
  - intros Hpos Hlen. destruct (Z.ltb_spec n 0); [lia |].
    assert (Hn64 : to_size_t n = n) by (unfold to_size_t; apply wrap_small; lia).
    rewrite Hn64. unfold to_size_t, sizeof_DecoderData. rewrite wrap_small by nia.
    destruct (Z.eqb_spec (Z.of_nat (length bytes)) (n * SIZE true * 8));
      [contradiction | reflexivity].
  - intros Hpos Hlen. destruct (Z.ltb_spec n 0); [lia |].
    assert (Hn64 : to_size_t n = n) by (unfold to_size_t; apply wrap_small; lia).
    rewrite Hn64. unfold to_size_t, sizeof_DecoderData. rewrite wrap_small by nia.
    rewrite Hlen, Z.eqb_refl. cbn [negb].
    destruct (load_pages_errors (Z.to_nat (SIZE true)) (Z.to_nat n) t bytes 0%nat
                ltac:(nia)) as [[[t' cs] ->] | ->];
      [left; eexists; reflexivity | right; reflexivity].
Qed.

End PortableTheorems.

(** ** Examples for the portable encoding and [DecoderData] *)

Lemma tables_inv_nil {Handler : Type} `{Countable Handler}
    (decode : Z -> Instruction Handler) t ds :
  tables_inv decode t ds -> tables_inv decode t [].
Proof.
  intros (H1 & H2 & H3 & H4 & _). repeat (split; [assumption |]). constructor.
Defined.

Lemma example_tables_inv : tables_inv example_decode example_tables [].
Proof.
  assert (H0 : tables_inv example_decode (initial_tables (Handler := Z)) [])
    by (apply tables_inv_initial; constructor).
  assert (H1 : tables_inv example_decode (tables_of example_step1) []).
  { eapply tables_inv_nil.
    apply (set_handler_inv example_decode initial_tables [] example_invalid
             (tables_of example_step1) (descriptor_of example_step1) H0);
      [cbn; lia | by_evaluation]. }
  assert (H2 : tables_inv example_decode (tables_of example_step2) []).
  { eapply tables_inv_nil.
    apply (set_handler_inv example_decode (tables_of example_step1) [] example_slot0
             (tables_of example_step2) (descriptor_of example_step2) H1);
      [cbn; lia | by_evaluation]. }
  eapply tables_inv_nil.
  apply (set_handler_inv example_decode (tables_of example_step2) [] example_slot1
           (tables_of example_step3) (descriptor_of example_step3) H2);
    [cbn; lia | by_evaluation].
Defined.

Lemma set_atomic_bytecode_and_handler_spec_witness :
  set_atomic_bytecode_and_handler false example_slot0 7 3
  = mkDecoderData 7 3 (idxend example_slot0) (icount example_slot0) (instr example_slot0) /\
  set_atomic_bytecode_and_handler false example_slot0 7 3
  = set_m_handler (set_bytecode example_slot0 7) 3 /\
  drop 2 (raw_bytes false (set_atomic_bytecode_and_handler false example_slot0 7 3))
  = drop 2 (raw_bytes false example_slot0) /\
  representable false (set_atomic_bytecode_and_handler false example_slot0 7 3).
Proof.
  apply (set_atomic_bytecode_and_handler_spec false example_slot0 7 3).
  - by_decision.
  - lia.
  - lia.
Defined.

Lemma atomic_overwrite_spec_witness :
  atomic_overwrite true blank_descriptor (mkDecoderData 1 1 3 1 0x13)
  = mkDecoderData 1 1 3 1 0x13.
Proof.
  apply (atomic_overwrite_spec true blank_descriptor (mkDecoderData 1 1 3 1 0x13)).
  by_decision.
Defined.

Lemma operator_eq_image_witness :
  (operator_eq (mkDecoderData 1 1 3 1 0x13) (mkDecoderData 1 1 3 2 0x13) = true <->
   <[3%nat := 0]> (raw_bytes true (mkDecoderData 1 1 3 1 0x13))
   = <[3%nat := 0]> (raw_bytes true (mkDecoderData 1 1 3 2 0x13))) /\
  (true = false ->
   (operator_eq (mkDecoderData 1 1 3 1 0x13) (mkDecoderData 1 1 3 2 0x13) = true <->
    mkDecoderData 1 1 3 1 0x13 = mkDecoderData 1 1 3 2 0x13)) /\
  (true = true ->
   operator_eq (mkDecoderData 1 1 3 1 0x13)
     (mkDecoderData (m_bytecode (mkDecoderData 1 1 3 1 0x13))
        (m_handler (mkDecoderData 1 1 3 1 0x13))
        (idxend (mkDecoderData 1 1 3 1 0x13)) 0
        (instr (mkDecoderData 1 1 3 1 0x13))) = true).
Proof.
  apply (operator_eq_image true (mkDecoderData 1 1 3 1 0x13) (mkDecoderData 1 1 3 2 0x13)).
  - by_decision.
  - by_decision.
Defined.

Lemma serialize_cache_manually_image_witness :
  serialize_cache_manually example_compressed_caches 1
  = Ok (caches_image true example_compressed_caches) /\
  Z.of_nat (length (caches_image true example_compressed_caches)) = 1 * SIZE true * 8 /\
  Forall (fun b => 0 <= b < 256) (caches_image true example_compressed_caches).
Proof.
  apply (serialize_cache_manually_image example_compressed_caches 1).
  - lia.
  - by_evaluation.
  - reflexivity.
  - by_decision.
  - by_decision.
Defined.

Lemma deserialize_decoder_cache_manually_contract_witness :
  exists caches' t',
    deserialize_decoder_cache_manually example_decode example_tables
      (caches_image true example_compressed_caches) 1 = Ok (caches', t') /\
    Forall2 (fun dc dc' => Forall2 (relinked example_decode t') (cache dc) (cache dc'))
            (read_caches true (Z.to_nat (SIZE true)) (Z.to_nat 1)
               (caches_image true example_compressed_caches)) caches' /\
    tables_inv example_decode t' (concat (map cache caches')) /\
    handlers_extend example_tables t'.
Proof.
  apply (deserialize_decoder_cache_manually_contract example_decode {[ 19 ]}
           example_tables (caches_image true example_compressed_caches) 1).
  - lia.
  - by_evaluation.
  - by_decision.
  - exact example_tables_inv.
  - by_evaluation.
  - by_decision.
Defined.

Lemma portable_round_trip_witness :
  exists bytes caches' t',
    serialize_cache_manually example_compressed_caches 1 = Ok bytes /\
    deserialize_decoder_cache_manually example_decode initial_tables bytes 1
      = Ok (caches', t') /\
    Forall2 (fun dc dc' => Forall2 (relinked example_decode t') (cache dc) (cache dc'))
            example_compressed_caches caches' /\
    tables_inv example_decode t' (concat (map cache caches')).
Proof.
  apply (portable_round_trip example_decode {[ 19 ]} initial_tables
           example_compressed_caches 1).
  - lia.
  - by_evaluation.
  - reflexivity.
  - by_decision.
  - by_decision.
  - apply tables_inv_initial. constructor.
  - by_evaluation.
  - by_decision.
Defined.

Lemma deserialize_decoder_cache_manually_errors_witness :
  (1 < 0 ->
   deserialize_decoder_cache_manually example_decode initial_tables [0; 0; 0] 1
   = Throw bad_array_new_length) /\
  (0 <= 1 -> Z.of_nat (length [0; 0; 0]) <> 1 * SIZE true * 8 ->
   deserialize_decoder_cache_manually example_decode initial_tables [0; 0; 0] 1
   = Throw runtime_error) /\
  (0 <= 1 -> Z.of_nat (length [0; 0; 0]) = 1 * SIZE true * 8 ->
   (exists r, deserialize_decoder_cache_manually example_decode initial_tables
                [0; 0; 0] 1 = Ok r) \/
   deserialize_decoder_cache_manually example_decode initial_tables [0; 0; 0] 1
   = Throw too_many_handlers).
Proof.
  apply (deserialize_decoder_cache_manually_errors example_decode initial_tables
           [0; 0; 0] 1).
  lia.
Defined.

(** ** The raw loader on arbitrary buffers *)

Lemma read_descriptors_prefix c k : forall bs rest,
  (8 * k <= length bs)%nat ->
  read_descriptors c k (bs ++ rest) = read_descriptors c k bs.
Proof.
  induction k as [| k IH]; intros bs rest Hlen; [reflexivity |].
  cbn [read_descriptors].
  rewrite take_app_le, drop_app_le by lia.
  rewrite IH by (rewrite length_drop; lia). reflexivity.
Qed.

Lemma read_caches_prefix c sz n : forall bs rest,
  (8 * sz * n <= length bs)%nat ->
  read_caches c sz n (bs ++ rest) = read_caches c sz n bs.
Proof.
  induction n as [| n IH]; intros bs rest Hlen; [reflexivity |].
  cbn [read_caches].
  rewrite read_descriptors_prefix by nia.
  rewrite drop_app_le by nia.
  rewrite IH by (rewrite length_drop; nia). reflexivity.
Qed.

Section RawLoaderProperties.
Context {Handler : Type} `{Countable Handler}.
Variable decode : Z -> Instruction Handler.

Lemma rebind_handlers_errors count : forall (t : HandlerTables Handler) data off,
  (exists t', rebind_handlers decode t data off count = Ok t') \/
  rebind_handlers decode t data off count = Throw out_of_bounds.
Proof.
  induction count as [| count IH]; intros t data off; [left; eexists; reflexivity |].
  cbn [rebind_handlers]. unfold read_handler_item.
  destruct (length (take 8 (drop off data)) <? 8)%nat; [right; reflexivity |].
  cbn [bind]. unfold _assign_handler.
  destruct ((0 <=? _) && (_ <? 256)); [| right; reflexivity]. cbn [bind].
  apply IH.
Qed.

Lemma rebind_handlers_short count : forall (t : HandlerTables Handler) data off,
  (off <= length data < off + 8 * count)%nat ->
  rebind_handlers decode t data off count = Throw out_of_bounds.
Proof.
  induction count as [| count IH]; intros t data off Hshort; [lia |].
  cbn [rebind_handlers]. unfold read_handler_item.
  destruct (Nat.ltb_spec (length (take 8 (drop off data))) 8) as [| Hfull];
    [reflexivity |].
  rewrite length_take, length_drop in Hfull.
  cbn [bind]. unfold _assign_handler.
  destruct ((0 <=? _) && (_ <? 256)); [| reflexivity]. cbn [bind].
  apply IH. lia.
Qed.

Lemma rebind_handlers_frame count : forall (t t' : HandlerTables Handler) data off,
  rebind_handlers decode t data off count = Ok t' ->
  handler_count t' = handler_count t /\
  handler_cache t' = handler_cache t /\
  inst_handler_mapping t' = inst_handler_mapping t.
Proof.
  induction count as [| count IH]; intros t t' data off Hrun.
  - cbn in Hrun. injection Hrun as <-. tauto.
  - cbn [rebind_handlers] in Hrun.
    destruct (read_handler_item data off) as [it |]; [| discriminate].
    cbn [bind] in Hrun. unfold _assign_handler in Hrun.
    destruct ((0 <=? _) && (_ <? 256)); [| discriminate]. cbn [bind] in Hrun.
    apply IH in Hrun. cbn [handler_count handler_cache inst_handler_mapping] in Hrun.
    exact Hrun.
Qed.

(** X9: what the raw loader checks and what it does not.  The only
    validation is [L < required_size] with [required_size = n * SIZE * 8 +
    1], made in [size_t]: a claimed length [0 <= L < required_size] is
    refused with [std::runtime_error], every other [L], negative ones
    included, is accepted and [std::runtime_error] is never thrown.  The
    count byte [H] and the [H] items after it are then read without regard
    to the length of the buffer: a buffer shorter than [required_size], or
    shorter than [required_size + 8 * H], is read outside its bounds. *)
Theorem deserialize_decoder_cache_unchecked c t data n L :
  0 <= n -> n * SIZE c * 8 + 1 < 2 ^ 31 -> - 2 ^ 31 <= L < 2 ^ 31 ->
  (0 <= L < n * SIZE c * 8 + 1 ->
   deserialize_decoder_cache decode c t data n L = Throw runtime_error) /\
  (L < 0 \/ n * SIZE c * 8 + 1 <= L ->
   (exists r, deserialize_decoder_cache decode c t data n L = Ok r) \/
   deserialize_decoder_cache decode c t data n L = Throw out_of_bounds) /\
  (L < 0 \/ n * SIZE c * 8 + 1 <= L ->
   Z.of_nat (length data) < n * SIZE c * 8 + 1 ->
   deserialize_decoder_cache decode c t data n L = Throw out_of_bounds) /\
  (L < 0 \/ n * SIZE c * 8 + 1 <= L ->
   forall handler_c, data !! Z.to_nat (n * SIZE c * 8) = Some handler_c ->
   Z.of_nat (length data) < n * SIZE c * 8 + 1 + 8 * handler_c ->
   deserialize_decoder_cache decode c t data n L = Throw out_of_bounds).
Proof.
  intros Hn Hfit HL. unfold deserialize_decoder_cache.
  pose proof (SIZE_pos c) as Hsz.
  rewrite (to_int_small n), (to_int_small L) by nia.
  assert (Hn64 : to_size_t n = n) by (unfold to_size_t; apply wrap_small; nia).
  rewrite Hn64. unfold sizeof_DecoderData.
  assert (Hreq : to_size_t (n * SIZE c * 8 + 1) = n * SIZE c * 8 + 1)
    by (unfold to_size_t; apply wrap_small; nia).
  rewrite Hreq.
  replace (n * SIZE c * 8 + 1 - 1) with (n * SIZE c * 8) by lia.
  assert (Hpass : L < 0 \/ n * SIZE c * 8 + 1 <= L ->
                  (to_size_t L <? n * SIZE c * 8 + 1) = false).
  { intros HLr. apply Z.ltb_ge. unfold to_size_t, wrap.
    destruct HLr as [Hneg | Hbig].
    - replace L with (L + 2 ^ 64 + (-1) * 2 ^ 64) by lia.
      rewrite Z.mod_add by lia. rewrite Z.mod_small by lia. lia.
    - rewrite Z.mod_small by lia. lia. }
  split; [| split; [| split]].
  - intros HLr. unfold to_size_t. rewrite wrap_small by lia.
    destruct (Z.ltb_spec L (n * SIZE c * 8 + 1)); [reflexivity | lia].
  - intros HLr. rewrite (Hpass HLr).
    destruct (data !! Z.to_nat (n * SIZE c * 8)) as [handler_c |];
      [| right; reflexivity].
    destruct (rebind_handlers_errors (Z.to_nat handler_c) t data
                (Z.to_nat (n * SIZE c * 8 + 1))) as [[t' ->] | ->];
      [left; eexists; reflexivity | right; reflexivity].
  - intros HLr Hshort. rewrite (Hpass HLr).
    rewrite (lookup_ge_None_2 data) by lia. reflexivity.
  - intros HLr handler_c Hbyte Hshort. rewrite (Hpass HLr), Hbyte.
    rewrite rebind_handlers_short; [reflexivity |].
    apply lookup_lt_Some in Hbyte. lia.
Qed.

(** X10: the raw loader on a well-formed buffer of any origin: [n >= 0]
    pages of bytes, a count byte, that many items that name entries of the
    handler array, then any trailing bytes.  For every claimed length [L]
    that passes the check the loader succeeds; the caches are the leading
    [n * SIZE * 8] bytes read as descriptors; [handler_count], the handler
    cache and [inst_handler_mapping] are left as they were; and of the
    handler array exactly the entries named by the items change, to the
    handler that [decode] gives for the item's encoding. *)
Theorem deserialize_decoder_cache_frame c t image items post n L :
  0 <= n -> n * SIZE c * 8 + 1 < 2 ^ 31 -> - 2 ^ 31 <= L < 2 ^ 31 ->
  L < 0 \/ n * SIZE c * 8 + 1 <= L ->
  Z.of_nat (length image) = n * SIZE c * 8 ->
  (length items < 256)%nat ->
  Forall item_ok items ->
  length (instr_handlers t) = 256%nat ->
  exists t',
    deserialize_decoder_cache decode c t
      (image ++ [Z.of_nat (length items)] ++ concat (map item_bytes items) ++ post) n L
    = Ok (read_caches c (Z.to_nat (SIZE c)) (Z.to_nat n) image, t') /\
    handler_count t' = handler_count t /\
    handler_cache t' = handler_cache t /\
    inst_handler_mapping t' = inst_handler_mapping t /\
    length (instr_handlers t') = 256%nat /\
    (forall k, 0 <= k -> Forall (fun it => hi_idx it <> k) items ->
       instr_handlers t' !! Z.to_nat k = instr_handlers t !! Z.to_nat k) /\
    (forall it, it ∈ items ->
       (forall it', it' ∈ items -> hi_idx it' = hi_idx it -> hi_instr it' = hi_instr it) ->
       instr_handlers t' !! Z.to_nat (hi_idx it)
       = Some (Some (handler (decode (hi_instr it))))).
Proof.
  intros Hn Hfit HL HLr Himage Hitems Hok Hlen.
  pose proof (SIZE_pos c) as Hsz.
  destruct (rebind_handlers_items decode items t
              (image ++ [Z.of_nat (length items)]) post Hok Hlen)
    as (t' & Hrun & Hlen' & Hframe & Hbound).
  rewrite <- app_assoc in Hrun. rewrite length_app in Hrun. cbn [length] in Hrun.
  destruct (rebind_handlers_frame _ _ _ _ _ Hrun) as (Hc & Hhc & Hm).
  exists t'. split; [| tauto].
  unfold deserialize_decoder_cache.
  rewrite (to_int_small n), (to_int_small L) by nia.
  assert (Hn64 : to_size_t n = n) by (unfold to_size_t; apply wrap_small; nia).
  rewrite Hn64. unfold sizeof_DecoderData.
  assert (Hreq : to_size_t (n * SIZE c * 8 + 1) = n * SIZE c * 8 + 1)
    by (unfold to_size_t; apply wrap_small; nia).
  rewrite Hreq.
  replace (to_size_t L <? n * SIZE c * 8 + 1) with false.
  2:{ symmetry. apply Z.ltb_ge. unfold to_size_t, wrap.
      destruct HLr as [Hneg | Hbig].
      - replace L with (L + 2 ^ 64 + (-1) * 2 ^ 64) by lia.
        rewrite Z.mod_add by lia. rewrite Z.mod_small by lia. lia.
      - rewrite Z.mod_small by lia. lia. }
  replace (Z.to_nat (n * SIZE c * 8 + 1 - 1)) with (length image) by lia.
  change ([Z.of_nat (length items)] ++ concat (map item_bytes items) ++ post)
    with (Z.of_nat (length items) :: concat (map item_bytes items) ++ post).
  rewrite (list_lookup_middle image _ _ (length image)) by reflexivity.
  rewrite Nat2Z.id.
  replace (Z.to_nat (n * SIZE c * 8 + 1)) with (length image + 1)%nat by lia.
  cbn [app] in Hrun. rewrite Hrun. cbn [bind].
  f_equal. f_equal.
  apply read_caches_prefix. nia.
Qed.

End RawLoaderProperties.

(** X9 on a one-byte buffer that announces three handler items and holds
    none. *)
Lemma deserialize_decoder_cache_unchecked_witness :
  (0 <= 1 < 0 * SIZE false * 8 + 1 ->
   deserialize_decoder_cache example_decode false initial_tables [3] 0 1
   = Throw runtime_error) /\
  (1 < 0 \/ 0 * SIZE false * 8 + 1 <= 1 ->
   (exists r, deserialize_decoder_cache example_decode false initial_tables [3] 0 1
              = Ok r) \/
   deserialize_decoder_cache example_decode false initial_tables [3] 0 1
   = Throw out_of_bounds) /\
  (1 < 0 \/ 0 * SIZE false * 8 + 1 <= 1 ->
   Z.of_nat (length [3]) < 0 * SIZE false * 8 + 1 ->
   deserialize_decoder_cache example_decode false initial_tables [3] 0 1
   = Throw out_of_bounds) /\
  (1 < 0 \/ 0 * SIZE false * 8 + 1 <= 1 ->
   forall handler_c, [3] !! Z.to_nat (0 * SIZE false * 8) = Some handler_c ->
   Z.of_nat (length [3]) < 0 * SIZE false * 8 + 1 + 8 * handler_c ->
   deserialize_decoder_cache example_decode false initial_tables [3] 0 1
   = Throw out_of_bounds).
Proof.
  apply (deserialize_decoder_cache_unchecked example_decode false initial_tables [3] 0 1).
  - lia.
  - by_evaluation.
  - lia.
Defined.

(** X10 on an empty cache array followed by one item and a trailing byte,
    with a negative claimed length. *)
Lemma deserialize_decoder_cache_frame_witness :
  exists t',
    deserialize_decoder_cache example_decode false initial_tables
      ([] ++ [Z.of_nat (length [mk_handler_item 1 0x13])]
          ++ concat (map item_bytes [mk_handler_item 1 0x13]) ++ [255]) 0 (-1)
    = Ok (read_caches false (Z.to_nat (SIZE false)) (Z.to_nat 0) [], t') /\
    handler_count t' = handler_count (initial_tables (Handler := Z)) /\
    handler_cache t' = handler_cache (initial_tables (Handler := Z)) /\
    inst_handler_mapping t' = inst_handler_mapping (initial_tables (Handler := Z)) /\
    length (instr_handlers t') = 256%nat /\
    (forall k, 0 <= k -> Forall (fun it => hi_idx it <> k) [mk_handler_item 1 0x13] ->
       instr_handlers t' !! Z.to_nat k
       = instr_handlers (initial_tables (Handler := Z)) !! Z.to_nat k) /\
    (forall it, it ∈ [mk_handler_item 1 0x13] ->
       (forall it', it' ∈ [mk_handler_item 1 0x13] ->
                    hi_idx it' = hi_idx it -> hi_instr it' = hi_instr it) ->
       instr_handlers t' !! Z.to_nat (hi_idx it)
       = Some (Some (handler (example_decode (hi_instr it))))).
Proof.
  apply (deserialize_decoder_cache_frame example_decode false initial_tables
           [] [mk_handler_item 1 0x13] [255] 0 (-1)).
  - lia.
  - by_evaluation.
  - lia.
  - left. lia.
  - reflexivity.
  - cbn. lia.
  - repeat constructor; cbn; lia.
  - reflexivity.
Defined.

(** ** The system calls: invariants and whole-call behaviour *)

Lemma land_pow2 f n :
  0 <= n -> Z.land f (2 ^ n) = if Z.testbit f n then 2 ^ n else 0.
Proof.
  intros Hn. apply Z.bits_inj'. intros i Hi.
  rewrite Z.land_spec, Z.pow2_bits_eqb by exact Hn.
  destruct (Z.eqb_spec n i) as [<- | Hne].
  - destruct (Z.testbit f n) eqn:Hbit; cbn.
    + rewrite Z.pow2_bits_true by exact Hn. reflexivity.
    + rewrite Z.bits_0. reflexivity.
  - rewrite andb_false_r.
    destruct (Z.testbit f n); [rewrite Z.pow2_bits_false by exact Hne | rewrite Z.bits_0];
      reflexivity.
Qed.

Lemma sa_flags_reported f :
  (if negb (Z.land f SA_ONSTACK =? 0) then SA_ONSTACK else 0) = Z.land f SA_ONSTACK.
Proof.
  change SA_ONSTACK with (2 ^ 27). rewrite land_pow2 by lia.
  destruct (Z.testbit f 27); reflexivity.
Qed.

Section SyscallInvariants.
Variable W : Width.
Variable BRK_MAX : Z.
Variable mops : MemoryOps.
Variable host : HostOS.

Lemma XLEN_bytes : XLEN W = 8 * Z.of_nat (sizeof_address W).
Proof. destruct W; reflexivity. Qed.

Lemma to_address_range v : 0 <= to_address W v < 2 ^ XLEN W.
Proof.
  unfold to_address, wrap. apply Z.mod_pos_bound.
  apply Z.pow_pos_nonneg; [lia | destruct W; cbn; lia].
Qed.

Lemma land_align16 h :
  0 <= h < 2 ^ XLEN W -> Z.land h (to_address W (Z.lnot 15)) = 16 * (h / 16).
Proof.
  intros Hh. unfold to_address, wrap.
  rewrite <- Z.land_ones by (destruct W; cbn; lia).
  rewrite (Z.land_comm (Z.lnot 15)), Z.land_assoc.
  rewrite Z.land_ones by (destruct W; cbn; lia).
  rewrite (Z.mod_small h) by exact Hh.
  rewrite <- Z.ldiff_land. change 15 with (Z.ones 4).
  rewrite Z.ldiff_ones_r by lia.
  rewrite Z.shiftl_mul_pow2, Z.shiftr_div_pow2 by lia.
  change (2 ^ 4) with 16. lia.
Qed.

Lemma kernel_sigaction_bytes_inv_xlen h f k :
  0 <= h < 2 ^ XLEN W -> 0 <= f < 2 ^ XLEN W -> 0 <= k < 2 ^ XLEN W ->
  kernel_sigaction_of_bytes W (kernel_sigaction_bytes W (mk_kernel_sigaction h f k))
  = mk_kernel_sigaction h f k.
Proof.
  intros Hh Hf Hk. rewrite XLEN_bytes in Hh, Hf, Hk.
  unfold kernel_sigaction_of_bytes, kernel_sigaction_bytes; cbn [sa_handler sa_flags sa_mask].
  set (w := sizeof_address W) in *.
  assert (Ht : forall (a b : list Z), length a = w -> take w (a ++ b) = a).
  { intros a b Ha. rewrite take_app_length' by (symmetry; exact Ha). reflexivity. }
  assert (Hd : forall (a b : list Z), length a = w -> drop w (a ++ b) = b).
  { intros a b Ha. rewrite drop_app_length' by (symmetry; exact Ha). reflexivity. }
  rewrite Ht by apply length_le_bytes.
  rewrite Hd by apply length_le_bytes.
  rewrite Ht by apply length_le_bytes.
  replace (2 * w)%nat with (w + w)%nat by lia.
  rewrite <- drop_drop.
  rewrite Hd by apply length_le_bytes.
  rewrite Hd by apply length_le_bytes.
  rewrite firstn_all2 by (rewrite length_le_bytes; lia).
  rewrite !le_value_le_bytes by assumption.
  reflexivity.
Qed.

(** X11: [rt_sigaction] for every action.  After [rt_sigaction(sig, new,
    NULL)] with [new = {h, f, k}] (any three [address_type<W>] values) for a
    non-zero signal, the action of [sig] is [{h, altstack, k}] with
    [altstack] set exactly when [f] has the [SA_ONSTACK] bit, and
    [rt_sigaction(sig, NULL, &old)] then copies to [old] the structure
    [{h} rounded down to a multiple of 16, [f & SA_ONSTACK], [k]]: of the
    flags only [SA_ONSTACK] survives, and the low four bits of the handler
    are not reported. *)
Theorem syscall_sigaction_any_action machine sig action old mem1 h f k :
  length (cpu_regs machine) = 32%nat ->
  to_int sig <> 0 -> action <> 0 -> old <> 0 ->
  0 <= h < 2 ^ XLEN W -> 0 <= f < 2 ^ XLEN W -> 0 <= k < 2 ^ XLEN W ->
  copy_from_guest mops (memory machine) action (Z.of_nat (3 * sizeof_address W))
    = Ok (kernel_sigaction_bytes W (mk_kernel_sigaction h f k), mem1) ->
  exists machine1,
    syscall_sigaction W mops (with_args machine sig action 0) = Ok machine1 /\
    memory machine1 = mem1 /\
    return_value machine1 = 0 /\
    sigaction machine1 (to_int sig)
    = Sig.mk h (negb (Z.land f SA_ONSTACK =? 0)) k /\
    syscall_sigaction W mops (with_args machine1 sig 0 old) =
      (do mem2 <- copy_to_guest mops mem1 old
                    (kernel_sigaction_bytes W
                       (mk_kernel_sigaction (16 * (h / 16)) (Z.land f SA_ONSTACK) k));
       Ok (set_result W (set_memory (with_args machine1 sig 0 old) mem2) 0)).
Proof.
  intros Hlen Hsig Haction Hold Hh Hf Hk Hnew.
  destruct (sysarg_with_args machine sig action 0 Hlen) as (Ha0 & Ha1 & Ha2).
  set (m0 := with_args machine sig action 0) in *.
  set (act := Sig.mk h (negb (Z.land f SA_ONSTACK =? 0)) k).
  set (machine1 := set_result W (set_sigaction (set_memory m0 mem1) (to_int sig) act) 0).
  assert (Hlen0 : length (cpu_regs (set_sigaction (set_memory m0 mem1) (to_int sig) act))
                  = 32%nat).
  { subst m0. unfold set_sigaction, set_memory, with_args, set_regs; cbn [cpu_regs].
    rewrite !length_insert. exact Hlen. }
  assert (Hlen1 : length (cpu_regs machine1) = 32%nat).
  { subst machine1. unfold set_result, set_regs; cbn [cpu_regs].
    rewrite length_insert. exact Hlen0. }
  exists machine1.
  assert (Hcall1 : syscall_sigaction W mops m0 = Ok machine1).
  { unfold syscall_sigaction, sysarg_int. rewrite Ha0, Ha1, Ha2.
    replace (to_int sig =? 0) with false by (symmetry; apply Z.eqb_neq; exact Hsig).
    replace (action =? 0) with false by (symmetry; apply Z.eqb_neq; exact Haction).
    cbn [Z.eqb negb bind].
    replace (memory m0) with (memory machine) by reflexivity.
    rewrite Hnew. cbn [bind].
    rewrite kernel_sigaction_bytes_inv_xlen by assumption.
    reflexivity. }
  split; [exact Hcall1 |]. split; [reflexivity |].
  split.
  { subst machine1. rewrite (return_value_set_result W) by exact Hlen0.
    unfold to_address. apply Z.mod_0_l.
    apply Z.pow_nonzero; [lia | destruct W; cbn; lia]. }
  split.
  { unfold machine1, sigaction, set_result, set_regs, set_sigaction; cbn [m_sigactions].
    rewrite lookup_insert_eq. reflexivity. }
  destruct (sysarg_with_args machine1 sig 0 old Hlen1) as (Hb0 & Hb1 & Hb2).
  unfold syscall_sigaction, sysarg_int. rewrite Hb0, Hb1, Hb2.
  replace (to_int sig =? 0) with false by (symmetry; apply Z.eqb_neq; exact Hsig).
  replace (old =? 0) with false by (symmetry; apply Z.eqb_neq; exact Hold).
  cbn [Z.eqb negb].
  replace (sigaction (with_args machine1 sig 0 old) (to_int sig)) with act.
  2:{ unfold machine1, sigaction, with_args, set_result, set_regs, set_sigaction;
        cbn [m_sigactions]. rewrite lookup_insert_eq. reflexivity. }
  subst act. cbn [Sig.handler Sig.altstack Sig.mask].
  rewrite land_align16 by exact Hh. rewrite sa_flags_reported.
  unfold to_address at 1. rewrite (wrap_small _ k) by exact Hk.
  replace (memory (with_args machine1 sig 0 old)) with mem1 by reflexivity.
  destruct (copy_to_guest mops mem1 old _); reflexivity.
Qed.

Lemma syscall_brk_value machine :
  machine_wf W machine ->
  0 <= heap_address (memory machine) ->
  0 <= BRK_MAX ->
  heap_address (memory machine) + BRK_MAX < 2 ^ XLEN W ->
  syscall_brk W BRK_MAX machine
  = set_result W machine
      (Z.max (heap_address (memory machine))
             (Z.min (sysarg machine 0) (heap_address (memory machine) + BRK_MAX))).
Proof.
  intros Hwf Hheap Hmax Hfit. unfold syscall_brk. f_equal.
  unfold to_address. rewrite wrap_small by lia.
  destruct (Z.gtb_spec (sysarg machine 0) (heap_address (memory machine) + BRK_MAX));
    [lia |].
  destruct (Z.ltb_spec (sysarg machine 0) (heap_address (memory machine))); lia.
Qed.

(** X12: [brk] is idempotent and monotone.  The break it returns is the
    argument of the next call (both travel in a0), so a second [brk] with
    the registers as the first left them changes nothing; a request inside
    [[heap_address, heap_address + BRK_MAX]] is returned as it is; and a
    larger request never yields a smaller break. *)
Theorem syscall_brk_idempotent machine :
  machine_wf W machine ->
  0 <= heap_address (memory machine) ->
  0 <= BRK_MAX ->
  heap_address (memory machine) + BRK_MAX < 2 ^ XLEN W ->
  syscall_brk W BRK_MAX (syscall_brk W BRK_MAX machine) = syscall_brk W BRK_MAX machine /\
  (heap_address (memory machine) <= sysarg machine 0
     <= heap_address (memory machine) + BRK_MAX ->
   return_value (syscall_brk W BRK_MAX machine) = sysarg machine 0) /\
  (forall machine2,
     machine_wf W machine2 -> memory machine2 = memory machine ->
     sysarg machine 0 <= sysarg machine2 0 ->
     return_value (syscall_brk W BRK_MAX machine)
     <= return_value (syscall_brk W BRK_MAX machine2)).
Proof.
  intros Hwf Hheap Hmax Hfit.
  pose proof (syscall_brk_value machine Hwf Hheap Hmax Hfit) as Hval.
  set (heap := heap_address (memory machine)) in *.
  set (r := Z.max heap (Z.min (sysarg machine 0) (heap + BRK_MAX))) in *.
  assert (Hr : heap <= r <= heap + BRK_MAX) by (subst r; lia).
  assert (Hret : return_value (set_result W machine r) = r).
  { rewrite (return_value_set_result W) by apply Hwf. apply wrap_small. lia. }
  split; [| split].
  - rewrite Hval.
    assert (Hwf' : machine_wf W (set_result W machine r)).
    { destruct Hwf as [Hlen Hall]. split.
      - unfold set_result, set_regs; cbn [cpu_regs]. rewrite length_insert. exact Hlen.
      - unfold set_result, set_regs; cbn [cpu_regs].
        apply Forall_insert; [exact Hall | apply to_address_range]. }
    rewrite (syscall_brk_value (set_result W machine r) Hwf') by assumption.
    replace (memory (set_result W machine r)) with (memory machine) by reflexivity.
    fold heap.
    replace (sysarg (set_result W machine r) 0) with r by (symmetry; exact Hret).
    replace (Z.max heap (Z.min r (heap + BRK_MAX))) with r by lia.
    unfold set_result, set_regs; cbn [cpu_regs memory m_sigactions m_fds printed].
    rewrite list_insert_insert_eq. reflexivity.
  - intros Hin. rewrite Hval, Hret. subst r. lia.
  - intros machine2 Hwf2 Hmem Hle.
    rewrite Hval, Hret.
    rewrite (syscall_brk_value machine2 Hwf2) by (rewrite ?Hmem; assumption).
    rewrite (return_value_set_result W) by apply Hwf2.
    rewrite Hmem. fold heap. unfold to_address. rewrite wrap_small by lia. subst r. lia.
Qed.

(** *** [writev] on standard output *)

Lemma print_print machine mem1 buffers mem2 more :
  print (set_memory (print (set_memory machine mem1) buffers) mem2) more
  = print (set_memory machine mem2) (buffers ++ more).
Proof. unfold print, set_memory; cbn. rewrite app_assoc. reflexivity. Qed.

Lemma writev_loop_stdout vec : forall machine real_fd i res errno,
  real_fd = 1 \/ real_fd = 2 ->
  writev_loop mops host machine real_fd vec i res errno
  = (do '(buffers, mem) <- gather_all mops (memory machine) vec;
     Ok (print (set_memory machine mem) buffers, writev_total vec res, errno)).
Proof.
  induction vec as [| iov rest IH]; intros machine real_fd i res errno Hfd.
  - cbn. destruct machine. unfold print, set_memory; cbn. rewrite app_nil_r. reflexivity.
  - cbn [writev_loop gather_all writev_total fold_left].
    destruct (gather_buffers_from_range mops (memory machine) 64 (iov_base iov) (iov_len iov))
      as [[buffers mem] | e]; [| reflexivity].
    cbn [bind].
    replace ((real_fd =? 1) || (real_fd =? 2)) with true
      by (destruct Hfd as [-> | ->]; reflexivity).
    rewrite IH by exact Hfd.
    replace (memory (print (set_memory machine mem) buffers)) with mem by reflexivity.
    destruct (gather_all mops mem rest) as [[more mem2] | e]; [| reflexivity].
    cbn [bind]. rewrite print_print. reflexivity.
Qed.

Lemma writev_total_sum vec : forall res,
  0 <= res -> Forall (fun iov => 0 <= iov_len iov) vec ->
  res + iov_total vec < 2 ^ 63 ->
  writev_total vec res = res + iov_total vec.
Proof.
  unfold writev_total, iov_total.
  induction vec as [| iov rest IH]; intros res Hres Hall Hfit; cbn in *; [lia |].
  apply Forall_cons in Hall as [Hiov Hrest].
  assert (Hpos : 0 <= fold_right Z.add 0 (map iov_len rest)).
  { clear -Hrest. induction Hrest; cbn; lia. }
  assert (Hstep : to_ssize_t (res + iov_len iov) = res + iov_len iov).
  { unfold to_ssize_t. rewrite Z.mod_small by lia. lia. }
  rewrite Hstep. rewrite IH by (try assumption; lia). lia.
Qed.

(** X13: [writev] on standard output or standard error, for any count in
    0..256: every iovec is gathered and printed, in order; the result is
    the sum of the [iov_len] (as long as it fits [ssize_t]), whether or
    not every byte could be gathered; the host is never called and no
    descriptor table is needed. *)
Theorem syscall_writev_stdout machine bs mem0 buffers mem1 :
  length (cpu_regs machine) = 32%nat ->
  sysarg_int machine 0 = 1 \/ sysarg_int machine 0 = 2 ->
  0 <= sysarg_int machine 2 <= 256 ->
  memcpy_out mops (memory machine) (sysarg machine 1)
    (Z.of_nat (2 * sizeof_address W) * sysarg_int machine 2) = Ok (bs, mem0) ->
  gather_all mops mem0
    (guest_iovecs_of_bytes W (Z.to_nat (sysarg_int machine 2)) bs) = Ok (buffers, mem1) ->
  Forall (fun iov => 0 <= iov_len iov)
    (guest_iovecs_of_bytes W (Z.to_nat (sysarg_int machine 2)) bs) ->
  iov_total (guest_iovecs_of_bytes W (Z.to_nat (sysarg_int machine 2)) bs) < 2 ^ 63 ->
  exists machine',
    syscall_writev W mops host machine = Ok machine' /\
    return_value machine'
    = to_address W (iov_total (guest_iovecs_of_bytes W (Z.to_nat (sysarg_int machine 2)) bs)) /\
    printed machine' = printed machine ++ buffers /\
    memory machine' = mem1 /\
    m_fds machine' = m_fds machine.
Proof.
  intros Hlen Hvfd Hcount Hcopy Hgather Hpos Hfit.
  set (vec := guest_iovecs_of_bytes W (Z.to_nat (sysarg_int machine 2)) bs) in *.
  assert (Htotal : 0 <= iov_total vec).
  { unfold iov_total. clear -Hpos. induction Hpos; cbn; lia. }
  exists (set_result W (print (set_memory machine mem1) buffers) (iov_total vec)).
  split.
  - unfold syscall_writev.
    replace ((sysarg_int machine 2 <? 0) || (sysarg_int machine 2 >? 256)) with false
      by (symmetry; apply orb_false_iff; lia).
    replace ((sysarg_int machine 0 =? 1) || (sysarg_int machine 0 =? 2)) with true
      by (destruct Hvfd as [-> | ->]; reflexivity).
    replace (sysarg_int machine 0 <? 0) with false
      by (destruct Hvfd as [-> | ->]; reflexivity).
    rewrite Hcopy. cbn [bind]. fold vec.
    rewrite writev_loop_stdout by exact Hvfd.
    replace (memory (set_memory machine mem0)) with mem0 by reflexivity.
    rewrite Hgather. cbn [bind].
    rewrite writev_total_sum by (try assumption; lia).
    unfold set_result_or_error. rewrite Z.add_0_l.
    replace (iov_total vec <? 0) with false by (symmetry; apply Z.ltb_ge; lia).
    reflexivity.
  - split; [| repeat split].
    apply (return_value_set_result W). exact Hlen.
Qed.

(** *** Registers, descriptors and output across a system call *)

Lemma same_registers_refl machine : same_registers machine machine.
Proof. repeat split. exists []. rewrite app_nil_r. reflexivity. Qed.

Lemma same_registers_set_memory machine machine' mem :
  same_registers machine machine' -> same_registers machine (set_memory machine' mem).
Proof. intros H. exact H. Qed.

Lemma same_registers_print machine machine' buffers :
  same_registers machine machine' -> same_registers machine (print machine' buffers).
Proof.
  intros (Hr & Hf & out & Hp). repeat split; [exact Hr | exact Hf |].
  exists (out ++ buffers). unfold print; cbn [printed]. rewrite Hp, app_assoc. reflexivity.
Qed.

Lemma set_result_invariant machine machine' v :
  machine_wf W machine -> same_registers machine machine' ->
  machine_wf W (set_result W machine' v) /\ only_a0 machine (set_result W machine' v).
Proof.
  intros [Hlen Hall] (Hr & Hf & Hp).
  unfold set_result, set_regs, machine_wf, only_a0, reg; cbn [cpu_regs m_fds printed].
  rewrite Hr, length_insert. repeat split; try assumption.
  - apply Forall_insert; [exact Hall | apply to_address_range].
  - intros i Hi. rewrite list_lookup_insert_ne by congruence. reflexivity.
Qed.

Lemma set_result_or_error_invariant machine machine' res errno :
  machine_wf W machine -> same_registers machine machine' ->
  machine_wf W (set_result_or_error W machine' res errno) /\
  only_a0 machine (set_result_or_error W machine' res errno).
Proof.
  intros Hwf Hsame. unfold set_result_or_error.
  destruct (res <? 0); apply set_result_invariant; assumption.
Qed.

Lemma writev_loop_registers vec : forall machine real_fd i res errno machine' res' errno',
  writev_loop mops host machine real_fd vec i res errno = Ok (machine', res', errno') ->
  same_registers machine machine'.
Proof.
  induction vec as [| iov rest IH]; intros machine real_fd i res errno machine' res' errno' Hrun.
  - cbn in Hrun. injection Hrun as <- _ _. apply same_registers_refl.
  - cbn [writev_loop] in Hrun.
    destruct (gather_buffers_from_range mops (memory machine) 64 (iov_base iov) (iov_len iov))
      as [[buffers mem] | e]; [| discriminate].
    cbn [bind] in Hrun.
    destruct ((real_fd =? 1) || (real_fd =? 2)).
    + apply IH in Hrun. destruct Hrun as (Hr & Hf & out & Hp).
      repeat split; [exact Hr | exact Hf |].
      exists (buffers ++ out). rewrite Hp. unfold print, set_memory; cbn [printed].
      rewrite app_assoc. reflexivity.
    + destruct (host_writev host i real_fd buffers mem) as [written errno1].
      destruct (written >? 0).
      * apply IH in Hrun. exact Hrun.
      * destruct (written <? 0); injection Hrun as <- _ _;
          apply same_registers_set_memory, same_registers_refl.
Qed.

(** X14: across [write], [readv], [writev], [getrandom], [rt_sigaction]
    and [brk], whenever the call returns: the register file stays
    well-formed (32 registers, each an [address_type<W>] value), no
    register but a0 is written, the descriptor table is the same, and
    what was printed before is still there, in front of what the call
    printed. *)
Theorem syscalls_only_a0 machine machine' :
  machine_wf W machine ->
  syscall_write W mops host machine = Ok machine' \/
  syscall_readv W mops host machine = Ok machine' \/
  syscall_writev W mops host machine = Ok machine' \/
  syscall_getrandom W mops host machine = Ok machine' \/
  syscall_sigaction W mops machine = Ok machine' \/
  syscall_brk W BRK_MAX machine = machine' ->
  machine_wf W machine' /\ only_a0 machine machine'.
Proof.
  intros Hwf Hcall.
  pose proof (same_registers_refl machine) as Hrefl.
  destruct Hcall as [Hc | [Hc | [Hc | [Hc | [Hc | Hc]]]]].
  - unfold syscall_write in Hc.
    destruct ((sysarg_int machine 0 =? 1) || (sysarg_int machine 0 =? 2)).
    + destruct (gather_buffers_from_range mops _ _ _ _) as [[buffers mem] | e];
        [| discriminate].
      cbn [bind] in Hc. injection Hc as <-.
      apply set_result_invariant; [exact Hwf |].
      apply same_registers_print. exact Hrefl.
    + destruct (m_fds machine) as [fds |] eqn:Hfds.
      * destruct (permit_write host fds (sysarg_int machine 0)).
        -- destruct (gather_buffers_from_range mops _ _ _ _) as [[buffers mem] | e];
             [| discriminate].
           cbn [bind] in Hc.
           destruct (host_writev host 0%nat _ buffers mem) as [res errno].
           injection Hc as <-.
           apply set_result_or_error_invariant; [exact Hwf | exact Hrefl].
        -- injection Hc as <-. apply set_result_invariant; [exact Hwf | exact Hrefl].
      * injection Hc as <-. apply set_result_invariant; [exact Hwf | exact Hrefl].
  - unfold syscall_readv in Hc.
    destruct ((sysarg_int machine 2 <? 1) || (sysarg_int machine 2 >? 128)).
    { injection Hc as <-. apply set_result_invariant; [exact Hwf | exact Hrefl]. }
    destruct (_ <? 0).
    { injection Hc as <-. apply set_result_invariant; [exact Hwf | exact Hrefl]. }
    destruct (copy_from_guest mops _ _ _) as [[bs mem] | e]; [| discriminate].
    cbn [bind] in Hc.
    destruct (readv_gather mops mem _ []) as [[vec mem'] | e]; [| discriminate].
    cbn [bind] in Hc.
    destruct (host_readv host _ vec mem') as [[res errno] mem''].
    injection Hc as <-.
    apply set_result_or_error_invariant; [exact Hwf | exact Hrefl].
  - unfold syscall_writev in Hc.
    destruct ((sysarg_int machine 2 <? 0) || (sysarg_int machine 2 >? 256)).
    { injection Hc as <-. apply set_result_invariant; [exact Hwf | exact Hrefl]. }
    destruct (_ <? 0).
    { injection Hc as <-. apply set_result_invariant; [exact Hwf | exact Hrefl]. }
    destruct (memcpy_out mops _ _ _) as [[bs mem] | e]; [| discriminate].
    cbn [bind] in Hc.
    destruct (writev_loop mops host (set_memory machine mem) _ _ 0%nat 0 (host_errno host))
      as [[[machine1 res] errno] | e] eqn:Hloop; [| discriminate].
    cbn [bind] in Hc. injection Hc as <-.
    apply set_result_or_error_invariant; [exact Hwf |].
    apply writev_loop_registers in Hloop. exact Hloop.
  - unfold syscall_getrandom in Hc.
    destruct (sysarg machine 1 >? 256).
    { injection Hc as <-. apply set_result_invariant; [exact Hwf | exact Hrefl]. }
    destruct (host_getrandom host _) as [result buffer].
    destruct (result >? 0).
    + destruct (copy_to_guest mops _ _ _) as [mem | e]; [| discriminate].
      cbn [bind] in Hc. injection Hc as <-.
      apply set_result_invariant; [exact Hwf | exact Hrefl].
    + cbn [bind] in Hc. injection Hc as <-.
      apply set_result_invariant; [exact Hwf | exact Hrefl].
  - unfold syscall_sigaction in Hc.
    destruct (sysarg_int machine 0 =? 0).
    { injection Hc as <-. split; [exact Hwf |].
      repeat split. exists []. rewrite app_nil_r. reflexivity. }
    destruct (negb (sysarg machine 2 =? 0)).
    + destruct (copy_to_guest mops _ _ _) as [mem | e]; [| discriminate].
      cbn [bind] in Hc.
      destruct (negb (sysarg machine 1 =? 0)).
      * replace (memory (set_memory machine mem)) with mem in Hc by reflexivity.
        destruct (copy_from_guest mops mem _ _) as [[bs mem'] | e]; [| discriminate].
        cbn [bind] in Hc. injection Hc as <-.
        apply set_result_invariant; [exact Hwf | exact Hrefl].
      * cbn [bind] in Hc. injection Hc as <-.
        apply set_result_invariant; [exact Hwf | exact Hrefl].
    + cbn [bind] in Hc.
      destruct (negb (sysarg machine 1 =? 0)).
      * destruct (copy_from_guest mops _ _ _) as [[bs mem'] | e]; [| discriminate].
        cbn [bind] in Hc. injection Hc as <-.
        apply set_result_invariant; [exact Hwf | exact Hrefl].
      * cbn [bind] in Hc. injection Hc as <-.
        apply set_result_invariant; [exact Hwf | exact Hrefl].
  - subst machine'. unfold syscall_brk.
    apply set_result_invariant; [exact Hwf | exact Hrefl].
Qed.

End SyscallInvariants.

(** X11 at [new = {0x1237, SA_ONSTACK | 4, 0x55}]: the handler is reported
    as 0x1230 and the flags as [SA_ONSTACK]. *)
Lemma syscall_sigaction_any_action_witness :
  exists machine1,
    syscall_sigaction W8 paged_ops
      (with_args (example_machine example_sigaction_memory2 0 0 0) SIGUSR1 0x2000 0)
    = Ok machine1 /\
    memory machine1 = example_sigaction_memory2 /\
    return_value machine1 = 0 /\
    sigaction machine1 (to_int SIGUSR1)
    = Sig.mk 0x1237 (negb (Z.land (SA_ONSTACK + 4) SA_ONSTACK =? 0)) 0x55 /\
    syscall_sigaction W8 paged_ops (with_args machine1 SIGUSR1 0 0x3000) =
      (do mem2 <- copy_to_guest paged_ops example_sigaction_memory2 0x3000
                    (kernel_sigaction_bytes W8
                       (mk_kernel_sigaction (16 * (0x1237 / 16))
                          (Z.land (SA_ONSTACK + 4) SA_ONSTACK) 0x55));
       Ok (set_result W8 (set_memory (with_args machine1 SIGUSR1 0 0x3000) mem2) 0)).
Proof.
  apply (syscall_sigaction_any_action W8 paged_ops
           (example_machine example_sigaction_memory2 0 0 0) SIGUSR1 0x2000 0x3000
           example_sigaction_memory2 0x1237 (SA_ONSTACK + 4) 0x55).
  - reflexivity.
  - by_evaluation.
  - lia.
  - lia.
  - by_evaluation.
  - by_evaluation.
  - by_evaluation.
  - by_evaluation.
Defined.

(** X12 at [brk(0x90000000)] with the heap at 0x80000000. *)
Lemma syscall_brk_idempotent_witness :
  syscall_brk W8 0x1000000
    (syscall_brk W8 0x1000000 (example_machine (example_memory 16) 0x90000000 0 0))
  = syscall_brk W8 0x1000000 (example_machine (example_memory 16) 0x90000000 0 0).
Proof.
  apply (syscall_brk_idempotent W8 0x1000000
           (example_machine (example_memory 16) 0x90000000 0 0)).
  - apply example_machine_wf; lia.
  - by_evaluation.
  - lia.
  - by_evaluation.
Defined.

(** X13 at [writev(1, {{0x3000, 5}}, 1)]. *)
Lemma syscall_writev_stdout_witness :
  exists machine',
    syscall_writev W8 paged_ops example_host
      (example_machine example_writev_memory 1 0x2000 1) = Ok machine' /\
    return_value machine' = 5 /\
    printed machine' = [mkvBuffer 0x3000 5] /\
    memory machine' = example_writev_memory /\
    m_fds machine' = Some (mkFileDescriptors ∅ true).
Proof.
  apply (syscall_writev_stdout W8 paged_ops example_host
           (example_machine example_writev_memory 1 0x2000 1)
           (read_bytes example_writev_memory 0x2000 16)
           example_writev_memory [mkvBuffer 0x3000 5] example_writev_memory).
  - reflexivity.
  - left. by_evaluation.
  - by_evaluation.
  - by_evaluation.
  - by_evaluation.
  - by_decision.
  - by_evaluation.
Defined.

(** X14 at [brk(0x90000000)]. *)
Lemma syscalls_only_a0_witness :
  machine_wf W8
    (syscall_brk W8 0x1000000 (example_machine (example_memory 16) 0x90000000 0 0)) /\
  only_a0 (example_machine (example_memory 16) 0x90000000 0 0)
    (syscall_brk W8 0x1000000 (example_machine (example_memory 16) 0x90000000 0 0)).
Proof.
  apply (syscalls_only_a0 W8 0x1000000 paged_ops example_host
           (example_machine (example_memory 16) 0x90000000 0 0)).
  - apply example_machine_wf; lia.
  - do 5 right. reflexivity.
Defined.

(** ** Paging: allocation, reset and shared pages *)

(** X15: what [allocate_page] and [default_page_fault] keep.  After
    [allocate_page(page)] the page returned is the one mapped at [page];
    every page mapped before is still mapped, unchanged, and no other page
    number is touched: on a page number that is already mapped the
    existing page is returned and the page table is left as it was.  The
    high-water mark never decreases and is at least the number of mapped
    pages; the page caches do not refer to [page] any more.  And
    [default_page_fault] never takes the page count above the quota. *)
Theorem allocate_page_invariants mem page :
  0 <= page ->
  let mem' := fst (allocate_page mem page) in
  m_pages mem' !! page = Some (snd (allocate_page mem page)) /\
  (forall k pg, m_pages mem !! k = Some pg -> m_pages mem' !! k = Some pg) /\
  (forall k, k <> page -> m_pages mem' !! k = m_pages mem !! k) /\
  (forall existing, m_pages mem !! page = Some existing ->
     snd (allocate_page mem page) = existing /\ m_pages mem' = m_pages mem) /\
  m_pages_highest mem <= m_pages_highest mem' /\
  pages_active mem' <= m_pages_highest mem' /\
  pages_active mem <= pages_active mem' <= pages_active mem + 1 /\
  m_current_rd_page mem' <> page /\ m_current_wr_page mem' <> page /\
  (forall mem'' pg, default_page_fault mem page = Ok (mem'', pg) ->
     pages_active mem <= pages_total mem ->
     pages_active mem'' <= pages_total mem'').
Proof.
  intros Hpage. cbv zeta.
  assert (Hcache : forall c, (if c =? page then -1 else c) <> page).
  { intros c. destruct (Z.eqb_spec c page); lia. }
  assert (Hfault : forall mem'' pg,
            default_page_fault mem page = Ok (mem'', pg) ->
            pages_active mem < pages_total mem /\
            mem'' = fst (allocate_page mem page)).
  { intros mem'' pg Hf. unfold default_page_fault in Hf.
    destruct (Z.ltb_spec (pages_active mem) (pages_total mem)); [| discriminate].
    injection Hf as Hf. rewrite Hf. split; [assumption | reflexivity]. }
  unfold allocate_page in *.
  destruct (m_pages mem !! page) as [existing |] eqn:Hlook;
    cbn [fst snd] in *;
    unfold invalidate_page, set_paging, pages_active, pages_total in *;
    cbn [m_pages m_pages_highest m_current_rd_page m_current_wr_page m_pages_total]
      in *.
  - split; [exact Hlook |].
    split; [intros k pg Hk; exact Hk |].
    split; [reflexivity |].
    split; [intros existing' Heq; injection Heq as <-; split; reflexivity |].
    split; [lia |]. split; [lia |]. split; [lia |].
    split; [apply Hcache |]. split; [apply Hcache |].
    intros mem'' pg Hf Hquota. destruct (Hfault mem'' pg Hf) as [_ ->].
    cbn [m_pages m_pages_total]. exact Hquota.
  - assert (Hsize : Z.of_nat (base.size (<[page := new_Page]> (m_pages mem)))
                    = Z.of_nat (base.size (m_pages mem)) + 1).
    { rewrite map_size_insert_None by exact Hlook. lia. }
    split; [apply lookup_insert_eq |].
    split; [intros k pg Hk; rewrite lookup_insert_ne by congruence; exact Hk |].
    split; [intros k Hk; apply lookup_insert_ne; congruence |].
    split; [discriminate |].
    split; [lia |]. split; [lia |]. split; [lia |].
    split; [apply Hcache |]. split; [apply Hcache |].
    intros mem'' pg Hf Hquota. destruct (Hfault mem'' pg Hf) as [Hroom ->].
    cbn [m_pages m_pages_total]. lia.
Qed.

(** X16: [initial_paging], whatever the memory held and whatever its
    quota: afterwards exactly page 0 is mapped, all-deny and zeroed; both
    page caches are reset; the high-water mark is the old one, or 1 when
    that was lower (it survives the reset); and a second [initial_paging]
    changes nothing. *)
Theorem initial_paging_spec mem :
  m_pages (initial_paging mem)
  = {[ 0 := mkPage (mkPageAttributes false false false false false)
                   (replicate (Z.to_nat PageSize) 0) ]} /\
  pages_active (initial_paging mem) = 1 /\
  m_current_rd_page (initial_paging mem) = -1 /\
  m_current_wr_page (initial_paging mem) = -1 /\
  m_pages_highest (initial_paging mem) = Z.max (m_pages_highest mem) 1 /\
  pages_total (initial_paging mem) = pages_total mem /\
  heap_address (initial_paging mem) = heap_address mem /\
  initial_paging (initial_paging mem) = initial_paging mem /\
  Forall (fun pg => shared (attr pg) = false) (snd (clear_all_pages mem)).
Proof.
  assert (Hnew : forall m,
            initial_paging m
            = set_paging m
                {[ 0 := mkPage (mkPageAttributes false false false false false)
                               (replicate (Z.to_nat PageSize) 0) ]}
                (Z.max (m_pages_highest m) 1) (-1) (-1)).
  { intros m. unfold initial_paging, clear_all_pages, create_page, allocate_page.
    cbn [set_paging m_pages]. rewrite lookup_empty.
    cbn [invalidate_page set_paging m_pages m_pages_highest m_current_rd_page
         m_current_wr_page m_pages_total m_start_address m_stack_address
         m_heap_address m_exit_address m_elf_end_vaddr m_protect_segments
         new_Page page_data].
    rewrite insert_insert_eq. rewrite insert_empty.
    rewrite map_size_singleton. reflexivity. }
  rewrite !Hnew.
  unfold pages_active, pages_total, heap_address.
  cbn [set_paging m_pages m_pages_highest m_current_rd_page m_current_wr_page
       m_pages_total m_heap_address m_start_address m_stack_address
       m_exit_address m_elf_end_vaddr m_protect_segments].
  rewrite map_size_singleton.
  repeat split.
  - f_equal. lia.
  - unfold clear_all_pages; cbn [snd].
    apply Forall_forall. intros pg Hin. apply list_elem_of_filter in Hin as [Hs _].
    exact Hs.
Qed.

Section SharedPageProperties.
Variable get_pageno : Memory -> Z -> Page.

(** X17: [install_shared_page] succeeds exactly when the page seen at
    [pageno] is copy-on-write and the page given is shared, and fails
    with ILLEGAL_OPERATION otherwise.  On success nothing but the page
    table changes (no quota check, no update of the high-water mark, no
    page cache is reset), every page mapped before stays as it was, and
    the shared page is mapped at [pageno] only when nothing was mapped
    there: over a mapped copy-on-write page the call reports success and
    leaves the memory exactly as it was. *)
Theorem install_shared_page_spec mem pageno shared_page :
  (is_cow (attr (get_pageno mem pageno)) = false \/ shared (attr shared_page) = false ->
   install_shared_page get_pageno mem pageno shared_page = Throw ILLEGAL_OPERATION) /\
  (is_cow (attr (get_pageno mem pageno)) = true -> shared (attr shared_page) = true ->
   exists mem',
     install_shared_page get_pageno mem pageno shared_page = Ok mem' /\
     (forall k pg, m_pages mem !! k = Some pg -> m_pages mem' !! k = Some pg) /\
     (forall k, k <> pageno -> m_pages mem' !! k = m_pages mem !! k) /\
     (m_pages mem !! pageno = None -> m_pages mem' !! pageno = Some shared_page) /\
     (is_Some (m_pages mem !! pageno) -> mem' = mem) /\
     m_pages_highest mem' = m_pages_highest mem /\
     m_current_rd_page mem' = m_current_rd_page mem /\
     m_current_wr_page mem' = m_current_wr_page mem /\
     pages_total mem' = pages_total mem).
Proof.
  unfold install_shared_page. split.
  - intros [Hcow | Hshared].
    + rewrite Hcow. reflexivity.
    + destruct (is_cow (attr (get_pageno mem pageno))); [| reflexivity].
      rewrite Hshared. reflexivity.
  - intros -> ->. cbn [negb]. eexists. split; [reflexivity |].
    cbn [set_paging m_pages m_pages_highest m_current_rd_page m_current_wr_page
         pages_total m_pages_total].
    destruct (m_pages mem !! pageno) as [existing |] eqn:Hlook.
    + repeat split; try tauto; try discriminate.
      intros _. destruct mem; reflexivity.
    + repeat split.
      * intros k pg Hk. rewrite lookup_insert_ne by congruence. exact Hk.
      * intros k Hk. apply lookup_insert_ne. congruence.
      * intros _. apply lookup_insert_eq.
      * intros [pg Hpg]. discriminate.
Qed.

End SharedPageProperties.

(** ** Symbol lookup *)

Section LookupProperties.
Context {Name : Type}.
Variable W : Width.
Variable cxa_demangle : Name -> option Name.

Lemma lookup_loop_sound (strtab : Z -> Name) symtab address : forall best cs,
  lookup_loop W cxa_demangle strtab symtab address best = Some cs ->
  (exists sym, sym ∈ symtab /\ is_func sym /\ st_value sym <= address /\
               cs = lookup_result W cxa_demangle strtab address sym) \/
  (exists sym, best = Some sym /\ cs = lookup_result W cxa_demangle strtab address sym).
Proof.
  induction symtab as [| sym rest IH]; intros best cs Hrun.
  - cbn in Hrun. destruct best as [sym |]; [| discriminate].
    injection Hrun as <-. right. eauto.
  - cbn [lookup_loop] in Hrun.
    assert (Hlift : forall b,
              lookup_loop W cxa_demangle strtab rest address b = Some cs ->
              (b = best \/ (b = Some sym /\ is_func sym /\ st_value sym <= address)) ->
              (exists s, s ∈ sym :: rest /\ is_func s /\ st_value s <= address /\
                         cs = lookup_result W cxa_demangle strtab address s) \/
              (exists s, best = Some s /\
                         cs = lookup_result W cxa_demangle strtab address s)).
    { intros b Hb Hcase. destruct (IH b cs Hb) as [(s & Hin & Hs) | (s & Hs & Hcs)].
      - left. exists s. split; [right; exact Hin | exact Hs].
      - destruct Hcase as [-> | (-> & Hf & Hv)].
        + right. eauto.
        + injection Hs as <-. left. exists sym. split; [left |]; tauto. }
    destruct (Z.eqb_spec (ELF32_ST_TYPE (st_info sym)) STT_FUNC) as [Hfunc | Hnf];
      cbn [negb] in Hrun; [| apply (Hlift best); tauto].
    destruct (Z.geb_spec address (st_value sym)) as [Hge | Hlt]; cbn [andb] in Hrun.
    + destruct (address <? to_address W (st_value sym + st_size sym)).
      * injection Hrun as <-. left. exists sym.
        split; [left |]. unfold is_func. repeat split; [exact Hfunc | lia].
      * destruct (Z.gtb_spec address (st_value sym)).
        -- apply (Hlift (Some sym)); [exact Hrun |]. right. unfold is_func.
           repeat split; [exact Hfunc | lia].
        -- apply (Hlift best); tauto.
    + destruct (Z.gtb_spec address (st_value sym)); [lia |].
      apply (Hlift best); tauto.
Qed.

(** X18: what [lookup] returns is sound.  It returns the empty call site
    for address 0 and when [.symtab] or [.strtab] is missing; any other
    result describes a function symbol of the table that starts at or
    below the address, and its [address] plus its [offset] is the address
    looked up. *)
Theorem lookup_sound sym_hdr str_hdr address cs :
  0 <= address < 2 ^ XLEN W ->
  (forall symtab, sym_hdr = Some symtab ->
     Forall (fun sym => 0 <= st_value sym) symtab) ->
  lookup W cxa_demangle sym_hdr str_hdr address = Some cs ->
  address <> 0 /\
  exists symtab str sym,
    sym_hdr = Some symtab /\ str_hdr = Some str /\
    sym ∈ symtab /\ is_func sym /\
    Site.address cs = st_value sym /\
    Site.address cs <= address /\
    Site.address cs + Site.offset cs = address /\
    Site.name cs = default (str (st_name sym)) (cxa_demangle (str (st_name sym))).
Proof.
  intros Haddr Hvalues Hrun. unfold lookup in Hrun.
  destruct sym_hdr as [symtab |]; [| discriminate].
  destruct str_hdr as [str |]; [| discriminate].
  destruct (Z.eqb_spec address 0) as [| Hnz]; [discriminate |].
  split; [exact Hnz |].
  pose proof (lookup_loop_sound str symtab address None cs Hrun) as Hsound.
  destruct Hsound as [(sym & Hin & Hfunc & Hle & ->) | (sym & Hbest & _)];
    [| discriminate].
  exists symtab, str, sym.
  specialize (Hvalues symtab eq_refl). rewrite Forall_forall in Hvalues.
  specialize (Hvalues sym Hin).
  unfold lookup_result; cbn [Site.address Site.offset Site.name].
  unfold to_address. rewrite wrap_small by lia.
  repeat split; try assumption; lia.
Qed.

Lemma lookup_loop_first (strtab : Z -> Name) address sym post : forall pre best,
  contains W address sym ->
  Forall (fun x => ~ contains W address x) pre ->
  lookup_loop W cxa_demangle strtab (pre ++ sym :: post) address best
  = Some (lookup_result W cxa_demangle strtab address sym).
Proof.
  intros pre best (Hfunc & Hlo & Hhi) Hpre. revert best.
  induction Hpre as [| x pre Hx _ IH]; intros best.
  - cbn [app lookup_loop]. unfold is_func in Hfunc. rewrite Hfunc, Z.eqb_refl.
    cbn [negb].
    replace (address >=? st_value sym) with true by (symmetry; apply Z.geb_le; lia).
    replace (address <? to_address W (st_value sym + st_size sym)) with true
      by (symmetry; apply Z.ltb_lt; lia).
    reflexivity.
  - cbn [app lookup_loop].
    destruct (Z.eqb_spec (ELF32_ST_TYPE (st_info x)) STT_FUNC) as [Hf | Hnf];
      cbn [negb]; [| apply IH].
    destruct ((address >=? st_value x)
              && (address <? to_address W (st_value x + st_size x))) eqn:Hin.
    + exfalso. apply Hx. apply andb_true_iff in Hin as [Hge Hlt].
      apply Z.geb_le in Hge. apply Z.ltb_lt in Hlt.
      split; [exact Hf | lia].
    + destruct (address >? st_value x); apply IH.
Qed.

Lemma lookup_loop_last (strtab : Z -> Name) address symtab : forall best,
  Forall (fun x => ~ contains W address x) symtab ->
  lookup_loop W cxa_demangle strtab symtab address best
  = lookup_result W cxa_demangle strtab address
      <$> (match last (filter (precedes address) symtab) with
           | Some sym => Some sym
           | None => best
           end).
Proof.
  intros best Hall. revert best.
  induction Hall as [| x rest Hx _ IH]; intros best; [reflexivity |].
  cbn [lookup_loop].
  destruct (Z.eqb_spec (ELF32_ST_TYPE (st_info x)) STT_FUNC) as [Hf | Hnf]; cbn [negb].
  - destruct ((address >=? st_value x)
              && (address <? to_address W (st_value x + st_size x))) eqn:Hin.
    { exfalso. apply Hx. apply andb_true_iff in Hin as [Hge Hlt].
      apply Z.geb_le in Hge. apply Z.ltb_lt in Hlt.
      split; [exact Hf | lia]. }
    destruct (Z.gtb_spec address (st_value x)) as [Hgt | Hle].
    + rewrite filter_cons_True by (split; [exact Hf | lia]).
      rewrite last_cons, IH.
      destruct (last (filter (precedes address) rest)); reflexivity.
    + rewrite filter_cons_False by (intros [_ Hlt]; lia). apply IH.
  - rewrite filter_cons_False by (intros [Hf _]; contradiction). apply IH.
Qed.

(** X19: which symbol [lookup] chooses, for an address other than 0.  If
    a function symbol contains the address, the first such symbol in table
    order is reported.  If none does, the report is for the last function
    symbol of the table, in table order, that starts below the address
    (not necessarily the closest one), and it is empty when there is
    none. *)
Theorem lookup_choice (symtab : list Sym) (strtab : Z -> Name) (address : Z) :
  address <> 0 ->
  (forall (pre : list Sym) (sym : Sym) (post : list Sym),
     symtab = pre ++ sym :: post ->
     contains W address sym ->
     Forall (fun x => ~ contains W address x) pre ->
     lookup W cxa_demangle (Some symtab) (Some strtab) address
     = Some (lookup_result W cxa_demangle strtab address sym)) /\
  (Forall (fun x => ~ contains W address x) symtab ->
   lookup W cxa_demangle (Some symtab) (Some strtab) address
   = lookup_result W cxa_demangle strtab address
       <$> last (filter (precedes address) symtab)).
Proof.
  intros Hnz. unfold lookup.
  destruct (Z.eqb_spec address 0) as [| _]; [contradiction |].
  split.
  - intros pre sym post -> Hsym Hpre. apply lookup_loop_first; assumption.
  - intros Hall. rewrite lookup_loop_last by exact Hall.
    destruct (last (filter (precedes address) symtab)); reflexivity.
Qed.

End LookupProperties.

(** ** Examples for paging and symbol lookup *)

(** X15 at page 5 of a memory whose page caches refer to page 5. *)
Lemma allocate_page_invariants_witness :
  m_pages (fst (allocate_page example_cached_memory 5)) !! 5
  = Some (snd (allocate_page example_cached_memory 5)) /\
  pages_active (fst (allocate_page example_cached_memory 5))
  <= m_pages_highest (fst (allocate_page example_cached_memory 5)) /\
  m_current_rd_page (fst (allocate_page example_cached_memory 5)) <> 5 /\
  m_current_wr_page (fst (allocate_page example_cached_memory 5)) <> 5.
Proof.
  destruct (allocate_page_invariants example_cached_memory 5 ltac:(lia))
    as (H1 & _ & _ & _ & _ & H6 & _ & H8 & H9 & _).
  repeat split; assumption.
Defined.

(** X17 over a mapped copy-on-write page: success, and nothing changes. *)
Lemma install_shared_page_spec_witness :
  exists mem',
    install_shared_page example_get_pageno example_cow_memory 3 example_shared_page
    = Ok mem' /\
    mem' = example_cow_memory /\
    m_pages mem' !! 3 = Some cow_page.
Proof.
  destruct (proj2 (install_shared_page_spec example_get_pageno example_cow_memory 3
                     example_shared_page) eq_refl eq_refl)
    as (mem' & Hrun & _ & _ & _ & Hsame & _).
  exists mem'. split; [exact Hrun |].
  assert (Heq : mem' = example_cow_memory) by (apply Hsame; eexists; reflexivity).
  split; [exact Heq |]. rewrite Heq. reflexivity.
Defined.

(** X18 at 0x1010, inside [main]. *)
Lemma lookup_sound_witness :
  0x1010 <> 0 /\
  exists symtab str sym,
    Some example_symtab = Some symtab /\ Some (fun z : Z => z) = Some str /\
    sym ∈ symtab /\ is_func sym /\
    Site.address (Site.mk 1 0x1000 0x10) = st_value sym /\
    Site.address (Site.mk 1 0x1000 0x10) <= 0x1010 /\
    Site.address (Site.mk 1 0x1000 0x10) + Site.offset (Site.mk 1 0x1000 0x10) = 0x1010 /\
    Site.name (Site.mk 1 0x1000 0x10)
    = default (str (st_name sym)) ((fun _ : Z => @None Z) (str (st_name sym))).
Proof.
  apply (lookup_sound W4 (fun _ : Z => None) (Some example_symtab)
           (Some (fun z : Z => z)) 0x1010 (Site.mk 1 0x1000 0x10)).
  - by_evaluation.
  - intros symtab Heq. injection Heq as <-. by_decision.
  - reflexivity.
Defined.

(** X19 at 0x2000, which no function contains: the report is for
    [_start] at 0x100, the last function symbol of the table below the
    address, though [main] at 0x1000 is closer. *)
Lemma lookup_choice_witness :
  lookup W4 (fun _ : Z => None) (Some example_symtab) (Some (fun z : Z => z)) 0x2000
  = Some (Site.mk 11 0x100 0x1F00) /\
  lookup W4 (fun _ : Z => None) (Some example_symtab) (Some (fun z : Z => z)) 0x1010
  = Some (Site.mk 1 0x1000 0x10).
Proof.
  split.
  - apply (proj2 (lookup_choice W4 (fun _ : Z => None) example_symtab
                    (fun z : Z => z) 0x2000 ltac:(lia))).
    by_decision.
  - apply (proj1 (lookup_choice W4 (fun _ : Z => None) example_symtab
                    (fun z : Z => z) 0x1010 ltac:(lia)) [] (mkSym 1 0x12 0x1000 0x40)
             [ mkSym 6 0x11 0x3000 0x100; mkSym 11 0x12 0x100 0x20 ]).
    + reflexivity.
    + by_decision.
    + constructor.
Defined.

(** ** [readv] on a file descriptor *)

Section ReadvProperties.
Variable W : Width.
Variable mops : MemoryOps.
Variable host : HostOS.

Lemma readv_gather_fits g_vec : forall mem vec buffers mem',
  gather_all mops mem g_vec = Ok (buffers, mem') ->
  (length vec + length buffers <= 256)%nat ->
  readv_gather mops mem g_vec vec = Ok (vec ++ buffers, mem').
Proof.
  induction g_vec as [| iov rest IH]; intros mem vec buffers mem' Hall Hfit.
  - cbn in Hall. injection Hall as <- <-. cbn. rewrite app_nil_r. reflexivity.
  - cbn [gather_all readv_gather] in *.
    destruct (gather_buffers_from_range mops mem 64 (iov_base iov) (iov_len iov))
      as [[first mem1] | e]; [| discriminate].
    cbn [bind] in *.
    destruct (gather_all mops mem1 rest) as [[more mem2] | e] eqn:Hrest; [| discriminate].
    cbn [bind] in Hall. injection Hall as <- <-.
    rewrite length_app in Hfit.
    destruct (Nat.ltb_spec 256 (length vec + length first)) as [| _]; [lia |].
    rewrite (IH mem1 (vec ++ first) more mem2 Hrest)
      by (rewrite length_app; lia).
    rewrite app_assoc. reflexivity.
Qed.

Lemma readv_gather_overflow g_vec : forall mem vec buffers mem',
  gather_all mops mem g_vec = Ok (buffers, mem') ->
  (256 < length vec + length buffers)%nat ->
  (length vec <= 256)%nat ->
  readv_gather mops mem g_vec vec = Throw out_of_range.
Proof.
  induction g_vec as [| iov rest IH]; intros mem vec buffers mem' Hall Hover Hvec.
  - cbn in Hall. injection Hall as <- <-. cbn in Hover. lia.
  - cbn [gather_all readv_gather] in *.
    destruct (gather_buffers_from_range mops mem 64 (iov_base iov) (iov_len iov))
      as [[first mem1] | e]; [| discriminate].
    cbn [bind] in *.
    destruct (gather_all mops mem1 rest) as [[more mem2] | e] eqn:Hrest; [| discriminate].
    cbn [bind] in Hall. injection Hall as <- <-.
    rewrite length_app in Hover.
    destruct (Nat.ltb_spec 256 (length vec + length first)) as [| Hok]; [reflexivity |].
    apply (IH mem1 (vec ++ first) more mem2 Hrest); rewrite length_app; lia.
Qed.

(** X20: [readv] on a descriptor other than 1 and 2 that the descriptor
    table translates, with a count in 1..128 and guest iovecs that can all
    be gathered.  When the iovecs gather at most 256 spans, the host
    [readv] is called once, on exactly these spans in order, and its
    result (or the negated [errno]) is returned.  When they gather more
    than 256 spans, [vec.at] throws [std::out_of_range] out of the
    handler: the host is not called and no result is written. *)
Theorem syscall_readv_spans machine fds bs mem0 buffers mem1 :
  sysarg_int machine 0 <> 1 -> sysarg_int machine 0 <> 2 ->
  1 <= sysarg_int machine 2 <= 128 ->
  m_fds machine = Some fds ->
  0 <= translate host fds (sysarg_int machine 0) ->
  copy_from_guest mops (memory machine) (sysarg machine 1)
    (Z.of_nat (2 * sizeof_address W) * sysarg_int machine 2) = Ok (bs, mem0) ->
  gather_all mops mem0
    (guest_iovecs_of_bytes W (Z.to_nat (sysarg_int machine 2)) bs) = Ok (buffers, mem1) ->
  ((length buffers <= 256)%nat ->
   syscall_readv W mops host machine
   = (let '(res, errno, mem2) :=
        host_readv host (translate host fds (sysarg_int machine 0)) buffers mem1 in
      Ok (set_result_or_error W (set_memory machine mem2) res errno))) /\
  ((256 < length buffers)%nat ->
   syscall_readv W mops host machine = Throw out_of_range).
Proof.
  intros Hn1 Hn2 Hcount Hfds Hreal Hcopy Hgather.
  assert (Hhead : syscall_readv W mops host machine
                  = (do '(vec, mem') <-
                       readv_gather mops mem0
                         (guest_iovecs_of_bytes W (Z.to_nat (sysarg_int machine 2)) bs) [];
                     let '(res, errno, mem'') :=
                       host_readv host (translate host fds (sysarg_int machine 0)) vec mem' in
                     Ok (set_result_or_error W (set_memory machine mem'') res errno))).
  { unfold syscall_readv.
    replace ((sysarg_int machine 2 <? 1) || (sysarg_int machine 2 >? 128)) with false
      by (symmetry; apply orb_false_iff; lia).
    replace ((sysarg_int machine 0 =? 1) || (sysarg_int machine 0 =? 2)) with false
      by (symmetry; apply orb_false_iff; split; apply Z.eqb_neq; assumption).
    rewrite Hfds.
    replace (translate host fds (sysarg_int machine 0) <? 0) with false
      by (symmetry; apply Z.ltb_ge; lia).
    rewrite Hcopy. reflexivity. }
  rewrite Hhead. split.
  - intros Hfit.
    rewrite (readv_gather_fits _ mem0 [] buffers mem1 Hgather) by (cbn; lia).
    reflexivity.
  - intros Hover.
    rewrite (readv_gather_overflow _ mem0 [] buffers mem1 Hgather) by (cbn; lia).
    reflexivity.
Qed.

End ReadvProperties.

(** X20 at [readv(3, {{0x3000, 5}}, 1)] with vfd 3 translated to 7. *)
Lemma syscall_readv_spans_witness :
  syscall_readv W8 paged_ops example_host example_fd_machine
  = (let '(res, errno, mem2) :=
       host_readv example_host 7 [mkvBuffer 0x3000 5] example_writev_memory in
     Ok (set_result_or_error W8 (set_memory example_fd_machine mem2) res errno)).
Proof.
  apply (proj1 (syscall_readv_spans W8 paged_ops example_host example_fd_machine
                  (mkFileDescriptors {[ 3 := 7 ]} true)
                  (read_bytes example_writev_memory 0x2000 16)
                  example_writev_memory [mkvBuffer 0x3000 5] example_writev_memory
                  ltac:(by_evaluation) ltac:(by_evaluation) ltac:(by_evaluation)
                  eq_refl ltac:(by_evaluation) ltac:(by_evaluation)
                  ltac:(by_evaluation))).
  cbn. lia.
Defined.

(** ** Single caches and the earlier raw format *)

Lemma serialize_decoder_cache_exp_image c dc :
  length (cache dc) = Z.to_nat (SIZE c) ->
  serialize_decoder_cache_exp c dc = Ok (descriptors_image c (cache dc)).
Proof.
  intros Hsz. unfold serialize_decoder_cache_exp, sizeof_DecoderData.
  pose proof (SIZE_pos c) as Hpos.
  pose proof (length_descriptors_image c (cache dc)) as Hlen.
  destruct (Z.ltb_spec (Z.of_nat (length (descriptors_image c (cache dc)))) (SIZE c * 8));
    [lia |].
  rewrite firstn_all2 by lia. reflexivity.
Qed.

Lemma serialize_each_image c caches :
  Forall (fun dc => length (cache dc) = Z.to_nat (SIZE c)) caches ->
  Rev1.serialize_each c caches = Ok (caches_image c caches).
Proof.
  induction 1 as [| dc caches Hdc _ IH]; [reflexivity |].
  cbn [Rev1.serialize_each].
  rewrite serialize_decoder_cache_exp_image by exact Hdc. cbn [bind].
  rewrite IH. cbn [bind]. rewrite caches_image_cons. reflexivity.
Qed.

Lemma views_read_caches c sz data n : forall k,
  0 <= sz ->
  map (fun i : nat =>
         mkDecoderCache (read_descriptors c (Z.to_nat sz)
                           (drop (Z.to_nat (Z.of_nat i * (sz * 8))) data)))
      (seq k n)
  = read_caches c (Z.to_nat sz) n (drop (k * (8 * Z.to_nat sz)) data).
Proof.
  induction n as [| n IH]; intros k Hsz; [reflexivity |].
  cbn [seq map read_caches]. rewrite IH, drop_drop by exact Hsz.
  replace (Z.to_nat (Z.of_nat k * (sz * 8))) with (k * (8 * Z.to_nat sz))%nat by lia.
  replace (S k * (8 * Z.to_nat sz))%nat
    with (k * (8 * Z.to_nat sz) + 8 * Z.to_nat sz)%nat by lia.
  reflexivity.
Qed.

Lemma rev1_serialize c caches n :
  0 <= n -> n * SIZE c * 8 < 2 ^ 31 ->
  Z.of_nat (length caches) = n ->
  Forall (fun dc => length (cache dc) = Z.to_nat (SIZE c)) caches ->
  Rev1.serialize_whole_decoder_cache c caches n = Ok (caches_image c caches) /\
  Z.of_nat (length (caches_image c caches)) = n * SIZE c * 8.
Proof.
  intros Hn Hfit Hlen Hsz.
  pose proof (SIZE_pos c) as Hpos.
  assert (Himage : Z.of_nat (length (caches_image c caches)) = n * SIZE c * 8).
  { rewrite (length_caches_image c _ caches Hsz). lia. }
  split; [| exact Himage].
  unfold Rev1.serialize_whole_decoder_cache, sizeof_DecoderData.
  rewrite (to_int_small n) by nia.
  destruct (Z.eqb_spec n 0) as [-> | Hnz].
  - destruct caches; [reflexivity | cbn in Hlen; lia].
  - assert (Hn64 : to_size_t n = n) by (unfold to_size_t; apply wrap_small; nia).
    rewrite Hn64, to_int_small by nia.
    destruct (Z.ltb_spec (n * SIZE c * 8) 0); [nia |].
    destruct (Z.ltb_spec (Z.of_nat (length caches)) n); [lia |].
    rewrite firstn_all2 by lia. apply serialize_each_image. exact Hsz.
Qed.

Lemma rev1_required_size c n :
  0 <= n < 2 ^ 31 ->
  to_size_t (to_size_t n * SIZE c * sizeof_DecoderData) = n * SIZE c * 8.
Proof.
  intros Hn. pose proof (SIZE_pos c) as Hpos.
  assert (Hn64 : to_size_t n = n) by (unfold to_size_t; apply wrap_small; lia).
  rewrite Hn64. unfold to_size_t, sizeof_DecoderData. apply wrap_small. nia.
Qed.

(** X21: the earlier raw format round-trips for every [n >= 0] (below
    2 GiB of descriptors), [n = 0] included: serialization gives exactly
    the [n * SIZE * 8] bytes of the cache array, with no handler table,
    and the loader of that revision, given these bytes and their length,
    returns the same descriptors. *)
Theorem rev1_round_trip c caches n :
  0 <= n -> n * SIZE c * 8 < 2 ^ 31 ->
  Z.of_nat (length caches) = n ->
  Forall (fun dc => length (cache dc) = Z.to_nat (SIZE c)) caches ->
  Forall (fun dc => Forall (representable c) (cache dc)) caches ->
  exists bytes,
    Rev1.serialize_whole_decoder_cache c caches n = Ok bytes /\
    bytes = caches_image c caches /\
    Z.of_nat (length bytes) = n * SIZE c * 8 /\
    Rev1.deserialize_decoder_cache c bytes n (Z.of_nat (length bytes)) = Ok caches.
Proof.
  intros Hn Hfit Hlen Hsz Hrep.
  pose proof (SIZE_pos c) as Hpos.
  destruct (rev1_serialize c caches n Hn Hfit Hlen Hsz) as [Hser Himage].
  exists (caches_image c caches).
  split; [exact Hser |]. split; [reflexivity |]. split; [exact Himage |].
  unfold Rev1.deserialize_decoder_cache.
  rewrite (to_int_small n) by nia.
  rewrite Himage, (to_int_small (n * SIZE c * 8)) by nia.
  destruct (Z.ltb_spec n 0); [lia |].
  rewrite rev1_required_size by nia.
  assert (HL : to_size_t (n * SIZE c * 8) = n * SIZE c * 8)
    by (unfold to_size_t; apply wrap_small; nia).
  rewrite HL, Z.eqb_refl. cbn [negb].
  destruct (Z.ltb_spec (n * SIZE c * 8) (n * SIZE c * 8)); [lia |].
  f_equal. unfold deserialize_cache_item_exp, sizeof_DecoderData.
  rewrite (views_read_caches c (SIZE c) (caches_image c caches) (Z.to_nat n) 0) by lia.
  cbn [Nat.mul drop].
  replace (Z.to_nat n) with (length caches) by lia.
  rewrite <- (app_nil_r (caches_image c caches)).
  apply read_caches_image; assumption.
Qed.

Section FormatCompatibility.
Context {Handler : Type} `{Countable Handler}.
Variable decode : Z -> Instruction Handler.

(** X22: the two raw formats do not read each other's files.  For
    [n >= 1] pages, the current serializer (with index 0 bound in
    [inst_handler_mapping]) writes the bytes of the earlier format
    followed by the count byte and the handler items, at least one byte
    more; the earlier loader, which wants exactly [n * SIZE * 8] bytes,
    refuses such a file, and the current loader, which wants at least
    [n * SIZE * 8 + 1], refuses a file of the earlier format. *)
Theorem raw_formats_incompatible c caches n (m : gmap Z Z) v (t : HandlerTables Handler) :
  1 <= n -> n * SIZE c * 8 < 2 ^ 31 - 2048 ->
  Z.of_nat (length caches) = n ->
  Forall (fun dc => length (cache dc) = Z.to_nat (SIZE c)) caches ->
  m !! 0 = Some v ->
  (forall k e, m !! k = Some e -> 0 <= k < 256) ->
  exists old new table,
    Rev1.serialize_whole_decoder_cache c caches n = Ok old /\
    serialize_whole_decoder_cache c caches n m = Ok new /\
    new = old ++ table /\ (1 <= length table)%nat /\
    Rev1.deserialize_decoder_cache c new n (Z.of_nat (length new)) = Throw runtime_error /\
    deserialize_decoder_cache decode c t old n (Z.of_nat (length old)) = Throw runtime_error.
Proof.
  intros Hn Hfit Hlen Hsz Hzero Hkeys.
  pose proof (SIZE_pos c) as Hpos.
  destruct (rev1_serialize c caches n ltac:(lia) ltac:(lia) Hlen Hsz) as [Hold Himage].
  destruct (serialize_whole_decoder_cache_layout c caches n m v
              Hn ltac:(lia) Hlen Hsz Hzero Hkeys) as (Hnew & _ & _ & Hsmall).
  set (items := handler_items m) in *.
  set (image := caches_image c caches) in *.
  set (table := [Z.of_nat (length items)] ++ concat (map item_bytes items)).
  exists image, (image ++ table), table.
  split; [exact Hold |]. split; [exact Hnew |]. split; [reflexivity |].
  split; [subst table; cbn [app length]; lia |].
  assert (Htable : (1 <= length table <= 1 + 8 * 255)%nat).
  { subst table. cbn [app length].
    assert (length (concat (map item_bytes items)) = 8 * length items)%nat.
    { clear. induction items as [| a l IH]; [reflexivity |].
      cbn [map concat length]. rewrite length_app, length_item_bytes, IH. lia. }
    lia. }
  split.
  - unfold Rev1.deserialize_decoder_cache.
    rewrite (to_int_small n) by nia.
    destruct (Z.ltb_spec n 0); [lia |].
    rewrite rev1_required_size by nia.
    rewrite length_app.
    rewrite to_int_small by lia.
    unfold to_size_t at 1. rewrite wrap_small by lia.
    destruct (Z.eqb_spec (Z.of_nat (length image + length table)) (n * SIZE c * 8));
      [lia | reflexivity].
  - unfold deserialize_decoder_cache, sizeof_DecoderData.
    rewrite (to_int_small n) by nia.
    rewrite Himage, (to_int_small (n * SIZE c * 8)) by nia.
    assert (Hn64 : to_size_t n = n) by (unfold to_size_t; apply wrap_small; nia).
    rewrite Hn64.
    unfold to_size_t. rewrite !wrap_small by nia.
    destruct (Z.ltb_spec (n * SIZE c * 8) (n * SIZE c * 8 + 1)); [reflexivity | lia].
Qed.

End FormatCompatibility.

(** X21 on one page of a build without compressed instructions. *)
Lemma rev1_round_trip_witness :
  exists bytes,
    Rev1.serialize_whole_decoder_cache false example_caches 1 = Ok bytes /\
    bytes = caches_image false example_caches /\
    Z.of_nat (length bytes) = 1 * SIZE false * 8 /\
    Rev1.deserialize_decoder_cache false bytes 1 (Z.of_nat (length bytes))
    = Ok example_caches.
Proof.
  apply (rev1_round_trip false example_caches 1).
  - lia.
  - by_evaluation.
  - reflexivity.
  - by_decision.
  - by_decision.
Defined.

(** X22 on the same page and the tables of its build. *)
Lemma raw_formats_incompatible_witness :
  exists old new table,
    Rev1.serialize_whole_decoder_cache false example_caches 1 = Ok old /\
    serialize_whole_decoder_cache false example_caches 1
      (inst_handler_mapping example_tables) = Ok new /\
    new = old ++ table /\ (1 <= length table)%nat /\
    Rev1.deserialize_decoder_cache false new 1 (Z.of_nat (length new))
    = Throw runtime_error /\
    deserialize_decoder_cache example_decode false initial_tables old 1
      (Z.of_nat (length old)) = Throw runtime_error.
Proof.
  apply (raw_formats_incompatible example_decode false example_caches 1
           (inst_handler_mapping example_tables) 0 initial_tables).
  - lia.
  - by_evaluation.
  - reflexivity.
  - by_decision.
  - by_evaluation.
  - intros k e Hk.
    assert (Hdom : k ∈ dom (inst_handler_mapping example_tables))
      by (apply elem_of_dom; eexists; exact Hk).
    replace (dom (inst_handler_mapping example_tables)) with ({[0; 1]} : gset Z)
      in Hdom by by_evaluation.
    apply elem_of_union in Hdom as [Hd | Hd]; apply elem_of_singleton in Hd; lia.
Defined.

(** ** The ELF loader *)

Section LoaderProperties.
Variable ops : LoaderOps.
Variable binary : list Z.

Lemma binary_load_ph_spec mem hdr mem' :
  loader_ops_frame ops ->
  binary_load_ph ops binary mem hdr = Ok mem' ->
  segment_in_file binary hdr /\
  m_start_address mem' = m_start_address mem /\
  m_stack_address mem' = m_stack_address mem /\
  m_protect_segments mem' = m_protect_segments mem /\
  m_elf_end_vaddr mem' = Z.max (m_elf_end_vaddr mem) (segment_end hdr).
Proof.
  intros [Hcopy Hattr] Hrun. unfold binary_load_ph in Hrun.
  destruct (Z.ltb_spec (Z.of_nat (length binary)) (p_offset hdr + p_filesz hdr))
    as [| Hin]; [discriminate |].
  destruct (loader_memcpy ops mem (p_vaddr hdr) _) as [mem1 |] eqn:H1; [| discriminate].
  cbn [bind] in Hrun.
  destruct (set_page_attr ops mem1 (p_vaddr hdr) (p_filesz hdr) _) as [mem2 |] eqn:H2;
    [| discriminate].
  cbn [bind] in Hrun. injection Hrun as <-.
  destruct (Hcopy _ _ _ _ H1) as (Ha1 & Ha2 & Ha3 & Ha4).
  destruct (Hattr _ _ _ _ _ H2) as (Hb1 & Hb2 & Hb3 & Hb4).
  unfold set_layout, segment_end, segment_in_file;
    cbn [m_start_address m_stack_address m_protect_segments m_elf_end_vaddr].
  repeat split; congruence.
Qed.

Lemma load_segments_spec : forall hdrs mem mem',
  loader_ops_frame ops ->
  load_segments ops binary mem hdrs = Ok mem' ->
  m_start_address mem' = m_start_address mem /\
  m_protect_segments mem' = m_protect_segments mem /\
  m_stack_address mem'
  = match last (filter is_stack hdrs) with
    | Some hdr => p_vaddr hdr
    | None => m_stack_address mem
    end /\
  m_elf_end_vaddr mem <= m_elf_end_vaddr mem' /\
  Forall (fun hdr => is_load hdr ->
            segment_in_file binary hdr /\ segment_end hdr <= m_elf_end_vaddr mem') hdrs /\
  (m_elf_end_vaddr mem' = m_elf_end_vaddr mem \/
   Exists (fun hdr => is_load hdr /\ m_elf_end_vaddr mem' = segment_end hdr) hdrs).
Proof.
  induction hdrs as [| hdr rest IH]; intros mem mem' Hframe Hrun.
  - cbn in Hrun. injection Hrun as <-. cbn. repeat split; try lia; auto.
  - cbn [load_segments] in Hrun.
    destruct (Z.eqb_spec (p_type hdr) PT_LOAD) as [Hload | Hnl].
    + destruct (binary_load_ph ops binary mem hdr) as [mem1 |] eqn:Hph; [| discriminate].
      cbn [bind] in Hrun.
      destruct (binary_load_ph_spec mem hdr mem1 Hframe Hph)
        as (Hin & Hs1 & Hk1 & Hp1 & He1).
      destruct (IH mem1 mem' Hframe Hrun) as (Hs & Hp & Hk & Hle & Hall & Hex).
      rewrite filter_cons_False
        by (unfold is_stack; rewrite Hload; unfold PT_LOAD, PT_GNU_STACK; lia).
      split; [congruence |]. split; [congruence |].
      split; [rewrite Hk, Hk1; reflexivity |].
      split; [lia |]. split.
      * apply Forall_cons. split; [intros _; split; [exact Hin | lia] | exact Hall].
      * destruct Hex as [Heq | Hex].
        -- rewrite Heq, He1.
           destruct (Z.max_spec (m_elf_end_vaddr mem) (segment_end hdr)) as [[_ Hm] | [_ Hm]].
           ++ right. apply Exists_cons_hd. split; [exact Hload | lia].
           ++ left. lia.
        -- right. apply Exists_cons_tl. exact Hex.
    + set (mem1 := if p_type hdr =? PT_GNU_STACK
                   then set_layout mem (m_start_address mem) (p_vaddr hdr)
                          (m_exit_address mem) (m_elf_end_vaddr mem)
                   else mem).
      assert (Hrun' : load_segments ops binary mem1 rest = Ok mem')
        by (subst mem1; destruct (p_type hdr =? PT_GNU_STACK); exact Hrun).
      destruct (IH mem1 mem' Hframe Hrun') as (Hs & Hp & Hk & Hle & Hall & Hex).
      assert (Hs1 : m_start_address mem1 = m_start_address mem)
        by (subst mem1; destruct (p_type hdr =? PT_GNU_STACK); reflexivity).
      assert (He1 : m_elf_end_vaddr mem1 = m_elf_end_vaddr mem)
        by (subst mem1; destruct (p_type hdr =? PT_GNU_STACK); reflexivity).
      assert (Hp1 : m_protect_segments mem1 = m_protect_segments mem)
        by (subst mem1; destruct (p_type hdr =? PT_GNU_STACK); reflexivity).
      split; [congruence |]. split; [congruence |]. split.
      * destruct (decide (is_stack hdr)) as [Hy | Hn].
        -- rewrite filter_cons_True by exact Hy. rewrite last_cons, Hk.
           destruct (last (filter is_stack rest)); [reflexivity |].
           subst mem1. unfold is_stack in Hy. rewrite Hy, Z.eqb_refl. reflexivity.
        -- rewrite filter_cons_False by exact Hn. rewrite Hk.
           destruct (last (filter is_stack rest)); [reflexivity |].
           subst mem1. unfold is_stack in Hn.
           destruct (Z.eqb_spec (p_type hdr) PT_GNU_STACK); [contradiction | reflexivity].
      * split; [lia |]. split.
        -- apply Forall_cons. split; [intros Hl; contradiction | exact Hall].
        -- destruct Hex as [Heq | Hex];
             [left; lia | right; apply Exists_cons_tl; exact Hex].
Qed.

(** X23: what a successful [binary_loader] leaves, when the memory
    operations it calls do not touch the description of the program.  The
    binary has at least 64 bytes, a valid header, at least one program
    header, and holds the program headers and every loaded segment; the
    start address is [e_entry]; the stack address is [p_vaddr] of the
    last PT_GNU_STACK header, or of the first program header (of any
    type) when there is none; the end of the program never decreases, is
    at least the 32-bit end [p_vaddr + p_filesz] of every PT_LOAD
    segment, and is the old value or one of these ends.  And when the
    memory operations never throw, a binary with these properties is
    loaded. *)
Theorem binary_loader_spec elf phdr mem :
  loader_ops_frame ops ->
  Z.of_nat (length phdr) = e_phnum elf ->
  (forall mem',
     binary_loader ops binary elf phdr mem = Ok mem' ->
     64 <= Z.of_nat (length binary) /\
     validate_header ops elf = true /\
     1 <= e_phnum elf /\
     e_phoff elf + e_phnum elf * sizeof_Phdr <= Z.of_nat (length binary) /\
     Forall (fun hdr => is_load hdr -> segment_in_file binary hdr) phdr /\
     m_start_address mem' = e_entry elf /\
     m_stack_address mem'
     = default 0 (p_vaddr <$> (match last (filter is_stack phdr) with
                               | Some hdr => Some hdr
                               | None => head phdr
                               end)) /\
     m_elf_end_vaddr mem <= m_elf_end_vaddr mem' /\
     Forall (fun hdr => is_load hdr -> segment_end hdr <= m_elf_end_vaddr mem') phdr /\
     (m_elf_end_vaddr mem' = m_elf_end_vaddr mem \/
      Exists (fun hdr => is_load hdr /\ m_elf_end_vaddr mem' = segment_end hdr) phdr)) /\
  (loader_ops_total ops ->
   64 <= Z.of_nat (length binary) ->
   validate_header ops elf = true ->
   1 <= e_phnum elf ->
   e_phoff elf + e_phnum elf * sizeof_Phdr <= Z.of_nat (length binary) ->
   Forall (fun hdr => is_load hdr -> segment_in_file binary hdr) phdr ->
   exists mem', binary_loader ops binary elf phdr mem = Ok mem').
Proof.
  intros Hframe Hcount. split.
  - intros mem' Hrun. unfold binary_loader in Hrun.
    destruct (Z.ltb_spec (Z.of_nat (length binary)) 64) as [| Hlen]; [discriminate |].
    destruct (validate_header ops elf) eqn:Hvalid; [| discriminate]. cbn [negb] in Hrun.
    destruct (Z.leb_spec (e_phnum elf) 0) as [| Hnum]; [discriminate |].
    destruct (Z.ltb_spec (Z.of_nat (length binary))
                (e_phoff elf + e_phnum elf * sizeof_Phdr)) as [| Hroom]; [discriminate |].
    destruct phdr as [| first rest] eqn:Hphdr; [discriminate |].
    rewrite <- Hphdr in *.
    destruct (load_segments_spec phdr _ mem' Hframe Hrun)
      as (Hs & _ & Hk & Hle & Hall & Hex).
    unfold set_layout in Hs, Hk, Hle, Hex;
      cbn [m_start_address m_stack_address m_elf_end_vaddr] in Hs, Hk, Hle, Hex.
    split; [lia |]. split; [reflexivity |]. split; [lia |]. split; [lia |].
    split; [eapply Forall_impl; [exact Hall |]; intros h Hh Hl; apply Hh, Hl |].
    split; [exact Hs |]. split.
    { rewrite Hk. destruct (last (filter is_stack phdr)); [reflexivity |].
      rewrite Hphdr. reflexivity. }
    split; [exact Hle |].
    split; [eapply Forall_impl; [exact Hall |]; intros h Hh Hl; apply Hh, Hl |].
    exact Hex.
  - intros [Hcopy Hattr] Hlen Hvalid Hnum Hroom Hsegs.
    unfold binary_loader.
    destruct (Z.ltb_spec (Z.of_nat (length binary)) 64); [lia |].
    rewrite Hvalid. cbn [negb].
    destruct (Z.leb_spec (e_phnum elf) 0); [lia |].
    destruct (Z.ltb_spec (Z.of_nat (length binary))
                (e_phoff elf + e_phnum elf * sizeof_Phdr)); [lia |].
    destruct phdr as [| first rest] eqn:Hphdr; [cbn in Hcount; lia |].
    rewrite <- Hphdr in *.
    generalize (set_layout mem (e_entry elf) (p_vaddr first) (m_exit_address mem)
                  (m_elf_end_vaddr mem)).
    clear Hphdr Hcount. induction Hsegs as [| hdr hdrs Hhdr _ IH]; intros mem0.
    + eexists. reflexivity.
    + cbn [load_segments].
      assert (Hstep : exists mem1,
                 (if p_type hdr =? PT_LOAD then binary_load_ph ops binary mem0 hdr
                  else if p_type hdr =? PT_GNU_STACK then
                    Ok (set_layout mem0 (m_start_address mem0) (p_vaddr hdr)
                          (m_exit_address mem0) (m_elf_end_vaddr mem0))
                  else Ok mem0) = Ok mem1).
      { destruct (Z.eqb_spec (p_type hdr) PT_LOAD) as [Hload | _].
        - unfold binary_load_ph. specialize (Hhdr Hload). unfold segment_in_file in Hhdr.
          destruct (Z.ltb_spec (Z.of_nat (length binary)) (p_offset hdr + p_filesz hdr));
            [lia |].
          destruct (Hcopy mem0 (p_vaddr hdr)
                      (take (Z.to_nat (p_filesz hdr))
                         (drop (Z.to_nat (p_offset hdr)) binary))) as [mem1 ->].
          cbn [bind].
          match goal with
          | |- context [set_page_attr ops mem1 ?a ?l ?attrs] =>
              destruct (Hattr mem1 a l attrs) as [mem2 ->]
          end.
          cbn [bind]. eexists. reflexivity.
        - destruct (p_type hdr =? PT_GNU_STACK); eexists; reflexivity. }
      destruct Hstep as [mem1 ->]. cbn [bind]. apply IH.
Qed.

End LoaderProperties.

(** X23 on a binary with a loadable segment and a stack marker. *)
Lemma binary_loader_spec_witness :
  exists mem',
    binary_loader example_loader_ops example_binary example_ehdr example_phdrs
      (example_memory 16) = Ok mem' /\
    m_start_address mem' = 0x10074 /\
    m_stack_address mem' = 0x7FFF0000 /\
    m_elf_end_vaddr (example_memory 16) <= m_elf_end_vaddr mem'.
Proof.
  assert (Hframe : loader_ops_frame example_loader_ops).
  { split; intros; cbn in *; match goal with H : Ok _ = Ok _ |- _ => injection H as <- end;
      repeat split. }
  destruct (binary_loader_spec example_loader_ops example_binary example_ehdr
              example_phdrs (example_memory 16) Hframe eq_refl) as [Hok Hrun].
  destruct Hrun as [mem' Hrun].
  - split; intros; eexists; reflexivity.
  - by_evaluation.
  - reflexivity.
  - by_evaluation.
  - by_evaluation.
  - by_decision.
  - exists mem'. split; [exact Hrun |].
    destruct (Hok mem' Hrun) as (_ & _ & _ & _ & _ & Hs & Hk & Hle & _).
    split; [exact Hs |]. split; [exact Hk | exact Hle].
Defined.

(** ** Page faults against the quota *)

Lemma default_page_fault_fresh mem page :
  m_pages mem !! page = None ->
  pages_active mem < pages_total mem ->
  exists mem',
    default_page_fault mem page = Ok (mem', new_Page) /\
    m_pages mem' = <[page := new_Page]> (m_pages mem) /\
    pages_active mem' = pages_active mem + 1 /\
    pages_total mem' = pages_total mem.
Proof.
  intros Hfree Hroom. unfold default_page_fault.
  destruct (Z.ltb_spec (pages_active mem) (pages_total mem)); [| lia].
  unfold allocate_page. rewrite Hfree.
  eexists. split; [reflexivity |].
  unfold pages_active, pages_total, invalidate_page, set_paging; cbn [m_pages m_pages_total].
  split; [reflexivity |]. split; [| reflexivity].
  rewrite map_size_insert_None by exact Hfree. lia.
Qed.

(** X24: page faults and the quota.  A run of page faults on distinct
    unmapped pages, from a memory within its quota, succeeds exactly when
    the pages still fit: then every one of them is mapped with a fresh
    zeroed page, no other page number changes and the count grows by
    their number; when they do not fit, the run ends with OUT_OF_MEMORY.
    The page count never exceeds [pages_total]. *)
Theorem page_faults_quota pages : forall mem,
  NoDup pages ->
  Forall (fun page => m_pages mem !! page = None) pages ->
  pages_active mem <= pages_total mem ->
  (pages_active mem + Z.of_nat (length pages) <= pages_total mem ->
   exists mem',
     page_faults mem pages = Ok mem' /\
     pages_active mem' = pages_active mem + Z.of_nat (length pages) /\
     pages_active mem' <= pages_total mem' /\
     (forall page, page ∈ pages -> m_pages mem' !! page = Some new_Page) /\
     (forall k, k ∉ pages -> m_pages mem' !! k = m_pages mem !! k)) /\
  (pages_total mem < pages_active mem + Z.of_nat (length pages) ->
   page_faults mem pages = Throw OUT_OF_MEMORY).
Proof.
  induction pages as [| page rest IH]; intros mem Hnodup Hfree Hquota.
  - split.
    + intros _. exists mem. cbn. repeat split; try lia.
      intros page Hin. apply elem_of_nil in Hin. contradiction.
    + cbn. lia.
  - apply NoDup_cons in Hnodup as [Hnotin Hnodup].
    apply Forall_cons in Hfree as [Hpage Hrest].
    cbn [page_faults length].
    destruct (Z.lt_ge_cases (pages_active mem) (pages_total mem)) as [Hroom | Hfull].
    + destruct (default_page_fault_fresh mem page Hpage Hroom)
        as (mem1 & Hfault & Hpages & Hactive & Htotal).
      rewrite Hfault. cbn [bind].
      assert (Hrest1 : Forall (fun p => m_pages mem1 !! p = None) rest).
      { rewrite Forall_forall in Hrest |- *. intros p Hp. rewrite Hpages.
        rewrite lookup_insert_ne by (intros ->; contradiction).
        apply Hrest, Hp. }
      destruct (IH mem1 Hnodup Hrest1 ltac:(lia)) as [Hfit Hover].
      split.
      * intros Hsum. destruct (Hfit ltac:(lia)) as (mem' & Hrun & Hcount & Hq & Hnew & Hold).
        exists mem'. split; [exact Hrun |]. split; [lia |]. split; [exact Hq |]. split.
        -- intros p Hp. apply elem_of_cons in Hp as [-> | Hp]; [| apply Hnew, Hp].
           rewrite Hold by exact Hnotin. rewrite Hpages. apply lookup_insert_eq.
        -- intros k Hk. apply not_elem_of_cons in Hk as [Hne Hk].
           rewrite Hold by exact Hk. rewrite Hpages. apply lookup_insert_ne. congruence.
      * intros Hsum. apply Hover. lia.
    + split; [intros Hsum; lia |].
      intros _. unfold default_page_fault.
      destruct (Z.ltb_spec (pages_active mem) (pages_total mem)); [lia | reflexivity].
Qed.

(** X24 with a quota of three pages, one of them in use: two faults fit,
    three do not. *)
Lemma page_faults_quota_witness :
  (exists mem',
     page_faults (example_memory 3) [5; 6] = Ok mem' /\
     pages_active mem' = 3 /\ m_pages mem' !! 6 = Some new_Page) /\
  page_faults (example_memory 3) [5; 6; 7] = Throw OUT_OF_MEMORY.
Proof.
  split.
  - destruct (proj1 (page_faults_quota [5; 6] (example_memory 3)
                       ltac:(by_decision) ltac:(by_decision) ltac:(by_evaluation))
                ltac:(by_evaluation))
      as (mem' & Hrun & Hcount & _ & Hnew & _).
    exists mem'. split; [exact Hrun |]. split; [exact Hcount |].
    apply Hnew. by_decision.
  - apply (proj2 (page_faults_quota [5; 6; 7] (example_memory 3)
                    ltac:(by_decision) ltac:(by_decision) ltac:(by_evaluation))).
    by_evaluation.
Defined.
